(** * Signal / Property: a shallow embedding of Signal.h and Property.h

    [Signal<Args...>] is a table of slots ([std::map<std::size_t,
    std::function>]) together with a [std::size_t] counter; [Property<T>]
    wraps a value, two signals and an optional link to a source property.

    Slots are callables that may re-enter the library, so the objects live
    in an explicit store ([World]) and every slot is a store transformer.
    User lambdas are arbitrary functions of the store, reached through a
    code table ([connect_member] is [connect] of such a callable); the only
    lambda the library itself builds, the forwarding lambda of
    [Property::connect_from], is a constructor of [Slot].
    Calls that run slots take fuel: re-entrant emission has no depth guard
    in the source, and a slot may keep connecting new slots for ever.

    What the model fixes:
    - [std::size_t] has 64 bits, arithmetic on it wraps;
    - signals carry one argument, of the type [T] of the properties;
    - [operator==] on [T] decides equality of values;
    - undefined behaviour (an iterator used after its node was erased, a
      pointer to an object that is not there) is the outcome [Fault];
    - slots do not throw.
    The store also keeps a trace of what the dispatchers did, and every
    node of a table an identity; neither is visible to the program. *)

From Stdlib Require Import ZArith List Bool Lia Sorted.
From stdpp Require Import base option list gmap.

(** ** Machine integers: [std::size_t] *)

Definition SIZE_BITS : Z := 64.
Definition SIZE_MAX : Z := (2 ^ SIZE_BITS - 1)%Z.

(** Unsigned arithmetic is modulo [2 ^ SIZE_BITS]. *)
Definition wrap (z : Z) : Z := (z mod 2 ^ SIZE_BITS)%Z.

(** ** Outcomes of calls that may run user code *)

Inductive Outcome (A : Type) : Type :=
| Done (a : A)      (* the call returned *)
| Fault             (* undefined behaviour: invalidated iterator, dangling pointer *)
| OutOfFuel.        (* the call needs more stack / steps than were granted *)

Arguments Done {A} a.
Arguments Fault {A}.
Arguments OutOfFuel {A}.

Definition bind {A B : Type} (o : Outcome A) (k : A -> Outcome B) : Outcome B :=
  match o with
  | Done a => k a
  | Fault => Fault
  | OutOfFuel => OutOfFuel
  end.

Notation "'do' x <- o ; k" := (bind o (fun x => k))
  (at level 10, x name, o at level 100, k at level 200).

(** ** Signal.h: the slot table *)

(** A slot is a [std::function]. [UserFn f] is the user callable number [f]
    of the code table; [SetFrom p] is the lambda
    [[this](T const& value) { set(value); }] built by [connect_from] with
    [this = p]. *)
Inductive Slot : Type :=
| UserFn (f : nat)
| SetFrom (p : nat).

(** One node of the [std::map]. [node] is the identity of the tree node
    (what an iterator points to); it is not visible to the program. *)
Record Entry : Type := { key : Z; node : nat; fn : Slot }.

Record Signal : Type := {
  m_slots : list Entry;   (* std::map, kept in ascending key order *)
  m_id : Z;               (* std::size_t m_id *)
  m_nodes : nat           (* number of tree nodes allocated so far *)
}.

(** [constexpr Signal() : m_id(0) {}] *)
Definition Signal_new : Signal := {| m_slots := []; m_id := 0; m_nodes := 0 |}.

(** [std::map::insert]: keeps the order; an existing key keeps its mapping. *)
Fixpoint map_insert (e : Entry) (l : list Entry) : list Entry :=
  match l with
  | [] => [e]
  | h :: t =>
      if (key e <? key h)%Z then e :: h :: t
      else if (key e =? key h)%Z then h :: t
      else h :: map_insert e t
  end.

(** [std::map::erase(key)] *)
Definition map_erase (id : Z) (l : list Entry) : list Entry :=
  List.filter (fun e => negb (key e =? id)%Z) l.

Definition map_find (id : Z) (l : list Entry) : option Entry :=
  List.find (fun e => (key e =? id)%Z) l.

Definition keys (l : list Entry) : list Z := List.map key l.

(** [m_slots.insert(std::make_pair(++m_id, slot)); return m_id;] *)
Definition Signal_connect (slot : Slot) (sg : Signal) : Signal * Z :=
  let id := wrap (m_id sg + 1) in
  ({| m_slots := map_insert {| key := id; node := m_nodes sg; fn := slot |} (m_slots sg);
      m_id := id;
      m_nodes := S (m_nodes sg) |}, id).

(** [m_slots.erase(id);] *)
Definition Signal_disconnect (id : Z) (sg : Signal) : Signal :=
  {| m_slots := map_erase id (m_slots sg); m_id := m_id sg; m_nodes := m_nodes sg |}.

(** [m_slots.clear();] *)
Definition Signal_disconnect_all (sg : Signal) : Signal :=
  {| m_slots := []; m_id := m_id sg; m_nodes := m_nodes sg |}.

(** Iteration over the live table: [++it] moves to the first node whose key
    is greater, and is only defined while the node [it] points to is still
    in the table. *)
Definition next_entry (k : Z) (sg : Signal) : option Entry :=
  List.find (fun e => (k <? key e)%Z) (m_slots sg).

Definition node_alive (cur : Entry) (sg : Signal) : bool :=
  List.existsb (fun e => (key e =? key cur)%Z && Nat.eqb (node e) (node cur)) (m_slots sg).

(** The nodes that [connect(c1); ...; connect(cn)] appends to a table whose
    counter stands at [id] and which has allocated [nd] nodes. *)
Fixpoint number_from (id : Z) (nd : nat) (cs : list Slot) : list Entry :=
  match cs with
  | [] => []
  | c :: rest => {| key := id + 1; node := nd; fn := c |} :: number_from (id + 1) (S nd) rest
  end.

(** A run of the three mutators, with the ids [connect] returned, oldest
    first. *)
Inductive SignalOp : Type :=
| OpConnect (slot : Slot)
| OpDisconnect (id : Z)
| OpDisconnectAll.

Fixpoint run_ops (ops : list SignalOp) (sg : Signal) : Signal * list Z :=
  match ops with
  | [] => (sg, [])
  | OpConnect c :: rest =>
      let '(sg1, id) := Signal_connect c sg in
      let '(sg2, ids) := run_ops rest sg1 in (sg2, id :: ids)
  | OpDisconnect id :: rest => run_ops rest (Signal_disconnect id sg)
  | OpDisconnectAll :: rest => run_ops rest (Signal_disconnect_all sg)
  end.

Definition count_connects (ops : list SignalOp) : nat :=
  length (List.filter (fun o => match o with OpConnect _ => true | _ => false end) ops).

(** A signal is addressed either on its own or as a member of a property. *)
Inductive sigref : Type :=
| FreeSignal (a : nat)
| OnChange (p : nat)          (* Property::m_on_change *)
| PriorToChange (p : nat).    (* Property::m_prior_to_change *)

Global Instance sigref_eq_dec : EqDecision sigref.
Proof. solve_decision. Defined.

(** ** Property.h and the store *)

Section Model.

Context {T : Type} `{EqDecision T} {U : Type}.

Record Property : Type := {
  m_on_change : Signal;
  m_prior_to_change : Signal;
  m_connection : option nat;     (* const Property<T>*; nullptr is None *)
  m_connection_id : Z;
  m_value : T
}.

(** What the dispatchers did, in the order it happened. *)
Inductive Event : Type :=
| EvEmit (s : sigref) (x : T)             (* emit(x) was entered on s *)
| EvCall (s : sigref) (id : Z) (x : T).   (* slot id of s was called with x *)

Record World : Type := {
  props : gmap nat Property;     (* the Property objects, by address *)
  signals : gmap nat Signal;     (* signals that are not members of a property *)
  user : U;                      (* whatever the user lambdas captured *)
  trace : list Event
}.

Definition with_props (ps : gmap nat Property) (w : World) : World :=
  {| props := ps; signals := signals w; user := user w; trace := trace w |}.
Definition with_signals (ss : gmap nat Signal) (w : World) : World :=
  {| props := props w; signals := ss; user := user w; trace := trace w |}.
Definition with_user (u : U) (w : World) : World :=
  {| props := props w; signals := signals w; user := u; trace := trace w |}.
Definition record (ev : Event) (w : World) : World :=
  {| props := props w; signals := signals w; user := user w; trace := trace w ++ [ev] |}.

(** How many times [emit] was entered on [s] in a stretch of the trace. *)
Definition fired (s : sigref) (tr : list Event) : nat :=
  length (List.filter
            (fun ev => match ev with
                       | EvEmit s' _ => bool_decide (s' = s)
                       | EvCall _ _ _ => false
                       end) tr).

(** The calls [emit(x)] on [s] makes when it walks the entries [es]. *)
Definition calls (s : sigref) (x : T) (es : list Entry) : list Event :=
  List.map (fun e => EvCall s (key e) x) es.

Definition with_on_change (sg : Signal) (P : Property) : Property :=
  {| m_on_change := sg; m_prior_to_change := m_prior_to_change P;
     m_connection := m_connection P; m_connection_id := m_connection_id P;
     m_value := m_value P |}.
Definition with_prior_to_change (sg : Signal) (P : Property) : Property :=
  {| m_on_change := m_on_change P; m_prior_to_change := sg;
     m_connection := m_connection P; m_connection_id := m_connection_id P;
     m_value := m_value P |}.
Definition with_connection (c : option nat) (P : Property) : Property :=
  {| m_on_change := m_on_change P; m_prior_to_change := m_prior_to_change P;
     m_connection := c; m_connection_id := m_connection_id P;
     m_value := m_value P |}.
Definition with_connection_id (id : Z) (P : Property) : Property :=
  {| m_on_change := m_on_change P; m_prior_to_change := m_prior_to_change P;
     m_connection := m_connection P; m_connection_id := id;
     m_value := m_value P |}.
Definition with_value (v : T) (P : Property) : Property :=
  {| m_on_change := m_on_change P; m_prior_to_change := m_prior_to_change P;
     m_connection := m_connection P; m_connection_id := m_connection_id P;
     m_value := v |}.

Definition put_prop (p : nat) (P : Property) (w : World) : World :=
  with_props (<[p := P]> (props w)) w.

Definition get_signal (s : sigref) (w : World) : option Signal :=
  match s with
  | FreeSignal a => signals w !! a
  | OnChange p => m_on_change <$> props w !! p
  | PriorToChange p => m_prior_to_change <$> props w !! p
  end.

Definition put_signal (s : sigref) (sg : Signal) (w : World) : World :=
  match s with
  | FreeSignal a => with_signals (<[a := sg]> (signals w)) w
  | OnChange p =>
      match props w !! p with
      | Some P => put_prop p (with_on_change sg P) w
      | None => w
      end
  | PriorToChange p =>
      match props w !! p with
      | Some P => put_prop p (with_prior_to_change sg P) w
      | None => w
      end
  end.

(** The three mutators, called through a reference to a signal. *)
Definition connect_at (s : sigref) (slot : Slot) (w : World) : Outcome (World * Z) :=
  match get_signal s w with
  | Some sg => let '(sg', id) := Signal_connect slot sg in Done (put_signal s sg' w, id)
  | None => Fault
  end.

Definition disconnect_at (s : sigref) (id : Z) (w : World) : Outcome World :=
  match get_signal s w with
  | Some sg => Done (put_signal s (Signal_disconnect id sg) w)
  | None => Fault
  end.

Definition disconnect_all_at (s : sigref) (w : World) : Outcome World :=
  match get_signal s w with
  | Some sg => Done (put_signal s (Signal_disconnect_all sg) w)
  | None => Fault
  end.

(** [emit], as seen by code that calls it. *)
Definition Emitter : Type := sigref -> T -> World -> Outcome World.

(** A [const T&] argument: a temporary, or the [m_value] of a property. *)
Inductive Ref : Type :=
| ByValue (v : T)
| ValueOf (p : nat).

Definition deref (r : Ref) (w : World) : option T :=
  match r with
  | ByValue v => Some v
  | ValueOf p => m_value <$> props w !! p
  end.

(** [const T& get() const] *)
Definition Property_get (this : nat) (w : World) : option T :=
  m_value <$> props w !! this.

(** [Property(const Property<T>& xi_other)]: the value only; both signals
    are default-constructed, the link is null, the id is [-1]. *)
Definition Property_copy (xi_other : Property) : Property :=
  {| m_on_change := Signal_new; m_prior_to_change := Signal_new;
     m_connection := None; m_connection_id := SIZE_MAX;
     m_value := m_value xi_other |}.

(** [explicit Property(const T& xi_val)] *)
Definition Property_of_value (xi_val : T) : Property :=
  {| m_on_change := Signal_new; m_prior_to_change := Signal_new;
     m_connection := None; m_connection_id := SIZE_MAX;
     m_value := xi_val |}.

(** Copy construction of a new object at address [q]. *)
Definition Property_copy_construct (q xi_other : nat) (w : World) : Outcome World :=
  match props w !! xi_other with
  | Some P => Done (put_prop q (Property_copy P) w)
  | None => Fault
  end.

(** [virtual void set(const T& value)]; [value] is read again after the
    first emission, as a reference is. *)
Definition Property_set (em : Emitter) (this : nat) (value : Ref) (w : World)
  : Outcome World :=
  match props w !! this, deref value w with
  | Some P, Some v =>
      if bool_decide (v = m_value P) then Done w
      else
        do w1 <- em (PriorToChange this) (m_value P) w ;
        match props w1 !! this, deref value w1 with
        | Some P1, Some v1 =>
            em (OnChange this) v1 (put_prop this (with_value v1 P1) w1)
        | _, _ => Fault
        end
  | _, _ => Fault
  end.

(** [void set_with_no_emit(const T& value)] *)
Definition Property_set_with_no_emit (this : nat) (value : Ref) (w : World)
  : Outcome World :=
  match props w !! this, deref value w with
  | Some P, Some v => Done (put_prop this (with_value v P) w)
  | _, _ => Fault
  end.

(** [void touch()] *)
Definition Property_touch (em : Emitter) (this : nat) (w : World) : Outcome World :=
  match props w !! this with
  | Some P =>
      do w1 <- em (PriorToChange this) (m_value P) w ;
      match props w1 !! this with
      | Some P1 => em (OnChange this) (m_value P1) w1
      | None => Fault
      end
  | None => Fault
  end.

(** [void disconnect() noexcept] *)
Definition Property_disconnect (this : nat) (w : World) : Outcome World :=
  match props w !! this with
  | Some P =>
      match m_connection P with
      | None => Done w
      | Some src =>
          do w1 <- disconnect_at (OnChange src) (m_connection_id P) w ;
          match props w1 !! this with
          | Some P1 =>
              Done (put_prop this (with_connection None (with_connection_id SIZE_MAX P1)) w1)
          | None => Fault
          end
      end
  | None => Fault
  end.

(** [void connect_from(const Property<T>& source) noexcept] *)
Definition Property_connect_from (em : Emitter) (this source : nat) (w : World)
  : Outcome World :=
  do w1 <- Property_disconnect this w ;
  match props w1 !! this with
  | Some P1 =>
      let w2 := put_prop this (with_connection (Some source) P1) w1 in
      do r <- connect_at (OnChange source) (SetFrom this) w2 ;
      let '(w3, id) := r in
      match props w3 !! this with
      | Some P3 =>
          Property_set em this (ValueOf source) (put_prop this (with_connection_id id P3) w3)
      | None => Fault
      end
  | None => Fault
  end.

(** [void disconnect_auditors() noexcept] *)
Definition Property_disconnect_auditors (this : nat) (w : World) : Outcome World :=
  do w1 <- disconnect_all_at (OnChange this) w ;
  disconnect_all_at (PriorToChange this) w1.

(** [Property& operator=(const Property& xi_other)] *)
Definition Property_assign (em : Emitter) (this xi_other : nat) (w : World)
  : Outcome World :=
  Property_set em this (ValueOf xi_other) w.

(** [Property& operator=(const U& xi_value)] *)
Definition Property_assign_value (em : Emitter) (this : nat) (xi_value : T) (w : World)
  : Outcome World :=
  Property_set em this (ByValue xi_value) w.

(** ** Signal::emit *)

(** The user callables: [code f em x w] is what callable [f] does to the
    store when called with [x]; it reaches [emit] (hence [set], [touch],
    [connect_from]) through [em]. *)
Variable code : nat -> Emitter -> T -> World -> Outcome World.

Definition invoke (em : Emitter) (slot : Slot) (x : T) (w : World) : Outcome World :=
  match slot with
  | UserFn f => code f em x w
  | SetFrom p => Property_set em p (ByValue x) w
  end.

(** [for (auto it : m_slots) { it.second(p...); }] from the node [cur] on.
    The element is copied, then called; the increment reads the table as
    the call left it. *)
Fixpoint emit_loop (fuel : nat) (s : sigref) (cur : Entry) (x : T) (w : World)
  {struct fuel} : Outcome World :=
  match fuel with
  | O => OutOfFuel
  | S n =>
      (* what the slot reaches as [emit]: [Signal_emit n] *)
      let em : Emitter := fun s' x' w' =>
        match get_signal s' w' with
        | Some sg' =>
            match m_slots sg' with
            | [] => Done (record (EvEmit s' x') w')
            | e :: _ => emit_loop n s' e x' (record (EvEmit s' x') w')
            end
        | None => Fault
        end in
      do w1 <- invoke em (fn cur) x (record (EvCall s (key cur) x) w) ;
      match get_signal s w1 with
      | Some sg1 =>
          if node_alive cur sg1 then
            match next_entry (key cur) sg1 with
            | Some e' => emit_loop n s e' x w1
            | None => Done w1
            end
          else Fault
      | None => Fault
      end
  end.

(** [void emit(Args... p)] *)
Definition Signal_emit (fuel : nat) : Emitter := fun s x w =>
  match get_signal s w with
  | Some sg =>
      match m_slots sg with
      | [] => Done (record (EvEmit s x) w)
      | e :: _ => emit_loop fuel s e x (record (EvEmit s x) w)
      end
  | None => Fault
  end.

(** The loop entered at the first node of [l], or not at all. *)
Definition emit_rest (fuel : nat) (s : sigref) (x : T) (l : list Entry) (w : World)
  : Outcome World :=
  match l with
  | [] => Done w
  | e :: _ => emit_loop fuel s e x w
  end.

(** The slots of [es] called one after the other with [x], each one once:
    what [emit] amounts to when the table stays as it is. *)
Fixpoint call_seq (fuel : nat) (s : sigref) (x : T) (es : list Entry) (w : World)
  {struct es} : Outcome World :=
  match es with
  | [] => Done w
  | e :: rest =>
      match fuel with
      | O => OutOfFuel
      | S n =>
          do w1 <- invoke (Signal_emit n) (fn e) x (record (EvCall s (key e) x) w) ;
          call_seq n s x rest w1
      end
  end.

(** [connect(c1); ...; connect(cn)] on the signal [s]. *)
Fixpoint connect_all (s : sigref) (cs : list Slot) (w : World) : Outcome World :=
  match cs with
  | [] => Done w
  | c :: rest => do r <- connect_at s c w ; connect_all s rest (fst r)
  end.

(** ** Shapes of user code the statements speak about *)

(** The store, but for what the user lambdas captured and the trace. *)
Definition same_objects (w w' : World) : Prop :=
  props w' = props w /\ signals w' = signals w.

(** A callable that only touches what it captured. *)
Definition observer (f : nat) : Prop :=
  forall em x w, exists w',
    code f em x w = Done w' /\ same_objects w w' /\ trace w' = trace w.

Definition observer_slot (c : Slot) : Prop :=
  exists f, c = UserFn f /\ observer f.

(** A callable that leaves the table of [s] as it found it, in whatever
    store it is called; the [emit] it reaches is the program's. *)
Definition keeps_table (s : sigref) (c : Slot) : Prop :=
  forall (n : nat) x w w',
    invoke (Signal_emit n) c x w = Done w' -> get_signal s w' = get_signal s w.

(** No slot of [es], called in turn with [x] from the store [w], changes
    the table of [s]: an [emit] during which no callback mutates the
    subscriber set. What the slots do besides (to other signals, to
    properties, by emitting again) is free. *)
Fixpoint table_kept (fuel : nat) (s : sigref) (x : T) (es : list Entry) (w : World)
  {struct es} : Prop :=
  match es with
  | [] => True
  | e :: rest =>
      match fuel with
      | O => True
      | S n =>
          match invoke (Signal_emit n) (fn e) x (record (EvCall s (key e) x) w) with
          | Done w1 => get_signal s w1 = get_signal s w /\ table_kept n s x rest w1
          | _ => True
          end
      end
  end.

(** A callable whose whole body is [s.connect(c)]. *)
Definition connector (f : nat) (s : sigref) (c : Slot) : Prop :=
  forall em x w, code f em x w = do r <- connect_at s c w ; Done (fst r).

(** A callable whose whole body is [s.disconnect(id)]. *)
Definition disconnector (f : nat) (s : sigref) (id : Z) : Prop :=
  forall em x w, code f em x w = disconnect_at s id w.

(** Ascending keys, as a [std::map] keeps them. *)
Definition sorted (l : list Entry) : Prop :=
  StronglySorted (fun a b => (key a < key b)%Z) l.

(** The counter has not wrapped: every key is at most [m_id]. *)
Definition Signal_ok (sg : Signal) : Prop :=
  sorted (m_slots sg) /\
  Forall (fun e => (0 < key e <= m_id sg)%Z) (m_slots sg) /\
  (0 <= m_id sg <= SIZE_MAX)%Z.

(** A table of observers. *)
Definition quiet (sg : Signal) : Prop :=
  sorted (m_slots sg) /\ Forall (fun e => observer_slot (fn e)) (m_slots sg).

Definition table_size (s : sigref) (w : World) : nat :=
  match get_signal s w with
  | Some sg => length (m_slots sg)
  | None => 0
  end.

(** Fuel that covers one pass over the four tables of a source and its
    dependent. *)
Definition binding_fuel (A B : nat) (w : World) : nat :=
  table_size (OnChange B) w + table_size (PriorToChange B) w +
  table_size (OnChange A) w + table_size (PriorToChange A) w.

(** The link of a dependent [PA] at address [A] to its source [PB] at
    address [B]: [PA] holds [B]'s address and the id of a forwarding slot
    in [PB]'s [m_on_change]; every other slot around observes. *)
Definition Linked (A B : nat) (PA PB : Property) : Prop :=
  m_connection PA = Some B /\
  (exists l1 e l2,
     m_slots (m_on_change PB) = l1 ++ e :: l2 /\
     key e = m_connection_id PA /\ fn e = SetFrom A /\
     Forall (fun e => observer_slot (fn e)) (l1 ++ l2)) /\
  sorted (m_slots (m_on_change PB)) /\
  quiet (m_prior_to_change PB) /\
  quiet (m_on_change PA) /\ quiet (m_prior_to_change PA).

(** [A] is bound to [B] in the store. *)
Definition Bound (A B : nat) (w : World) : Prop :=
  A <> B /\
  exists PA PB,
    props w !! A = Some PA /\ props w !! B = Some PB /\ Linked A B PA PB.

(** ** The rest of Property.h *)

(** [Property& operator=(Property&& xi_other) noexcept]:
    [set(std::move(xi_other.m_value)); xi_other.m_value = T{};], with
    [dflt] for [T{}]. [set] takes a [const T&], so it reads the other's
    value through the reference and copies it. *)
Definition Property_move_assign (em : Emitter) (dflt : T) (this xi_other : nat) (w : World)
  : Outcome World :=
  do w1 <- Property_set em this (ValueOf xi_other) w ;
  match props w1 !! xi_other with
  | Some P => Done (put_prop xi_other (with_value dflt P) w1)
  | None => Fault
  end.

(** The emissions of a stretch of the trace, in order, without the calls. *)
Fixpoint emissions (tr : list Event) : list (sigref * T) :=
  match tr with
  | [] => []
  | EvEmit s x :: rest => (s, x) :: emissions rest
  | EvCall _ _ _ :: rest => emissions rest
  end.

(** A callable whose whole body is [s.emit(x)] with the argument it got. *)
Definition reemitter (f : nat) (s : sigref) : Prop :=
  forall em x w, code f em x w = em s x w.

End Model.

(** [n] rounds of [connect(c); disconnect_all();]. *)
Fixpoint cycles (n : nat) : list SignalOp :=
  match n with
  | O => []
  | S k => OpConnect (UserFn 0) :: OpDisconnectAll :: cycles k
  end.

(** ** A small program to run the model on

    [int] values; the lambdas capture a log. Callable 1 connects a logger
    to signal 0, callables 2 and 3 disconnect slots 1 and 2 of signal 0,
    callable 30 logs its argument and assigns to the property at address 2
    whether the argument is above 5 (as the lambda on [OutputValue] of
    Test.cpp does with [CriticalSituation]), every other callable logs its
    argument. *)
Definition demo_code (f : nat) (em : @Emitter Z (list (nat * Z))) (x : Z)
  (w : @World Z (list (nat * Z))) : Outcome (@World Z (list (nat * Z))) :=
  if Nat.eqb f 30 then
    Property_assign_value em 2 (if (5 <? x)%Z then 1%Z else 0%Z)
      (with_user ((f, x) :: user w) w)
  else
    match f with
    | 1 => do r <- connect_at (FreeSignal 0) (UserFn 0) w ; Done (fst r)
    | 2 => disconnect_at (FreeSignal 0) 1 w
    | 3 => disconnect_at (FreeSignal 0) 2 w
    | _ => Done (with_user ((f, x) :: user w) w)
    end.

Definition demo_signal (cs : list Slot) : Signal :=
  List.fold_left (fun sg c => fst (Signal_connect c sg)) cs Signal_new.

(** One free signal at address 0 with the slots [cs] connected in order. *)
Definition demo_world (cs : list Slot) : @World Z (list (nat * Z)) :=
  {| props := ∅; signals := {[ 0 := demo_signal cs ]}; user := []; trace := [] |}.

(** Two properties, [A] at address 0 holding 0 and [B] at address 1 holding
    5, each with one logger on either signal. *)
Definition demo_prop (v : Z) (f : nat) : @Property Z :=
  {| m_on_change := demo_signal [UserFn f];
     m_prior_to_change := demo_signal [UserFn (f + 1)];
     m_connection := None; m_connection_id := SIZE_MAX; m_value := v |}.

Definition demo_props : @World Z (list (nat * Z)) :=
  {| props := {[ 0 := demo_prop 0 10; 1 := demo_prop 5 20 ]};
     signals := ∅; user := []; trace := [] |}.


(** [test_property_2] of Test.cpp, with tenths for the floats and 0 / 1 for
    the booleans: [InputValue] at address 0, [OutputValue] at 1,
    [CriticalSituation] at 2; the three assignments are run from here. *)
Definition test2_start : Outcome (@World Z (list (nat * Z))) :=
  let fresh := @Property_of_value Z 0%Z in
  let w0 := {| props := {[ 0 := fresh; 1 := fresh; 2 := fresh ]};
               signals := ∅; user := []; trace := [] |} in
  do w1 <- Property_connect_from (Signal_emit demo_code 8) 1 0 w0 ;
  do r2 <- connect_at (OnChange 1) (UserFn 30) w1 ;
  do r3 <- connect_at (OnChange 2) (UserFn 31) (fst r2) ;
  Done (fst r3).

Definition test2_run (inputs : list Z) : Outcome (@World Z (list (nat * Z))) :=
  List.fold_left
    (fun o v => do w <- o ; Property_assign_value (Signal_emit demo_code 8) 0 v w)
    inputs test2_start.

(** [demo_props] after [A.connect_from(B)]. *)
Definition demo_bound : @World Z (list (nat * Z)) :=
  match Property_connect_from (Signal_emit demo_code 3) 0 1 demo_props with
  | Done w => w
  | _ => demo_props
  end.

(** Callables that feed the signal they are called from: callable 40
    emits signal 0 again with the argument it got, callable 41 connects
    one more slot like itself to signal 0; the others are those of
    [demo_code]. *)
Definition loop_code (f : nat) (em : @Emitter Z (list (nat * Z))) (x : Z)
  (w : @World Z (list (nat * Z))) : Outcome (@World Z (list (nat * Z))) :=
  if Nat.eqb f 40 then em (FreeSignal 0) x w
  else if Nat.eqb f 41 then do r <- connect_at (FreeSignal 0) (UserFn 41) w ; Done (fst r)
  else demo_code f em x w.

(** [demo_props] with a third property [C] at address 2 holding 8. *)
Definition demo_props3 : @World Z (list (nat * Z)) :=
  {| props := {[ 0 := demo_prop 0 10; 1 := demo_prop 5 20; 2 := demo_prop 8 22 ]};
     signals := ∅; user := []; trace := [] |}.

(** [demo_bound] after [B.connect_from(A)]: each is bound to the other. *)
Definition demo_cycle : @World Z (list (nat * Z)) :=
  match Property_connect_from (Signal_emit demo_code 3) 1 0 demo_bound with
  | Done w => w
  | _ => demo_bound
  end.

(** [demo_props3] after [A.connect_from(B); B.connect_from(C)]. *)
Definition demo_chain : @World Z (list (nat * Z)) :=
  match
    do w1 <- Property_connect_from (Signal_emit demo_code 3) 0 1 demo_props3 ;
    Property_connect_from (Signal_emit demo_code 5) 1 2 w1
  with
  | Done w => w
  | _ => demo_props3
  end.

(** [demo_props3] after [A.connect_from(C)]. *)
Definition demo_bound_far : @World Z (list (nat * Z)) :=
  match Property_connect_from (Signal_emit demo_code 3) 0 2 demo_props3 with
  | Done w => w
  | _ => demo_props3
  end.

(** A table as a wrapped counter can leave it: the counter is at its
    greatest value and id 0, given out after an earlier wrap, is still
    connected. *)
Definition wrapped_signal : Signal :=
  {| m_slots := [{| key := 0; node := 0; fn := UserFn 0 |};
                 {| key := 5; node := 1; fn := UserFn 4 |}];
     m_id := SIZE_MAX; m_nodes := 2 |}.

(** A new signal at address 0 beside a property at address 2 holding 0,
    with a logger on either of its signals: the property callable 30
    assigns to. *)
Definition demo_fresh : @World Z (list (nat * Z)) :=
  {| props := {[ 2 := demo_prop 0 12 ]}; signals := {[ 0 := Signal_new ]};
     user := []; trace := [] |}.

(** * Proofs *)

(** ** The slot table *)

Lemma SIZE_MAX_eq : SIZE_MAX = 18446744073709551615%Z.
Proof. reflexivity. Qed.

Lemma wrap_small (z : Z) : (0 <= z <= SIZE_MAX)%Z -> wrap z = z.
Proof.
  unfold wrap, SIZE_MAX. intros Hz. apply Z.mod_small. lia.
Qed.

Lemma map_insert_last (e : Entry) (l : list Entry) :
  Forall (fun h => (key h < key e)%Z) l -> map_insert e l = l ++ [e].
Proof.
  induction 1 as [|h t Hh _ IH]; simpl; [reflexivity|].
  destruct (Z.ltb_spec (key e) (key h)); [lia|].
  destruct (Z.eqb_spec (key e) (key h)); [lia|].
  now rewrite IH.
Qed.

Lemma sorted_snoc (l : list Entry) (e : Entry) :
  sorted l -> Forall (fun h => (key h < key e)%Z) l -> sorted (l ++ [e]).
Proof.
  unfold sorted. induction 1 as [|h t Ht IH Hh]; intros Hall; simpl.
  - repeat constructor.
  - inversion Hall; subst. constructor; [auto|].
    apply List.Forall_app; split; [assumption|]. now repeat constructor.
Qed.

Lemma sorted_erase (id : Z) (l : list Entry) : sorted l -> sorted (map_erase id l).
Proof.
  unfold sorted, map_erase. induction 1 as [|h t Ht IH Hh]; simpl; [constructor|].
  destruct (negb (key h =? id)%Z); [|assumption].
  constructor; [assumption|].
  rewrite List.Forall_forall in *. intros y Hy. apply Hh.
  apply List.filter_In in Hy. tauto.
Qed.

(** In a sorted table the increment from [e] lands on its right neighbour. *)
Lemma next_entry_split (l1 l2 : list Entry) (e : Entry) :
  sorted (l1 ++ e :: l2) ->
  List.find (fun y => (key e <? key y)%Z) (l1 ++ e :: l2) = head l2.
Proof.
  unfold sorted. induction l1 as [|h t IH]; simpl; intros Hs.
  - inversion Hs as [|? ? _ Hall]; subst.
    rewrite Z.ltb_irrefl. destruct l2 as [|e' l2']; simpl; [reflexivity|].
    inversion Hall; subst.
    destruct (Z.ltb_spec (key e) (key e')); [reflexivity|lia].
  - inversion Hs as [|? ? Ht Hall]; subst.
    assert (key h < key e)%Z as Hlt.
    { rewrite List.Forall_forall in Hall. apply Hall. apply in_or_app. right. now left. }
    destruct (Z.ltb_spec (key e) (key h)); [lia|]. now apply IH.
Qed.

Lemma node_alive_In (cur : Entry) (sg : Signal) :
  In cur (m_slots sg) -> node_alive cur sg = true.
Proof.
  intros Hin. unfold node_alive. apply existsb_exists. exists cur. split; [assumption|].
  now rewrite Z.eqb_refl, Nat.eqb_refl.
Qed.

Lemma map_erase_absent (id : Z) (l : list Entry) :
  map_find id l = None -> map_erase id l = l.
Proof.
  unfold map_find, map_erase. induction l as [|h t IH]; simpl; [reflexivity|].
  destruct (key h =? id)%Z; simpl; [discriminate|]. intros Hn. now rewrite IH.
Qed.

Lemma map_find_erase (id k : Z) (l : list Entry) :
  map_find k (map_erase id l) = if (k =? id)%Z then None else map_find k l.
Proof.
  unfold map_find, map_erase. induction l as [|h t IH]; simpl.
  - now destruct (k =? id)%Z.
  - destruct (Z.eqb_spec (key h) id) as [Hh|Hh]; simpl.
    + rewrite IH. destruct (Z.eqb_spec k id) as [Hk|Hk]; [reflexivity|].
      destruct (Z.eqb_spec (key h) k); [lia|reflexivity].
    + destruct (Z.eqb_spec (key h) k) as [Hhk|Hhk].
      * destruct (Z.eqb_spec k id); [lia|reflexivity].
      * apply IH.
Qed.

Lemma map_erase_idem (id : Z) (l : list Entry) :
  map_erase id (map_erase id l) = map_erase id l.
Proof.
  apply map_erase_absent. rewrite map_find_erase. now rewrite Z.eqb_refl.
Qed.

(** ** The counter *)

Lemma Signal_new_ok : Signal_ok Signal_new.
Proof.
  unfold Signal_ok, Signal_new, sorted; simpl.
  split; [constructor|]. split; [constructor|]. rewrite SIZE_MAX_eq. lia.
Qed.

Lemma Signal_connect_ok (c : Slot) (sg : Signal) :
  Signal_ok sg -> (m_id sg < SIZE_MAX)%Z ->
  snd (Signal_connect c sg) = (m_id sg + 1)%Z /\
  m_slots (fst (Signal_connect c sg)) =
    m_slots sg ++ [{| key := m_id sg + 1; node := m_nodes sg; fn := c |}] /\
  m_id (fst (Signal_connect c sg)) = (m_id sg + 1)%Z /\
  Signal_ok (fst (Signal_connect c sg)).
Proof.
  intros (Hs & Hk & Hid) Hlt. unfold Signal_connect; simpl.
  rewrite wrap_small by lia.
  assert (Forall (fun h => (key h < m_id sg + 1)%Z) (m_slots sg)) as Hall.
  { eapply List.Forall_impl; [|exact Hk]. simpl. intros; lia. }
  rewrite map_insert_last by exact Hall.
  repeat split; simpl; try lia.
  - now apply sorted_snoc.
  - apply List.Forall_app; split.
    + eapply List.Forall_impl; [|exact Hk]. simpl. intros; lia.
    + repeat constructor; simpl; lia.
Qed.

Lemma Signal_disconnect_ok (id : Z) (sg : Signal) :
  Signal_ok sg -> Signal_ok (Signal_disconnect id sg).
Proof.
  intros (Hs & Hk & Hid). repeat split; simpl; try lia.
  - now apply sorted_erase.
  - unfold map_erase. rewrite List.Forall_forall in *. intros y Hy.
    apply List.filter_In in Hy. apply Hk. tauto.
Qed.

Lemma Signal_disconnect_all_ok (sg : Signal) :
  Signal_ok sg -> Signal_ok (Signal_disconnect_all sg).
Proof.
  intros (Hs & Hk & Hid). unfold Signal_ok, sorted; simpl.
  split; [constructor|]. split; [constructor|]. lia.
Qed.

(** While the counter has room, the k-th [connect] after [sg] returns
    [m_id sg + k]. *)
Lemma run_ops_connect (c : Slot) (rest : list SignalOp) (sg : Signal) :
  snd (run_ops (OpConnect c :: rest) sg) =
    snd (Signal_connect c sg) :: snd (run_ops rest (fst (Signal_connect c sg))).
Proof.
  cbn [run_ops]. destruct (Signal_connect c sg) as [sg1 id1].
  cbn [fst snd]. now destruct (run_ops rest sg1).
Qed.

Lemma run_ops_ids (ops : list SignalOp) : forall sg,
  Signal_ok sg ->
  (m_id sg + Z.of_nat (count_connects ops) <= SIZE_MAX)%Z ->
  snd (run_ops ops sg) =
    List.map (fun i => (m_id sg + Z.of_nat i)%Z) (seq 1 (count_connects ops)).
Proof.
  induction ops as [|op rest IH]; intros sg Hok Hroom; [reflexivity|].
  destruct op as [c|id|].
  - rewrite run_ops_connect.
    change (count_connects (OpConnect c :: rest)) with (S (count_connects rest)) in *.
    destruct (Signal_connect_ok c sg Hok ltac:(lia)) as (Hid & _ & Hm & Hok').
    rewrite (IH _ Hok') by lia. rewrite Hid, Hm.
    cbn [seq List.map]. f_equal; try lia.
    rewrite <- (seq_shift (count_connects rest) 1), List.map_map.
    apply List.map_ext. intros; lia.
  - apply (IH (Signal_disconnect id sg)); [now apply Signal_disconnect_ok|exact Hroom].
  - apply (IH (Signal_disconnect_all sg)); [now apply Signal_disconnect_all_ok|exact Hroom].
Qed.

Lemma ascending_from (b : Z) (n k : nat) :
  StronglySorted Z.lt (List.map (fun i => (b + Z.of_nat i)%Z) (seq k n)).
Proof.
  revert k. induction n as [|n IH]; intros k; simpl; constructor; [apply IH|].
  rewrite List.Forall_forall. intros y Hy. apply in_map_iff in Hy as (i & <- & Hi).
  apply in_seq in Hi. lia.
Qed.

(** The ids of [n] rounds of connect / disconnect_all, whatever [n]. *)
Lemma cycles_ids (n : nat) : forall sg,
  snd (run_ops (cycles n) sg) =
    List.map (fun i => wrap (m_id sg + Z.of_nat i)) (seq 1 n).
Proof.
  induction n as [|n IH]; intros sg; [reflexivity|].
  cbn [cycles]. rewrite run_ops_connect. cbn [run_ops].
  rewrite IH. cbn [seq List.map]. f_equal.
  rewrite <- (seq_shift n 1), List.map_map. apply List.map_ext. intros i.
  cbn [Signal_connect Signal_disconnect_all m_id fst]. unfold wrap.
  rewrite Zplus_mod_idemp_l. f_equal. lia.
Qed.

(** ** The store *)

Section Proofs.

Context {T : Type} `{EqDecision T} {U : Type}.
Variable code : nat -> @Emitter T U -> T -> @World T U -> Outcome (@World T U).

Implicit Types (w : @World T U) (s : sigref) (x : T) (sg : Signal).

Lemma same_objects_refl w : same_objects w w.
Proof. now split. Qed.

Lemma same_objects_trans w1 w2 w3 :
  same_objects w1 w2 -> same_objects w2 w3 -> same_objects w1 w3.
Proof. intros [? ?] [? ?]. split; congruence. Qed.

Lemma same_objects_record (ev : Event) w : same_objects w (record ev w).
Proof. now split. Qed.

Lemma get_signal_same s w w' :
  same_objects w w' -> get_signal s w' = get_signal s w.
Proof. intros [Hp Hs]. destruct s; simpl; now rewrite ?Hp, ?Hs. Qed.

Lemma emit_loop_S (n : nat) s (cur : Entry) x w :
  emit_loop code (S n) s cur x w =
    do w1 <- invoke code (Signal_emit code n) (fn cur) x (record (EvCall s (key cur) x) w) ;
    match get_signal s w1 with
    | Some sg1 =>
        if node_alive cur sg1 then
          match next_entry (key cur) sg1 with
          | Some e' => emit_loop code n s e' x w1
          | None => Done w1
          end
        else Fault
    | None => Fault
    end.
Proof. reflexivity. Qed.

(** One turn of the loop on a slot that keeps the table: the increment is
    the one of the table at entry. *)
Lemma emit_loop_keeps (n : nat) s sg (l1 l2 : list Entry) (cur : Entry) x w :
  get_signal s w = Some sg -> m_slots sg = l1 ++ cur :: l2 -> sorted (m_slots sg) ->
  keeps_table code s (fn cur) ->
  emit_loop code (S n) s cur x w =
    do w1 <- invoke code (Signal_emit code n) (fn cur) x (record (EvCall s (key cur) x) w) ;
    match head l2 with
    | Some e' => emit_loop code n s e' x w1
    | None => Done w1
    end.
Proof.
  intros Hsg Hl Hsorted Hkeep. rewrite emit_loop_S.
  destruct (invoke code (Signal_emit code n) (fn cur) x (record (EvCall s (key cur) x) w))
    as [w1| |] eqn:Hinv; [|reflexivity..].
  cbn [bind]. apply Hkeep in Hinv.
  rewrite (get_signal_same s w (record _ w)) in Hinv by apply same_objects_record.
  rewrite Hinv, Hsg.
  rewrite node_alive_In by (rewrite Hl; apply in_or_app; right; now left).
  unfold next_entry. rewrite Hl in *. rewrite next_entry_split by assumption.
  reflexivity.
Qed.

Lemma observer_keeps s (c : Slot) : observer_slot code c -> keeps_table code s c.
Proof.
  intros (f & -> & Hobs) m x w w' Hinv. cbn [invoke] in Hinv.
  destruct (Hobs (Signal_emit code m) x w) as (w1 & Hc & Hsame & _).
  rewrite Hc in Hinv. injection Hinv as <-. now apply get_signal_same.
Qed.

(** With the table kept by every slot, [emit] is the slots called in turn. *)
Lemma emit_loop_call_seq (l2 : list Entry) : forall (n : nat) s sg l1 cur x w,
  get_signal s w = Some sg -> m_slots sg = l1 ++ cur :: l2 -> sorted (m_slots sg) ->
  Forall (fun e => keeps_table code s (fn e)) (cur :: l2) ->
  emit_loop code n s cur x w = call_seq code n s x (cur :: l2) w.
Proof.
  induction l2 as [|e' l2 IH]; intros n s sg l1 cur x w Hsg Hl Hsorted Hall;
    (destruct n as [|n]; [reflexivity|]);
    inversion Hall as [|? ? Hcur Hrest]; subst;
    rewrite (emit_loop_keeps n s sg l1 _ cur x w Hsg Hl Hsorted Hcur);
    cbn [call_seq head];
    destruct (invoke code (Signal_emit code n) (fn cur) x (record (EvCall s (key cur) x) w))
      as [w1| |] eqn:Hinv; cbn [bind]; try reflexivity.
  apply (IH n s sg (l1 ++ [cur])); try assumption.
  - pose proof (Hcur _ _ _ _ Hinv) as Hk.
    rewrite (get_signal_same s w (record _ w)) in Hk by apply same_objects_record.
    congruence.
  - now rewrite <- app_assoc.
Qed.

(** Slots that keep the table in every store keep it in this run. *)
Lemma keeps_table_kept (es : list Entry) : forall (n : nat) s x w,
  Forall (fun e => keeps_table code s (fn e)) es -> table_kept code n s x es w.
Proof.
  induction es as [|e es IH]; intros n s x w Hall; [exact I|].
  inversion Hall as [|? ? He Hrest]; subst.
  destruct n as [|n]; [exact I|]. cbn [table_kept].
  destruct (invoke code (Signal_emit code n) (fn e) x (record (EvCall s (key e) x) w))
    as [w1| |] eqn:Hinv; try exact I.
  split; [|now apply IH].
  rewrite (He _ _ _ _ Hinv). apply get_signal_same, same_objects_record.
Qed.

(** With the table left alone by every call of this run, [emit] is the
    slots called in turn. *)
Lemma emit_loop_kept (l2 : list Entry) : forall (n : nat) s sg l1 cur x w,
  get_signal s w = Some sg -> m_slots sg = l1 ++ cur :: l2 -> sorted (m_slots sg) ->
  table_kept code n s x (cur :: l2) w ->
  emit_loop code n s cur x w = call_seq code n s x (cur :: l2) w.
Proof.
  induction l2 as [|e' l2 IH]; intros n s sg l1 cur x w Hsg Hl Hsorted Hkept;
    (destruct n as [|n]; [reflexivity|]);
    rewrite emit_loop_S; cbn [call_seq]; cbn [table_kept] in Hkept;
    destruct (invoke code (Signal_emit code n) (fn cur) x (record (EvCall s (key cur) x) w))
      as [w1| |] eqn:Hinv; cbn [bind]; try reflexivity;
    destruct Hkept as [Hk Hrest]; rewrite Hk, Hsg;
    rewrite node_alive_In by (rewrite Hl; apply in_or_app; right; now left);
    unfold next_entry; rewrite Hl, next_entry_split by (rewrite <- Hl; exact Hsorted);
    cbn [head].
  - reflexivity.
  - apply (IH n s sg (l1 ++ [cur])); try assumption.
    + congruence.
    + now rewrite <- app_assoc.
Qed.

(** Observers called in turn: they all return, the objects stay, the
    trace gets one call per slot. *)
Lemma call_seq_observers (es : list Entry) : forall (n : nat) s x w,
  Forall (fun e => observer_slot code (fn e)) es -> length es <= n ->
  exists w', call_seq code n s x es w = Done w' /\ same_objects w w' /\
             trace w' = trace w ++ calls s x es.
Proof.
  induction es as [|e es IH]; intros n s x w Hall Hn.
  - exists w. cbn [call_seq calls List.map]. rewrite app_nil_r.
    repeat split; reflexivity.
  - destruct n as [|n]; [simpl in Hn; lia|].
    inversion Hall as [|? ? (f & Hf & Hobs) Hrest]; subst.
    cbn [call_seq]. rewrite Hf. cbn [invoke].
    destruct (Hobs (Signal_emit code n) x (record (EvCall s (key e) x) w))
      as (w1 & Hc & Hsame & Htr).
    rewrite Hc. cbn [bind].
    destruct (IH n s x w1 Hrest ltac:(simpl in Hn; lia)) as (w' & Hrun & Hsame' & Htr').
    exists w'. split; [assumption|]. split.
    + eapply same_objects_trans; [apply (same_objects_record (EvCall s (key e) x))|].
      eapply same_objects_trans; eassumption.
    + rewrite Htr', Htr. cbn [record trace calls List.map].
      now rewrite <- app_assoc.
Qed.

Lemma emit_loop_quiet (l2 : list Entry) (n : nat) s sg l1 cur x w :
  get_signal s w = Some sg -> m_slots sg = l1 ++ cur :: l2 -> sorted (m_slots sg) ->
  Forall (fun e => observer_slot code (fn e)) (cur :: l2) -> length (cur :: l2) <= n ->
  exists w', emit_loop code n s cur x w = Done w' /\ same_objects w w' /\
             trace w' = trace w ++ calls s x (cur :: l2).
Proof.
  intros Hsg Hl Hsorted Hall Hn.
  rewrite (emit_loop_call_seq l2 n s sg l1 cur x w Hsg Hl Hsorted).
  - now apply call_seq_observers.
  - eapply List.Forall_impl; [|exact Hall]. intros e. apply observer_keeps.
Qed.

(** [emit] on a table of observers. *)
Lemma emit_quiet (n : nat) s sg x w :
  get_signal s w = Some sg -> quiet code sg -> length (m_slots sg) <= n ->
  exists w', Signal_emit code n s x w = Done w' /\ same_objects w w' /\
             trace w' = trace w ++ EvEmit s x :: calls s x (m_slots sg).
Proof.
  intros Hsg [Hsorted Hall] Hn. unfold Signal_emit. rewrite Hsg.
  destruct (m_slots sg) as [|cur l2] eqn:Hl.
  - exists (record (EvEmit s x) w). repeat split; reflexivity.
  - assert (get_signal s (record (EvEmit s x) w) = Some sg) as Hsg'.
    { now rewrite (get_signal_same s w) by apply same_objects_record. }
    rewrite <- Hl in Hsorted.
    destruct (emit_loop_quiet l2 n s sg [] cur x _ Hsg' Hl Hsorted Hall Hn)
      as (w' & Hrun & Hsame & Htr).
    exists w'. split; [assumption|]. split.
    + eapply same_objects_trans; [apply (same_objects_record (EvEmit s x))|eassumption].
    + rewrite Htr. cbn [record trace]. now rewrite <- app_assoc.
Qed.

Lemma Signal_emit_rest (n : nat) s x w :
  Signal_emit code n s x w =
    match get_signal s w with
    | Some sg => emit_rest code n s x (m_slots sg) (record (EvEmit s x) w)
    | None => Fault
    end.
Proof. reflexivity. Qed.

(** The loop walks through a run of observers and arrives at the next node
    with the objects as they were. *)
Lemma emit_rest_prefix (l1 : list Entry) : forall (n : nat) s sg l0 e l2 x w,
  get_signal s w = Some sg -> m_slots sg = l0 ++ l1 ++ e :: l2 -> sorted (m_slots sg) ->
  Forall (fun e => observer_slot code (fn e)) l1 ->
  exists w1, emit_rest code (length l1 + n) s x (l1 ++ e :: l2) w = emit_loop code n s e x w1 /\
             same_objects w w1 /\ trace w1 = trace w ++ calls s x l1.
Proof.
  induction l1 as [|c l1 IH]; intros n s sg l0 e l2 x w Hsg Hl Hsorted Hall.
  - exists w. cbn [emit_rest app length calls List.map]. rewrite app_nil_r.
    repeat split; reflexivity.
  - inversion Hall as [|? ? Hc Hrest]; subst.
    cbn [app length Nat.add emit_rest].
    rewrite (emit_loop_keeps _ s sg l0 (l1 ++ e :: l2) c x w Hsg Hl Hsorted
               (observer_keeps s _ Hc)).
    destruct Hc as (f & Hf & Hobs). rewrite Hf. cbn [invoke].
    destruct (Hobs (Signal_emit code (length l1 + n)) x (record (EvCall s (key c) x) w))
      as (w1 & Hcode & Hsame & Htr).
    rewrite Hcode. cbn [bind].
    assert (same_objects w w1) as Hsame1.
    { eapply same_objects_trans; [apply (same_objects_record (EvCall s (key c) x))|eassumption]. }
    assert (get_signal s w1 = Some sg) as Hsg1 by now rewrite (get_signal_same s w).
    destruct (IH n s sg (l0 ++ [c]) e l2 x w1 Hsg1) as (w2 & Hrun & Hsame2 & Htr2);
      [now rewrite <- app_assoc|assumption..|].
    exists w2. split; [|split].
    + rewrite <- Hrun. destruct l1; reflexivity.
    + eapply same_objects_trans; eassumption.
    + rewrite Htr2, Htr. cbn [record trace calls List.map]. now rewrite <- app_assoc.
Qed.

Lemma emit_rest_quiet (l2 : list Entry) (n : nat) s sg l0 x w :
  get_signal s w = Some sg -> m_slots sg = l0 ++ l2 -> sorted (m_slots sg) ->
  Forall (fun e => observer_slot code (fn e)) l2 -> length l2 <= n ->
  exists w', emit_rest code n s x l2 w = Done w' /\ same_objects w w' /\
             trace w' = trace w ++ calls s x l2.
Proof.
  intros Hsg Hl Hsorted Hall Hn. destruct l2 as [|cur l2].
  - exists w. cbn [emit_rest calls List.map]. rewrite app_nil_r.
    repeat split; reflexivity.
  - cbn [emit_rest]. now apply (emit_loop_quiet l2 n s sg l0).
Qed.

(** ** Reading and writing a signal in the store *)

Lemma get_put_signal s sg sg' w :
  get_signal s w = Some sg -> get_signal s (put_signal s sg' w) = Some sg'.
Proof.
  destruct s as [a|p|p]; cbn [get_signal put_signal]; intros Hg.
  - cbn [with_signals signals]. now rewrite lookup_insert_eq.
  - destruct (props w !! p) as [P|] eqn:HP; [|discriminate].
    cbn [put_prop with_props props]. now rewrite lookup_insert_eq.
  - destruct (props w !! p) as [P|] eqn:HP; [|discriminate].
    cbn [put_prop with_props props]. now rewrite lookup_insert_eq.
Qed.

Lemma trace_put_signal s sg w : trace (put_signal s sg w) = trace w.
Proof.
  destruct s as [a|p|p]; cbn [put_signal]; [reflexivity| |];
    now destruct (props w !! p).
Qed.

Lemma Forall_number_from (P : Slot -> Prop) (cs : list Slot) : forall id nd,
  Forall P cs -> Forall (fun e => P (fn e)) (number_from id nd cs).
Proof.
  induction cs as [|c cs IH]; intros id nd Hall; cbn [number_from]; [constructor|].
  inversion Hall; subst. constructor; [assumption|now apply IH].
Qed.

Lemma length_number_from (cs : list Slot) : forall id nd,
  length (number_from id nd cs) = length cs.
Proof.
  induction cs as [|c cs IH]; intros id nd; cbn [number_from length]; [reflexivity|].
  now rewrite IH.
Qed.

(** [connect] on a signal of the store whose counter has room. *)
Lemma connect_at_ok s sg (c : Slot) w :
  get_signal s w = Some sg -> Signal_ok sg -> (m_id sg < SIZE_MAX)%Z ->
  exists sg1,
    connect_at s c w = Done (put_signal s sg1 w, (m_id sg + 1)%Z) /\
    get_signal s (put_signal s sg1 w) = Some sg1 /\
    m_slots sg1 = m_slots sg ++ [{| key := m_id sg + 1; node := m_nodes sg; fn := c |}] /\
    m_id sg1 = (m_id sg + 1)%Z /\ m_nodes sg1 = S (m_nodes sg) /\ Signal_ok sg1.
Proof.
  intros Hsg Hok Hroom.
  destruct (Signal_connect_ok c sg Hok Hroom) as (Hid & Hslots & Hm & Hok1).
  exists (fst (Signal_connect c sg)). unfold connect_at. rewrite Hsg.
  destruct (Signal_connect c sg) as [sg1 id1] eqn:Hc. cbn [fst snd] in *. subst id1.
  split; [reflexivity|]. split; [eapply get_put_signal; eassumption|].
  split; [assumption|]. split; [assumption|]. split; [|assumption].
  unfold Signal_connect in Hc. injection Hc as <-. reflexivity.
Qed.

Lemma connect_all_table (cs : list Slot) : forall s sg w,
  get_signal s w = Some sg -> Signal_ok sg ->
  (m_id sg + Z.of_nat (length cs) <= SIZE_MAX)%Z ->
  exists w1 sg1,
    connect_all s cs w = Done w1 /\ get_signal s w1 = Some sg1 /\
    m_slots sg1 = m_slots sg ++ number_from (m_id sg) (m_nodes sg) cs /\
    Signal_ok sg1 /\ trace w1 = trace w.
Proof.
  induction cs as [|c cs IH]; intros s sg w Hsg Hok Hroom.
  - exists w, sg. cbn [connect_all number_from]. rewrite app_nil_r. auto.
  - cbn [length] in Hroom.
    destruct (connect_at_ok s sg c w Hsg Hok ltac:(lia))
      as (sg1 & Hc & Hsg1 & Hslots & Hm & Hn & Hok1).
    destruct (IH s sg1 _ Hsg1 Hok1 ltac:(lia)) as (w2 & sg2 & Hrun & Hsg2 & Hslots2 & Hok2 & Htr).
    exists w2, sg2. cbn [connect_all]. rewrite Hc. cbn [bind fst].
    split; [assumption|]. split; [assumption|]. split; [|split; [assumption|]].
    + rewrite Hslots2, Hslots, Hm, Hn. cbn [number_from]. now rewrite <- app_assoc.
    + now rewrite Htr, trace_put_signal.
Qed.

Lemma quiet_disconnect (id : Z) sg : quiet code sg -> quiet code (Signal_disconnect id sg).
Proof.
  intros [Hs Hall]. split; cbn [Signal_disconnect m_slots].
  - now apply sorted_erase.
  - unfold map_erase. rewrite List.Forall_forall in *. intros e He.
    apply List.filter_In in He. apply Hall. tauto.
Qed.

(** ** Dispatch order *)

(** [connect(c1); ...; connect(cn)] on any signal whose counter has room,
    then [emit(x)], no call of it changing the table: the slots that were
    there are called first, then [c1 .. cn], in that order. *)
Lemma emit_after_connects (cs : list Slot) s sg x w (n : nat) :
  get_signal s w = Some sg -> Signal_ok sg ->
  (m_id sg + Z.of_nat (length cs) <= SIZE_MAX)%Z ->
  exists w1,
    connect_all s cs w = Done w1 /\ trace w1 = trace w /\
    m_slots <$> get_signal s w1 =
      Some (m_slots sg ++ number_from (m_id sg) (m_nodes sg) cs) /\
    (table_kept code n s x (m_slots sg ++ number_from (m_id sg) (m_nodes sg) cs)
       (record (EvEmit s x) w1) ->
     Signal_emit code n s x w1 =
       call_seq code n s x (m_slots sg ++ number_from (m_id sg) (m_nodes sg) cs)
         (record (EvEmit s x) w1)).
Proof.
  intros Hsg Hok Hroom.
  destruct (connect_all_table cs s sg w Hsg Hok Hroom)
    as (w1 & sg1 & Hrun & Hsg1 & Hslots & Hok1 & Htr).
  exists w1. split; [assumption|]. split; [assumption|].
  split; [now rewrite Hsg1, <- Hslots|].
  rewrite Signal_emit_rest, Hsg1, Hslots.
  destruct (m_slots sg ++ number_from (m_id sg) (m_nodes sg) cs) as [|e l2] eqn:Hall.
  - reflexivity.
  - intros Hkept. cbn [emit_rest]. apply (emit_loop_kept l2 n s sg1 []).
    + now rewrite (get_signal_same s w1) by apply same_objects_record.
    + exact Hslots.
    + apply Hok1.
    + exact Hkept.
Qed.

Lemma keys_number_from (cs : list Slot) : forall (k nd : nat),
  keys (number_from (Z.of_nat k) nd cs) = List.map Z.of_nat (seq (S k) (length cs)).
Proof.
  induction cs as [|c cs IH]; intros k nd; [reflexivity|].
  cbn [number_from keys List.map key length seq]. f_equal; [lia|].
  replace (Z.of_nat k + 1)%Z with (Z.of_nat (S k)) by lia. apply IH.
Qed.

(** C6. [connect(c1); ...; connect(cn)] on a new signal, then [emit(x)]
    during which no call changes the table of that signal: [emit] is
    [c1(x); ...; cn(x)], each slot called once, in the order of the ids
    1..n that [connect] gave them, and [emit] returns what the last call
    leaves, so not before every call has returned. The slots may do
    anything else: set properties, emit other signals, emit this one.
    Slots that keep the table in every store meet the condition. With
    slots that only observe and fuel for n calls [emit] returns, and the
    calls it made are exactly those of ids 1..n in that order. *)
Theorem emit_calls_in_connection_order (cs : list Slot) s x w (n : nat) :
  get_signal s w = Some Signal_new ->
  (Z.of_nat (length cs) <= SIZE_MAX)%Z ->
  exists w1,
    connect_all s cs w = Done w1 /\
    m_slots <$> get_signal s w1 = Some (number_from 0 0 cs) /\
    keys (number_from 0 0 cs) = List.map Z.of_nat (seq 1 (length cs)) /\
    (table_kept code n s x (number_from 0 0 cs) (record (EvEmit s x) w1) ->
     Signal_emit code n s x w1 =
       call_seq code n s x (number_from 0 0 cs) (record (EvEmit s x) w1)) /\
    (Forall (keeps_table code s) cs ->
     table_kept code n s x (number_from 0 0 cs) (record (EvEmit s x) w1)) /\
    (Forall (observer_slot code) cs -> length cs <= n ->
     exists w', Signal_emit code n s x w1 = Done w' /\ same_objects w1 w' /\
                trace w' = trace w1 ++ EvEmit s x :: calls s x (number_from 0 0 cs)).
Proof.
  intros Hsg Hroom.
  destruct (emit_after_connects cs s Signal_new x w n Hsg Signal_new_ok Hroom)
    as (w1 & Hrun & _ & Hslots & Hemit).
  cbn [Signal_new m_slots m_id m_nodes app] in Hslots, Hemit.
  assert (Forall (keeps_table code s) cs ->
          table_kept code n s x (number_from 0 0 cs) (record (EvEmit s x) w1)) as Hkeeps.
  { intros Hkeep. apply keeps_table_kept. now apply Forall_number_from. }
  exists w1. split; [assumption|]. split; [assumption|].
  split; [apply (keys_number_from cs 0 0)|]. split; [assumption|].
  split; [exact Hkeeps|].
  intros Hobs Hn. rewrite Hemit.
  2:{ apply Hkeeps. eapply List.Forall_impl; [|exact Hobs]. intros c. apply observer_keeps. }
  destruct (call_seq_observers (number_from 0 0 cs) n s x (record (EvEmit s x) w1))
    as (w' & Hcalls & Hsame & Htr).
  - now apply Forall_number_from.
  - now rewrite length_number_from.
  - exists w'. split; [assumption|]. split.
    + eapply same_objects_trans; [apply (same_objects_record (EvEmit s x))|eassumption].
    + rewrite Htr. cbn [record trace]. now rewrite <- app_assoc.
Qed.

(** C8. [disconnect(id)] erases the entry of key [id] and no other; with an
    id that is not in the table it leaves the signal as it is, and so does
    a second [disconnect(id)]; an [emit] after it calls the slots that are
    left, in order, and no other. *)
Theorem disconnect_removes_exactly (id : Z) sg :
  (forall k, map_find k (m_slots (Signal_disconnect id sg)) =
             if (k =? id)%Z then None else map_find k (m_slots sg)) /\
  (map_find id (m_slots sg) = None -> Signal_disconnect id sg = sg) /\
  Signal_disconnect id (Signal_disconnect id sg) = Signal_disconnect id sg /\
  (forall s x w (n : nat),
     get_signal s w = Some sg -> quiet code sg -> length (m_slots sg) <= n ->
     exists w1 w',
       disconnect_at s id w = Done w1 /\
       get_signal s w1 = Some (Signal_disconnect id sg) /\
       Signal_emit code n s x w1 = Done w' /\
       trace w' = trace w ++ EvEmit s x :: calls s x (map_erase id (m_slots sg))).
Proof.
  split; [|split; [|split]].
  - intros k. apply map_find_erase.
  - intros Habs. destruct sg as [l i nd]. unfold Signal_disconnect. cbn [m_slots m_id m_nodes] in *.
    now rewrite map_erase_absent.
  - unfold Signal_disconnect. cbn [m_slots m_id m_nodes]. now rewrite map_erase_idem.
  - intros s x w n Hsg Hq Hn.
    exists (put_signal s (Signal_disconnect id sg) w).
    assert (get_signal s (put_signal s (Signal_disconnect id sg) w) =
            Some (Signal_disconnect id sg)) as Hsg1 by (eapply get_put_signal; eassumption).
    destruct (emit_quiet n s _ x _ Hsg1 (quiet_disconnect id sg Hq)) as (w' & Hrun & _ & Htr).
    { cbn [Signal_disconnect m_slots]. unfold map_erase.
      etransitivity; [apply List.filter_length_le|exact Hn]. }
    exists w'. unfold disconnect_at. rewrite Hsg.
    split; [reflexivity|]. split; [assumption|]. split; [assumption|].
    now rewrite Htr, trace_put_signal.
Qed.

(** C1 (amended). [emit] walks the live table. When one of the slots is a
    callable whose body is [connect(c)] on the signal being emitted, the
    counter has room and the other slots observe, the node of [c] is
    appended with the next id and the same [emit] calls it, after the
    slots that were there at entry. *)
Theorem emit_reaches_new_slot s sg (l1 l2 : list Entry) (e : Entry) (f : nat) (c : Slot)
    x w (n : nat) :
  get_signal s w = Some sg -> Signal_ok sg -> (m_id sg < SIZE_MAX)%Z ->
  m_slots sg = l1 ++ e :: l2 -> fn e = UserFn f -> connector code f s c ->
  Forall (fun e => observer_slot code (fn e)) (l1 ++ l2) -> observer_slot code c ->
  length (m_slots sg) < n ->
  exists w',
    Signal_emit code n s x w = Done w' /\
    trace w' = trace w ++ EvEmit s x :: calls s x (m_slots sg)
                       ++ [EvCall s (m_id sg + 1) x] /\
    m_slots <$> get_signal s w' =
      Some (m_slots sg ++ [{| key := m_id sg + 1; node := m_nodes sg; fn := c |}]).
Proof.
  intros Hsg Hok Hroom Hl He Hconn Hobs Hc Hn.
  apply List.Forall_app in Hobs as [Hobs1 Hobs2].
  pose proof Hok as (Hsorted & _ & _).
  set (new := {| key := m_id sg + 1; node := m_nodes sg; fn := c |}).
  rewrite Hl, length_app in Hn. cbn [length] in Hn.
  rewrite Signal_emit_rest, Hsg, Hl.
  assert (get_signal s (record (EvEmit s x) w) = Some sg) as Hsg0.
  { now rewrite (get_signal_same s w) by apply same_objects_record. }
  (* the observers before e *)
  replace n with (length l1 + (n - length l1)) by lia.
  destruct (emit_rest_prefix l1 (n - length l1) s sg [] e l2 x _ Hsg0 Hl Hsorted Hobs1)
    as (w1 & Hrun1 & Hsame1 & Htr1).
  rewrite Hrun1. clear Hrun1.
  assert (get_signal s w1 = Some sg) as Hsg1 by now rewrite (get_signal_same s _ w1 Hsame1).
  (* e connects c *)
  destruct (n - length l1) as [|m] eqn:Hm; [lia|].
  rewrite emit_loop_S, He. cbn [invoke]. rewrite Hconn.
  assert (get_signal s (record (EvCall s (key e) x) w1) = Some sg) as Hsg1'.
  { now rewrite (get_signal_same s w1) by apply same_objects_record. }
  destruct (connect_at_ok s sg c _ Hsg1' Hok Hroom)
    as (sg2 & Hc2 & Hsg2 & Hslots2 & _ & _ & Hok2).
  rewrite Hc2. cbn [bind fst]. rewrite Hsg2.
  fold new in Hslots2. rewrite Hl, <- app_assoc in Hslots2. cbn [app] in Hslots2.
  rewrite node_alive_In by (rewrite Hslots2; apply in_or_app; right; now left).
  unfold next_entry. rewrite Hslots2.
  rewrite next_entry_split by (rewrite <- Hslots2; apply Hok2).
  (* the observers after e, and the new one *)
  destruct (l2 ++ [new]) as [|e' l3] eqn:Hl3; [now destruct l2|]. cbn [head].
  destruct (emit_loop_quiet l3 m s sg2 (l1 ++ [e]) e' x _ Hsg2) as (w' & Hrun & Hsame & Htr).
  - rewrite Hslots2, <- Hl3, <- app_assoc. reflexivity.
  - apply Hok2.
  - rewrite <- Hl3. apply List.Forall_app. split; [assumption|]. now repeat constructor.
  - rewrite <- Hl3, length_app. cbn [length]. lia.
  - exists w'. split; [assumption|]. split.
    + rewrite Htr, trace_put_signal. cbn [record trace]. rewrite Htr1. cbn [record trace].
      rewrite <- Hl3. unfold calls. rewrite !List.map_app. cbn [List.map].
      rewrite <- !app_assoc. cbn [app]. reflexivity.
    + rewrite (get_signal_same s _ w' Hsame), Hsg2. cbn [fmap option_fmap option_map].
      rewrite Hslots2, <- Hl3, <- app_assoc. reflexivity.
Qed.

Lemma map_erase_app (k : Z) (l1 l2 : list Entry) :
  map_erase k (l1 ++ l2) = map_erase k l1 ++ map_erase k l2.
Proof. unfold map_erase. apply List.filter_app. Qed.

Lemma node_alive_erased (e : Entry) sg :
  node_alive e (Signal_disconnect (key e) sg) = false.
Proof.
  unfold node_alive, Signal_disconnect, map_erase. cbn [m_slots].
  induction (m_slots sg) as [|h t IH]; cbn [List.filter]; [reflexivity|].
  destruct (Z.eqb_spec (key h) (key e)) as [Hk|Hk]; cbn [negb]; [exact IH|].
  cbn [List.existsb]. rewrite IH.
  destruct (Z.eqb_spec (key h) (key e)); [contradiction|reflexivity].
Qed.

(** C2. One of the slots is a callable whose body is [disconnect(k)] on the
    signal being emitted, the others observe. With [k] its own id the call
    returns and the increment of the loop then goes through the erased
    node: [emit] does not complete. With any other [k] the [emit] completes:
    it calls the slots before, the slot itself, and of those after it the
    ones that are left. *)
Theorem emit_self_disconnect_faults s sg (l1 l2 : list Entry) (e : Entry) (f : nat) (k : Z)
    x w (n : nat) :
  get_signal s w = Some sg -> sorted (m_slots sg) ->
  m_slots sg = l1 ++ e :: l2 -> fn e = UserFn f -> disconnector code f s k ->
  Forall (fun e => observer_slot code (fn e)) (l1 ++ l2) ->
  length (m_slots sg) <= n ->
  (k = key e -> Signal_emit code n s x w = Fault) /\
  (k <> key e ->
   exists w',
     Signal_emit code n s x w = Done w' /\
     trace w' = trace w ++ EvEmit s x :: calls s x (l1 ++ e :: map_erase k l2) /\
     get_signal s w' = Some (Signal_disconnect k sg)).
Proof.
  intros Hsg Hsorted Hl He Hdis Hobs Hn.
  apply List.Forall_app in Hobs as [Hobs1 Hobs2].
  pose proof Hn as Hn'. rewrite Hl, length_app in Hn'. cbn [length] in Hn'.
  assert (get_signal s (record (EvEmit s x) w) = Some sg) as Hsg0.
  { now rewrite (get_signal_same s w) by apply same_objects_record. }
  (* up to the call of e, both cases go the same way *)
  assert (exists m w1,
    Signal_emit code n s x w =
      (match get_signal s (put_signal s (Signal_disconnect k sg)
                             (record (EvCall s (key e) x) w1)) with
       | Some sg1 =>
           if node_alive e sg1 then
             match next_entry (key e) sg1 with
             | Some e' => emit_loop code m s e' x
                            (put_signal s (Signal_disconnect k sg)
                               (record (EvCall s (key e) x) w1))
             | None => Done (put_signal s (Signal_disconnect k sg)
                               (record (EvCall s (key e) x) w1))
             end
           else Fault
       | None => Fault
       end) /\
    length l2 <= m /\ get_signal s w1 = Some sg /\
    trace w1 = trace w ++ EvEmit s x :: calls s x l1) as (m & w1 & Hrun & Hm & Hsg1 & Htr1).
  { destruct (emit_rest_prefix l1 (n - length l1) s sg [] e l2 x _ Hsg0 Hl Hsorted Hobs1)
      as (w1 & Hrun1 & Hsame1 & Htr1).
    destruct (n - length l1) as [|m] eqn:Hnm; [lia|].
    exists m, w1. split; [|split; [lia|split]].
    - rewrite Signal_emit_rest, Hsg, Hl.
      replace n with (length l1 + S m) by lia. rewrite Hrun1.
      rewrite emit_loop_S, He. cbn [invoke]. rewrite Hdis. unfold disconnect_at.
      rewrite (get_signal_same s w1) by apply same_objects_record.
      rewrite (get_signal_same s _ w1 Hsame1), Hsg0. reflexivity.
    - now rewrite (get_signal_same s _ w1 Hsame1).
    - rewrite Htr1. cbn [record trace]. now rewrite <- app_assoc. }
  assert (get_signal s (put_signal s (Signal_disconnect k sg)
                          (record (EvCall s (key e) x) w1)) = Some (Signal_disconnect k sg))
    as Hsg2.
  { apply (get_put_signal s sg).
    now rewrite (get_signal_same s w1) by apply same_objects_record. }
  rewrite Hsg2 in Hrun. split.
  - intros ->. rewrite Hrun. now rewrite node_alive_erased.
  - intros Hk.
    assert (m_slots (Signal_disconnect k sg) = map_erase k l1 ++ e :: map_erase k l2) as Hl2.
    { cbn [Signal_disconnect m_slots]. rewrite Hl, map_erase_app. f_equal.
      unfold map_erase at 1. cbn [List.filter].
      destruct (Z.eqb_spec (key e) k); [congruence|reflexivity]. }
    assert (sorted (m_slots (Signal_disconnect k sg))) as Hsorted2
      by (apply sorted_erase; exact Hsorted).
    rewrite node_alive_In in Hrun by (rewrite Hl2; apply in_or_app; right; now left).
    unfold next_entry in Hrun. rewrite Hl2 in Hrun.
    rewrite next_entry_split in Hrun by (rewrite <- Hl2; exact Hsorted2).
    destruct (emit_rest_quiet (map_erase k l2) m s (Signal_disconnect k sg)
                (map_erase k l1 ++ [e]) x _ Hsg2) as (w' & Hrest & Hsame & Htr).
    + now rewrite Hl2, <- app_assoc.
    + exact Hsorted2.
    + unfold map_erase. rewrite List.Forall_forall in *. intros y Hy.
      apply List.filter_In in Hy. apply Hobs2. tauto.
    + unfold map_erase. etransitivity; [apply List.filter_length_le|exact Hm].
    + exists w'. split; [|split].
      * rewrite Hrun, <- Hrest. destruct (map_erase k l2); reflexivity.
      * rewrite Htr, trace_put_signal. cbn [record trace]. rewrite Htr1.
        unfold calls. rewrite List.map_app. cbn [List.map].
        rewrite <- !app_assoc. reflexivity.
      * now rewrite (get_signal_same s _ w' Hsame).
Qed.

(** ** Counting emissions *)

Lemma fired_app s (tr1 tr2 : list (@Event T)) :
  fired s (tr1 ++ tr2) = fired s tr1 + fired s tr2.
Proof. unfold fired. now rewrite List.filter_app, length_app. Qed.

Lemma fired_calls s s' x (es : list Entry) : fired s (calls s' x es) = 0.
Proof. induction es as [|e es IH]; [reflexivity|exact IH]. Qed.

Lemma fired_emit_same s x (tr : list (@Event T)) :
  fired s (EvEmit s x :: tr) = S (fired s tr).
Proof. unfold fired. cbn [List.filter]. now rewrite bool_decide_eq_true_2. Qed.

Lemma fired_emit_other s s' x (tr : list (@Event T)) :
  s' <> s -> fired s (EvEmit s' x :: tr) = fired s tr.
Proof. intros Hne. unfold fired. cbn [List.filter]. now rewrite bool_decide_eq_false_2. Qed.

(** ** Properties in the store *)

Lemma same_objects_prop (p : nat) w w' :
  same_objects w w' -> props w' !! p = props w !! p.
Proof. intros [-> _]. reflexivity. Qed.

Lemma same_objects_deref (r : Ref) w w' :
  same_objects w w' -> deref r w' = deref r w.
Proof. intros [Hp _]. destruct r; cbn [deref]; now rewrite ?Hp. Qed.

Lemma with_value_id (P : @Property T) : with_value (m_value P) P = P.
Proof. now destruct P. Qed.

(** [set] on a property whose two tables hold observers: both signals are
    emitted once, around the store, and nothing else in the store moves. *)
Lemma set_quiet (this : nat) (value : Ref) (v : T) w (P : Property) (n : nat) :
  props w !! this = Some P -> deref value w = Some v -> v <> m_value P ->
  quiet code (m_prior_to_change P) -> quiet code (m_on_change P) ->
  length (m_slots (m_prior_to_change P)) <= n ->
  length (m_slots (m_on_change P)) <= n ->
  exists w',
    Property_set (Signal_emit code n) this value w = Done w' /\
    props w' = <[this := with_value v P]> (props w) /\
    signals w' = signals w /\
    trace w' = trace w
      ++ (EvEmit (PriorToChange this) (m_value P)
            :: calls (PriorToChange this) (m_value P) (m_slots (m_prior_to_change P)))
      ++ (EvEmit (OnChange this) v :: calls (OnChange this) v (m_slots (m_on_change P))).
Proof.
  intros HP Hv Hne Hq1 Hq2 Hn1 Hn2. unfold Property_set. rewrite HP, Hv.
  rewrite bool_decide_eq_false_2 by assumption.
  destruct (emit_quiet n (PriorToChange this) (m_prior_to_change P) (m_value P) w)
    as (w1 & Hrun1 & Hsame1 & Htr1); try assumption.
  { cbn [get_signal]. now rewrite HP. }
  rewrite Hrun1. cbn [bind].
  rewrite (same_objects_prop this w w1 Hsame1), HP, (same_objects_deref value w w1 Hsame1), Hv.
  destruct (emit_quiet n (OnChange this) (m_on_change P) v
              (put_prop this (with_value v P) w1))
    as (w' & Hrun2 & Hsame2 & Htr2); try assumption.
  { cbn [get_signal put_prop with_props props]. now rewrite lookup_insert_eq. }
  exists w'. split; [assumption|]. destruct Hsame1 as [Hp1 Hs1], Hsame2 as [Hp2 Hs2].
  split; [|split].
  - rewrite Hp2. cbn [put_prop with_props props]. now rewrite Hp1.
  - rewrite Hs2. cbn [put_prop with_props signals]. exact Hs1.
  - rewrite Htr2. cbn [put_prop with_props trace]. rewrite Htr1.
    now rewrite <- app_assoc.
Qed.

(** ** Writes *)

(** C4. [set(v)] with [v] equal to the held value returns at once and leaves
    the store, trace included, as it was: the outcome is the same whatever
    [emit] would do (even an [emit] that faults), so no signal is emitted,
    and [get()] reads what it read before. *)
Theorem set_equal_is_silent (em : @Emitter T U) (this : nat) (value : Ref) w (P : Property) :
  props w !! this = Some P -> deref value w = Some (m_value P) ->
  Property_set em this value w = Done w /\
  Property_set (fun _ _ _ => Fault) this value w = Done w /\
  forall w', Property_set em this value w = Done w' ->
    trace w' = trace w /\ Property_get this w' = Property_get this w.
Proof.
  intros HP Hv.
  assert (forall em', Property_set em' this value w = Done w) as Hset.
  { intros em'. unfold Property_set. rewrite HP, Hv.
    now rewrite bool_decide_eq_true_2. }
  split; [apply Hset|]. split; [apply Hset|].
  intros w' Hw'. rewrite Hset in Hw'. injection Hw' as <-. now split.
Qed.

(** C5. [set(v)] with [v] different from the held value. Whatever the slots
    do, [set] is: emit [m_prior_to_change] with the old value, store, emit
    [m_on_change] with the stored value, one call each, in that order. With
    both tables holding observers, [m_prior_to_change] is emitted once with
    the old value while the property still holds it, then the value is
    stored, then [m_on_change] is emitted once with the new value, and
    [set] returns. *)
Theorem set_changed_fires_in_order (this : nat) (value : Ref) (v : T) w (P : Property)
    (n : nat) :
  props w !! this = Some P -> deref value w = Some v -> v <> m_value P ->
  quiet code (m_prior_to_change P) -> quiet code (m_on_change P) ->
  length (m_slots (m_prior_to_change P)) <= n ->
  length (m_slots (m_on_change P)) <= n ->
  (forall em : Emitter,
     Property_set em this value w =
       do w1 <- em (PriorToChange this) (m_value P) w ;
       match props w1 !! this, deref value w1 with
       | Some P1, Some v1 => em (OnChange this) v1 (put_prop this (with_value v1 P1) w1)
       | _, _ => Fault
       end) /\
  exists w1 w' tr1 tr2,
    Signal_emit code n (PriorToChange this) (m_value P) w = Done w1 /\
    trace w1 = trace w ++ tr1 /\
    tr1 = EvEmit (PriorToChange this) (m_value P)
            :: calls (PriorToChange this) (m_value P) (m_slots (m_prior_to_change P)) /\
    Property_get this w1 = Some (m_value P) /\
    Property_get this (put_prop this (with_value v P) w1) = Some v /\
    Signal_emit code n (OnChange this) v (put_prop this (with_value v P) w1) = Done w' /\
    trace w' = trace w1 ++ tr2 /\
    tr2 = EvEmit (OnChange this) v :: calls (OnChange this) v (m_slots (m_on_change P)) /\
    Property_set (Signal_emit code n) this value w = Done w' /\
    Property_get this w' = Some v /\
    fired (PriorToChange this) (tr1 ++ tr2) = 1 /\
    fired (OnChange this) (tr1 ++ tr2) = 1.
Proof.
  intros HP Hv Hne Hq1 Hq2 Hn1 Hn2.
  destruct (emit_quiet n (PriorToChange this) (m_prior_to_change P) (m_value P) w)
    as (w1 & Hrun1 & Hsame1 & Htr1); try assumption.
  { cbn [get_signal]. now rewrite HP. }
  destruct (emit_quiet n (OnChange this) (m_on_change P) v
              (put_prop this (with_value v P) w1))
    as (w' & Hrun2 & Hsame2 & Htr2); try assumption.
  { cbn [get_signal put_prop with_props props]. now rewrite lookup_insert_eq. }
  split.
  { intros em. unfold Property_set. rewrite HP, Hv.
    now rewrite bool_decide_eq_false_2 by assumption. }
  exists w1, w'. eexists. eexists.
  split; [exact Hrun1|]. split; [exact Htr1|]. split; [reflexivity|].
  split. { unfold Property_get. now rewrite (same_objects_prop this w w1 Hsame1), HP. }
  split. { unfold Property_get. cbn [put_prop with_props props]. now rewrite lookup_insert_eq. }
  split; [exact Hrun2|]. split; [exact Htr2|]. split; [reflexivity|].
  split.
  { unfold Property_set. rewrite HP, Hv. rewrite bool_decide_eq_false_2 by assumption.
    rewrite Hrun1. cbn [bind].
    now rewrite (same_objects_prop this w w1 Hsame1), HP,
      (same_objects_deref value w w1 Hsame1), Hv. }
  split.
  { unfold Property_get. rewrite (same_objects_prop this _ w' Hsame2).
    cbn [put_prop with_props props]. now rewrite lookup_insert_eq. }
  split.
  - rewrite fired_app, fired_emit_same, fired_calls, fired_emit_other, fired_calls;
      [reflexivity|discriminate].
  - rewrite fired_app, fired_emit_other, fired_calls, fired_emit_same, fired_calls;
      [reflexivity|discriminate].
Qed.

(** ** Bindings *)

(** [emit(x)] on the [m_on_change] of a source whose table holds the
    forwarding slot of [A] among observers: [A] ends up holding [x], and its
    own two signals are emitted once each, unless it held [x] already. *)
Lemma emit_forward (A B : nat) (PA : Property) sg (l1 l2 : list Entry) (e : Entry)
    x w (n : nat) :
  A <> B -> props w !! A = Some PA -> get_signal (OnChange B) w = Some sg ->
  m_slots sg = l1 ++ e :: l2 -> fn e = SetFrom A -> sorted (m_slots sg) ->
  Forall (fun e => observer_slot code (fn e)) (l1 ++ l2) ->
  quiet code (m_on_change PA) -> quiet code (m_prior_to_change PA) ->
  length (m_slots sg) + length (m_slots (m_on_change PA))
    + length (m_slots (m_prior_to_change PA)) <= n ->
  exists w' tr,
    Signal_emit code n (OnChange B) x w = Done w' /\
    props w' = <[A := with_value x PA]> (props w) /\
    signals w' = signals w /\
    trace w' = trace w ++ tr /\
    fired (OnChange A) tr = (if bool_decide (x = m_value PA) then 0 else 1) /\
    fired (PriorToChange A) tr = (if bool_decide (x = m_value PA) then 0 else 1).
Proof.
  intros HAB HPA Hsg Hl He Hsorted Hobs HqA1 HqA2 Hn.
  apply List.Forall_app in Hobs as [Hobs1 Hobs2].
  rewrite Hl, length_app in Hn. cbn [length] in Hn.
  rewrite Signal_emit_rest, Hsg, Hl.
  assert (get_signal (OnChange B) (record (EvEmit (OnChange B) x) w) = Some sg) as Hsg0.
  { now rewrite (get_signal_same _ w) by apply same_objects_record. }
  replace n with (length l1 + (n - length l1)) by lia.
  destruct (emit_rest_prefix l1 (n - length l1) _ sg [] e l2 x _ Hsg0 Hl Hsorted Hobs1)
    as (w1 & Hrun1 & Hsame1 & Htr1).
  rewrite Hrun1. clear Hrun1.
  destruct (n - length l1) as [|m] eqn:Hm; [lia|].
  rewrite emit_loop_S, He. cbn [invoke].
  set (w1c := record (EvCall (OnChange B) (key e) x) w1).
  assert (same_objects w w1c) as Hsame1c.
  { eapply same_objects_trans; [apply (same_objects_record (EvEmit (OnChange B) x))|].
    eapply same_objects_trans; [eassumption|apply same_objects_record]. }
  (* the forwarding slot: A.set(x) *)
  assert (exists w2 tr2,
    Property_set (Signal_emit code m) A (ByValue x) w1c = Done w2 /\
    props w2 = <[A := with_value x PA]> (props w) /\ signals w2 = signals w /\
    trace w2 = trace w1c ++ tr2 /\
    fired (OnChange A) tr2 = (if bool_decide (x = m_value PA) then 0 else 1) /\
    fired (PriorToChange A) tr2 = (if bool_decide (x = m_value PA) then 0 else 1))
    as (w2 & tr2 & Hset & Hp2 & Hs2 & Htr2 & Hf1 & Hf2).
  { pose proof (same_objects_prop A w w1c Hsame1c) as HA1. rewrite HPA in HA1.
    destruct (decide (x = m_value PA)) as [Heq|Hne].
    - exists w1c, []. unfold Property_set. rewrite HA1. cbn [deref].
      rewrite !bool_decide_eq_true_2 by assumption.
      destruct Hsame1c as [Hp Hs]. rewrite Hp, Hs, app_nil_r.
      repeat split; try reflexivity.
      rewrite Heq, with_value_id. symmetry. now apply insert_id.
    - destruct (set_quiet A (ByValue x) x w1c PA m HA1 eq_refl Hne HqA2 HqA1)
        as (w2 & Hset & Hp2 & Hs2 & Htr2); [lia..|].
      eexists w2, _. rewrite !bool_decide_eq_false_2 by assumption.
      destruct Hsame1c as [Hp Hs]. rewrite Hp in Hp2. rewrite Hs in Hs2.
      split; [exact Hset|]. split; [exact Hp2|]. split; [exact Hs2|].
      split; [exact Htr2|]. split.
      + rewrite fired_app, fired_emit_other, fired_calls, fired_emit_same, fired_calls;
          [reflexivity|discriminate].
      + rewrite fired_app, fired_emit_same, fired_calls, fired_emit_other, fired_calls;
          [reflexivity|discriminate]. }
  rewrite Hset. cbn [bind].
  assert (get_signal (OnChange B) w2 = Some sg) as Hsg2.
  { cbn [get_signal] in *. rewrite Hp2. now rewrite lookup_insert_ne. }
  rewrite Hsg2.
  rewrite node_alive_In by (rewrite Hl; apply in_or_app; right; now left).
  unfold next_entry. rewrite Hl. rewrite next_entry_split by (rewrite <- Hl; exact Hsorted).
  (* the observers after it *)
  destruct (emit_rest_quiet l2 m _ sg (l1 ++ [e]) x w2 Hsg2) as (w' & Hrun & Hsame & Htr);
    [now rewrite Hl, <- app_assoc|assumption..|lia|].
  exists w'.
  exists (EvEmit (OnChange B) x :: calls (OnChange B) x l1
            ++ calls (OnChange B) x [e] ++ tr2 ++ calls (OnChange B) x l2).
  split. { rewrite <- Hrun. destruct l2; reflexivity. }
  destruct Hsame as [Hp Hs].
  split; [now rewrite Hp|]. split; [now rewrite Hs|].
  split.
  { rewrite Htr, Htr2. subst w1c. cbn [record trace]. rewrite Htr1. cbn [record trace].
    rewrite <- !app_assoc. reflexivity. }
  assert (OnChange B <> OnChange A) as Hne1 by (intros [= ->]; now apply HAB).
  split.
  - rewrite fired_emit_other by exact Hne1.
    rewrite !fired_app, !fired_calls, Hf1. lia.
  - rewrite fired_emit_other by discriminate.
    rewrite !fired_app, !fired_calls, Hf2. lia.
Qed.

(** [B.set(v)] with a new value, [A]'s forwarding slot sitting in [B]'s
    [m_on_change] among observers. *)
Lemma set_source (A B : nat) (PA PB : Property) (l1 l2 : list Entry) (e : Entry)
    (v : T) w (n : nat) :
  A <> B -> props w !! A = Some PA -> props w !! B = Some PB ->
  m_slots (m_on_change PB) = l1 ++ e :: l2 -> fn e = SetFrom A ->
  sorted (m_slots (m_on_change PB)) ->
  Forall (fun e => observer_slot code (fn e)) (l1 ++ l2) ->
  quiet code (m_prior_to_change PB) ->
  quiet code (m_on_change PA) -> quiet code (m_prior_to_change PA) ->
  v <> m_value PB ->
  length (m_slots (m_on_change PB)) + length (m_slots (m_prior_to_change PB))
    + length (m_slots (m_on_change PA)) + length (m_slots (m_prior_to_change PA)) <= n ->
  exists w' tr,
    Property_set (Signal_emit code n) B (ByValue v) w = Done w' /\
    props w' = <[A := with_value v PA]> (<[B := with_value v PB]> (props w)) /\
    signals w' = signals w /\
    trace w' = trace w ++ tr /\
    fired (OnChange A) tr = (if bool_decide (v = m_value PA) then 0 else 1) /\
    fired (PriorToChange A) tr = (if bool_decide (v = m_value PA) then 0 else 1).
Proof.
  intros HAB HPA HPB Hl He Hsorted Hobs HqB HqA1 HqA2 Hne Hn.
  unfold Property_set. rewrite HPB. cbn [deref].
  rewrite bool_decide_eq_false_2 by assumption.
  destruct (emit_quiet n (PriorToChange B) (m_prior_to_change PB) (m_value PB) w)
    as (w1 & Hrun1 & Hsame1 & Htr1); [cbn [get_signal]; now rewrite HPB|assumption|lia|].
  rewrite Hrun1. cbn [bind]. rewrite (same_objects_prop B w w1 Hsame1), HPB.
  destruct Hsame1 as [Hp1 Hs1].
  destruct (emit_forward A B PA (m_on_change PB) l1 l2 e v
              (put_prop B (with_value v PB) w1) n HAB)
    as (w' & tr & Hrun & Hp & Hs & Htr & Hf1 & Hf2); try assumption.
  { cbn [put_prop with_props props]. rewrite lookup_insert_ne by auto. now rewrite Hp1. }
  { cbn [get_signal put_prop with_props props]. now rewrite lookup_insert_eq. }
  { lia. }
  exists w'.
  exists ((EvEmit (PriorToChange B) (m_value PB)
             :: calls (PriorToChange B) (m_value PB) (m_slots (m_prior_to_change PB))) ++ tr).
  split; [exact Hrun|]. split; [|split; [|split; [|split]]].
  - rewrite Hp. cbn [put_prop with_props props]. now rewrite Hp1.
  - rewrite Hs. cbn [put_prop with_props signals]. exact Hs1.
  - rewrite Htr. cbn [put_prop with_props trace]. rewrite Htr1. now rewrite <- app_assoc.
  - rewrite fired_app, fired_emit_other, fired_calls by discriminate. exact Hf1.
  - assert (PriorToChange B <> PriorToChange A) as Hne1 by (intros [= ->]; now apply HAB).
    rewrite fired_app, fired_emit_other, fired_calls by exact Hne1. exact Hf2.
Qed.

Lemma connect_at_eq s sg (c : Slot) w :
  get_signal s w = Some sg ->
  connect_at s c w =
    Done (put_signal s (fst (Signal_connect c sg)) w, snd (Signal_connect c sg)).
Proof.
  intros Hsg. unfold connect_at. rewrite Hsg. now destruct (Signal_connect c sg).
Qed.

(** [A.connect_from(B)] on an unbound [A]: the forwarding slot is appended
    to [B]'s [m_on_change] with the next id, [A] records [B] and that id,
    and takes [B]'s value. *)
Lemma connect_from_unbound (A B : nat) (PA PB : Property) w (n : nat) :
  A <> B -> props w !! A = Some PA -> props w !! B = Some PB ->
  m_connection PA = None ->
  Signal_ok (m_on_change PB) -> (m_id (m_on_change PB) < SIZE_MAX)%Z ->
  quiet code (m_on_change PA) -> quiet code (m_prior_to_change PA) ->
  length (m_slots (m_on_change PA)) <= n ->
  length (m_slots (m_prior_to_change PA)) <= n ->
  exists w' sgB,
    Property_connect_from (Signal_emit code n) A B w = Done w' /\
    props w' =
      <[A := with_value (m_value PB)
               (with_connection_id (m_id (m_on_change PB) + 1)
                  (with_connection (Some B) PA))]>
        (<[B := with_on_change sgB PB]> (props w)) /\
    signals w' = signals w /\
    m_slots sgB = m_slots (m_on_change PB)
                    ++ [{| key := m_id (m_on_change PB) + 1;
                           node := m_nodes (m_on_change PB); fn := SetFrom A |}] /\
    Signal_ok sgB.
Proof.
  intros HAB HPA HPB Hconn Hok Hroom HqA1 HqA2 Hn1 Hn2.
  destruct (Signal_connect_ok (SetFrom A) (m_on_change PB) Hok Hroom)
    as (Hid & Hslots & _ & Hok').
  set (sgB := fst (Signal_connect (SetFrom A) (m_on_change PB))) in *.
  set (PA2 := with_connection (Some B) PA).
  set (PA4 := with_connection_id (m_id (m_on_change PB) + 1) PA2).
  set (PB3 := with_on_change sgB PB).
  assert (exists w',
    Property_connect_from (Signal_emit code n) A B w = Done w' /\
    props w' = <[A := with_value (m_value PB) PA4]> (<[B := PB3]> (props w)) /\
    signals w' = signals w) as (w' & Hrun & Hp & Hs);
    [|exists w', sgB; now repeat (split; [assumption|])].
  unfold Property_connect_from, Property_disconnect. rewrite HPA, Hconn. cbn [bind].
  rewrite HPA. fold PA2.
  rewrite (connect_at_eq _ (m_on_change PB))
    by (cbn [get_signal put_prop with_props props];
        rewrite lookup_insert_ne by auto; now rewrite HPB).
  cbn [bind]. fold sgB. rewrite Hid.
  cbn [put_signal put_prop with_props props].
  rewrite lookup_insert_ne by auto. rewrite HPB. fold PB3.
  cbn [put_prop with_props props].
  rewrite lookup_insert_ne by auto. rewrite lookup_insert_eq. fold PA4.
  match goal with |- context [Property_set _ _ _ ?ww] => set (w4 := ww) end.
  assert (props w4 = <[A := PA4]> (<[B := PB3]> (props w))) as Hp4.
  { subst w4. cbn [put_prop with_props props]. rewrite (insert_insert_ne _ B A) by auto.
    now rewrite insert_insert_eq. }
  assert (props w4 !! A = Some PA4) as HA4 by (rewrite Hp4; apply lookup_insert_eq).
  assert (deref (ValueOf B) w4 = Some (m_value PB)) as HB4.
  { cbn [deref]. rewrite Hp4. rewrite lookup_insert_ne by auto.
    now rewrite lookup_insert_eq. }
  destruct (decide (m_value PB = m_value PA)) as [Heq|Hne].
  - exists w4. unfold Property_set. rewrite HA4, HB4.
    rewrite bool_decide_eq_true_2 by exact Heq.
    split; [reflexivity|]. split; [|reflexivity].
    rewrite Hp4. f_equal. rewrite Heq. symmetry. apply (with_value_id PA4).
  - destruct (set_quiet A (ValueOf B) (m_value PB) w4 PA4 n HA4 HB4 Hne HqA2 HqA1 Hn2 Hn1)
      as (w' & Hset & Hp & Hs & _).
    exists w'. split; [exact Hset|]. split; [|exact Hs].
    rewrite Hp, Hp4. now rewrite insert_insert_eq.
Qed.

Lemma binding_fuel_eq (A B : nat) (PA PB : Property) w :
  props w !! A = Some PA -> props w !! B = Some PB ->
  binding_fuel A B w =
    length (m_slots (m_on_change PB)) + length (m_slots (m_prior_to_change PB))
    + length (m_slots (m_on_change PA)) + length (m_slots (m_prior_to_change PA)).
Proof.
  intros HA HB. unfold binding_fuel, table_size. cbn [get_signal].
  now rewrite HA, HB.
Qed.

(** [B.touch()] with [A] bound to [B] and holding [B]'s value. *)
Lemma touch_source (A B : nat) (PA PB : Property) w (n : nat) :
  A <> B -> props w !! A = Some PA -> props w !! B = Some PB ->
  Linked code A B PA PB -> m_value PA = m_value PB ->
  binding_fuel A B w <= n ->
  exists w', Property_touch (Signal_emit code n) B w = Done w' /\ same_objects w w'.
Proof.
  intros HAB HA HB HL Hv Hn. rewrite (binding_fuel_eq A B PA PB w HA HB) in Hn.
  destruct HL as (_ & (l1 & e & l2 & Hl & _ & He & Hobs) & Hsorted & HqB & HqA1 & HqA2).
  unfold Property_touch. rewrite HB.
  destruct (emit_quiet n (PriorToChange B) (m_prior_to_change PB) (m_value PB) w)
    as (w1 & Hrun1 & Hsame1 & _); [cbn [get_signal]; now rewrite HB|assumption|lia|].
  rewrite Hrun1. cbn [bind]. rewrite (same_objects_prop B w w1 Hsame1), HB.
  destruct (emit_forward A B PA (m_on_change PB) l1 l2 e (m_value PB) w1 n HAB)
    as (w' & tr & Hrun & Hp & Hs & _); try assumption.
  { now rewrite (same_objects_prop A w w1 Hsame1). }
  { cbn [get_signal]. now rewrite (same_objects_prop B w w1 Hsame1), HB. }
  { lia. }
  exists w'. split; [exact Hrun|]. destruct Hsame1 as [Hp1 Hs1]. split.
  - rewrite Hp, Hp1, <- Hv, with_value_id. now apply insert_id.
  - now rewrite Hs.
Qed.

(** [A.connect_from(B)] on an unbound [A] among observers makes [A] bound
    to [B], holding [B]'s value. *)
Lemma connect_from_binds (A B : nat) (PA PB : Property) w (n : nat) :
  A <> B -> props w !! A = Some PA -> props w !! B = Some PB ->
  m_connection PA = None ->
  Signal_ok (m_on_change PB) -> (m_id (m_on_change PB) < SIZE_MAX)%Z ->
  quiet code (m_on_change PB) -> quiet code (m_prior_to_change PB) ->
  quiet code (m_on_change PA) -> quiet code (m_prior_to_change PA) ->
  length (m_slots (m_on_change PA)) <= n ->
  length (m_slots (m_prior_to_change PA)) <= n ->
  exists w',
    Property_connect_from (Signal_emit code n) A B w = Done w' /\
    Bound code A B w' /\ Property_get A w' = Property_get B w'.
Proof.
  intros HAB HA HB Hconn Hok Hroom HqB1 HqB2 HqA1 HqA2 Hn1 Hn2.
  destruct (connect_from_unbound A B PA PB w n HAB HA HB Hconn Hok Hroom HqA1 HqA2 Hn1 Hn2)
    as (w' & sgB & Hrun & Hp & _ & Hslots & HokB).
  exists w'. split; [exact Hrun|].
  assert (props w' !! A =
          Some (with_value (m_value PB)
                  (with_connection_id (m_id (m_on_change PB) + 1)
                     (with_connection (Some B) PA)))) as HA'
    by (rewrite Hp; apply lookup_insert_eq).
  assert (props w' !! B = Some (with_on_change sgB PB)) as HB'.
  { rewrite Hp. rewrite lookup_insert_ne by auto. apply lookup_insert_eq. }
  split.
  - split; [assumption|]. eexists. eexists.
    split; [exact HA'|]. split; [exact HB'|].
    split; [reflexivity|]. split.
    { exists (m_slots (m_on_change PB)),
             {| key := m_id (m_on_change PB) + 1; node := m_nodes (m_on_change PB);
                fn := SetFrom A |}, [].
      split; [exact Hslots|]. split; [reflexivity|]. split; [reflexivity|].
      rewrite app_nil_r. apply HqB1. }
    split; [apply HokB|]. split; [exact HqB2|]. split; [exact HqA1|exact HqA2].
  - unfold Property_get. now rewrite HA', HB'.
Qed.

(** C3 (amended). With [A] bound to [B], both holding the same value, and
    slots around that only observe. [B.set(v)] returns with both holding
    [v]; [B.touch()] and [A.touch()] return with every object as it was,
    so both values unchanged; the link and the equality of the two
    values are there again after each of the three calls. The other
    writes break the equality and leave the link: with a value [v] other
    than the one held, [B.set_with_no_emit(v)] leaves [A] with the old
    value beside [B] holding [v], and [A.set_with_no_emit(v)] and
    [A.set(v)] leave [B] with the old value beside [A] holding [v]. *)
Theorem binding_preserved_by_source_set (A B : nat) (v : T) w (n : nat) :
  Bound code A B w -> Property_get A w = Property_get B w ->
  binding_fuel A B w <= n ->
  (exists w',
     Property_set (Signal_emit code n) B (ByValue v) w = Done w' /\
     Bound code A B w' /\
     Property_get A w' = Some v /\ Property_get B w' = Some v) /\
  (exists w',
     Property_touch (Signal_emit code n) B w = Done w' /\
     Bound code A B w' /\ Property_get A w' = Property_get B w' /\
     same_objects w w' /\
     Property_get A w' = Property_get A w /\ Property_get B w' = Property_get B w) /\
  (exists w',
     Property_touch (Signal_emit code n) A w = Done w' /\
     Bound code A B w' /\ Property_get A w' = Property_get B w' /\
     same_objects w w' /\
     Property_get A w' = Property_get A w /\ Property_get B w' = Property_get B w) /\
  (Property_get B w <> Some v ->
   (exists w',
      Property_set_with_no_emit B (ByValue v) w = Done w' /\
      Bound code A B w' /\ trace w' = trace w /\
      Property_get A w' = Property_get A w /\ Property_get B w' = Some v /\
      Property_get A w' <> Property_get B w') /\
   (exists w',
      Property_set_with_no_emit A (ByValue v) w = Done w' /\
      Bound code A B w' /\ trace w' = trace w /\
      Property_get A w' = Some v /\ Property_get B w' = Property_get B w /\
      Property_get A w' <> Property_get B w') /\
   (exists w',
      Property_set (Signal_emit code n) A (ByValue v) w = Done w' /\
      Bound code A B w' /\
      Property_get A w' = Some v /\ Property_get B w' = Property_get B w /\
      Property_get A w' <> Property_get B w')).
Proof.
  intros (HAB & PA & PB & HA & HB & HL) Hsync Hn.
  assert (m_value PA = m_value PB) as Hv.
  { unfold Property_get in Hsync. rewrite HA, HB in Hsync. now injection Hsync. }
  pose proof (binding_fuel_eq A B PA PB w HA HB) as Hfuel.
  split; [|split; [|split]].
  - destruct (decide (v = m_value PB)) as [Heq|Hne].
    + exists w. unfold Property_set. rewrite HB. cbn [deref].
      rewrite bool_decide_eq_true_2 by exact Heq.
      split; [reflexivity|]. split; [split; [assumption|]; now exists PA, PB|].
      unfold Property_get. rewrite HA, HB. cbn. now rewrite Hv, Heq.
    + pose proof HL as (_ & (l1 & e & l2 & Hl & _ & He & Hobs) & Hsorted & HqB & HqA1 & HqA2).
      destruct (set_source A B PA PB l1 l2 e v w n HAB HA HB Hl He Hsorted Hobs
                  HqB HqA1 HqA2 Hne ltac:(lia))
        as (w' & tr & Hrun & Hp & _).
      assert (props w' !! A = Some (with_value v PA)) as HA'
        by (rewrite Hp; apply lookup_insert_eq).
      assert (props w' !! B = Some (with_value v PB)) as HB'.
      { rewrite Hp. rewrite lookup_insert_ne by auto. apply lookup_insert_eq. }
      exists w'. split; [exact Hrun|]. split.
      * split; [assumption|]. exists (with_value v PA), (with_value v PB).
        split; [assumption|]. split; [assumption|]. exact HL.
      * unfold Property_get. now rewrite HA', HB'.
  - destruct (touch_source A B PA PB w n HAB HA HB HL Hv Hn) as (w' & Hrun & Hsame).
    exists w'. split; [exact Hrun|]. split; [|split; [|split; [exact Hsame|]]].
    + split; [assumption|]. exists PA, PB.
      now rewrite !(same_objects_prop _ w w' Hsame).
    + unfold Property_get. now rewrite !(same_objects_prop _ w w' Hsame).
    + unfold Property_get. now rewrite !(same_objects_prop _ w w' Hsame).
  - destruct HL as (Hc & Hfwd & Hsorted & HqB & HqA1 & HqA2).
    unfold Property_touch. rewrite HA.
    destruct (emit_quiet n (PriorToChange A) (m_prior_to_change PA) (m_value PA) w)
      as (w1 & Hrun1 & Hsame1 & _); [cbn [get_signal]; now rewrite HA|assumption|lia|].
    rewrite Hrun1. cbn [bind]. rewrite (same_objects_prop A w w1 Hsame1), HA.
    destruct (emit_quiet n (OnChange A) (m_on_change PA) (m_value PA) w1)
      as (w' & Hrun2 & Hsame2 & _);
      [cbn [get_signal]; now rewrite (same_objects_prop A w w1 Hsame1), HA|assumption|lia|].
    assert (same_objects w w') as Hsame by (eapply same_objects_trans; eassumption).
    exists w'. split; [exact Hrun2|]. split; [|split; [|split; [exact Hsame|]]].
    + split; [assumption|]. exists PA, PB.
      rewrite !(same_objects_prop _ w w' Hsame).
      unfold Linked. repeat (split; [assumption|]). assumption.
    + unfold Property_get. now rewrite !(same_objects_prop _ w w' Hsame).
    + unfold Property_get. now rewrite !(same_objects_prop _ w w' Hsame).
  - intros Hnew.
    assert (v <> m_value PB) as HneB.
    { intros ->. apply Hnew. unfold Property_get. now rewrite HB. }
    assert (v <> m_value PA) as HneA by now rewrite Hv.
    assert (forall w', props w' = <[B := with_value v PB]> (props w) ->
              Bound code A B w' /\ Property_get A w' = Property_get A w /\
              Property_get B w' = Some v /\ Property_get A w' <> Property_get B w') as HwB.
    { intros w' Hp.
      assert (props w' !! A = Some PA) as HA'
        by (rewrite Hp; now rewrite lookup_insert_ne by auto).
      assert (props w' !! B = Some (with_value v PB)) as HB'
        by (rewrite Hp; apply lookup_insert_eq).
      split; [|unfold Property_get; rewrite HA', HB', HA; cbn].
      - split; [assumption|]. exists PA, (with_value v PB).
        split; [assumption|]. split; [assumption|]. exact HL.
      - split; [reflexivity|]. split; [reflexivity|]. intros [= Heq]. now apply HneA. }
    assert (forall w', props w' = <[A := with_value v PA]> (props w) ->
              Bound code A B w' /\ Property_get A w' = Some v /\
              Property_get B w' = Property_get B w /\
              Property_get A w' <> Property_get B w') as HwA.
    { intros w' Hp.
      assert (props w' !! A = Some (with_value v PA)) as HA'
        by (rewrite Hp; apply lookup_insert_eq).
      assert (props w' !! B = Some PB) as HB'
        by (rewrite Hp; now rewrite lookup_insert_ne by auto).
      split; [|unfold Property_get; rewrite HA', HB', HB; cbn].
      - split; [assumption|]. exists (with_value v PA), PB.
        split; [assumption|]. split; [assumption|]. exact HL.
      - split; [reflexivity|]. split; [reflexivity|]. intros [= Heq]. now apply HneB. }
    split; [|split].
    + exists (put_prop B (with_value v PB) w).
      destruct (HwB (put_prop B (with_value v PB) w) eq_refl) as (H1 & H2 & H3 & H4).
      unfold Property_set_with_no_emit. rewrite HB. cbn [deref].
      now repeat (split; [first [assumption|reflexivity]|]).
    + exists (put_prop A (with_value v PA) w).
      destruct (HwA (put_prop A (with_value v PA) w) eq_refl) as (H1 & H2 & H3 & H4).
      unfold Property_set_with_no_emit. rewrite HA. cbn [deref].
      now repeat (split; [first [assumption|reflexivity]|]).
    + destruct HL as (_ & _ & _ & _ & HqA1 & HqA2).
      destruct (set_quiet A (ByValue v) v w PA n HA eq_refl HneA HqA2 HqA1
                  ltac:(lia) ltac:(lia)) as (w' & Hset & Hp & _).
      destruct (HwA w' Hp) as (H1 & H2 & H3 & H4).
      exists w'. now repeat (split; [assumption|]).
Qed.

Lemma map_erase_last (l : list Entry) (e : Entry) :
  Forall (fun h => (key h < key e)%Z) l -> map_erase (key e) (l ++ [e]) = l.
Proof.
  intros Hall. unfold map_erase. rewrite List.filter_app. cbn [List.filter].
  rewrite Z.eqb_refl. cbn [negb]. rewrite app_nil_r.
  induction Hall as [|h t Hh _ IH]; cbn [List.filter]; [reflexivity|].
  destruct (Z.eqb_spec (key h) (key e)); [lia|]. cbn [negb]. now rewrite IH.
Qed.

(** The round trip of a binding, from an unbound [A]. *)
Lemma binding_round_trip (A B : nat) (PA PB : Property) (v2 v3 : T) w (n : nat) :
  A <> B -> props w !! A = Some PA -> props w !! B = Some PB ->
  m_connection PA = None ->
  Signal_ok (m_on_change PB) -> (m_id (m_on_change PB) < SIZE_MAX)%Z ->
  quiet code (m_on_change PB) -> quiet code (m_prior_to_change PB) ->
  quiet code (m_on_change PA) -> quiet code (m_prior_to_change PA) ->
  v2 <> m_value PB ->
  binding_fuel A B w < n ->
  exists w1 w2 w3 w4 tr2 tr4,
    Property_connect_from (Signal_emit code n) A B w = Done w1 /\
    Property_get A w1 = Property_get B w1 /\
    Property_get B w1 = Some (m_value PB) /\
    Property_set (Signal_emit code n) B (ByValue v2) w1 = Done w2 /\
    Property_get A w2 = Some v2 /\
    trace w2 = trace w1 ++ tr2 /\ fired (OnChange A) tr2 = 1 /\
    Property_disconnect A w2 = Done w3 /\
    Property_get A w3 = Some v2 /\
    Property_set (Signal_emit code n) B (ByValue v3) w3 = Done w4 /\
    Property_get A w4 = Some v2 /\
    trace w4 = trace w3 ++ tr4 /\
    fired (OnChange A) tr4 = 0 /\ fired (PriorToChange A) tr4 = 0.
Proof.
  intros HAB HA HB Hconn Hok Hroom HqB1 HqB2 HqA1 HqA2 Hne Hn.
  rewrite (binding_fuel_eq A B PA PB w HA HB) in Hn.
  (* connect_from *)
  destruct (connect_from_unbound A B PA PB w n HAB HA HB Hconn Hok Hroom HqA1 HqA2)
    as (w1 & sgB & Hrun1 & Hp1 & _ & Hslots & HokB); [lia..|].
  set (id := (m_id (m_on_change PB) + 1)%Z) in *.
  set (PA1 := with_value (m_value PB) (with_connection_id id (with_connection (Some B) PA))) in *.
  set (PB1 := with_on_change sgB PB) in *.
  set (e := {| key := id; node := m_nodes (m_on_change PB); fn := SetFrom A |}) in *.
  assert (props w1 !! A = Some PA1) as HA1 by (rewrite Hp1; apply lookup_insert_eq).
  assert (props w1 !! B = Some PB1) as HB1.
  { rewrite Hp1. rewrite lookup_insert_ne by auto. apply lookup_insert_eq. }
  (* B.set(v2) *)
  destruct (set_source A B PA1 PB1 (m_slots (m_on_change PB)) [] e v2 w1 n HAB HA1 HB1)
    as (w2 & tr2 & Hrun2 & Hp2 & _ & Htr2 & Hf2 & _); try assumption.
  { reflexivity. }
  { apply HokB. }
  { rewrite app_nil_r. apply HqB1. }
  { cbn [PB1 with_on_change m_on_change m_prior_to_change PA1 with_value with_connection_id
         with_connection]. rewrite Hslots, length_app. cbn [length]. lia. }
  rewrite bool_decide_eq_false_2 in Hf2 by exact Hne.
  set (PA2 := with_value v2 PA1) in *. set (PB2 := with_value v2 PB1) in *.
  assert (props w2 !! A = Some PA2) as HA2 by (rewrite Hp2; apply lookup_insert_eq).
  assert (props w2 !! B = Some PB2) as HB2.
  { rewrite Hp2. rewrite lookup_insert_ne by auto. apply lookup_insert_eq. }
  (* A.disconnect() *)
  set (PB3 := with_on_change (Signal_disconnect id sgB) PB2).
  set (PA3 := with_connection None (with_connection_id SIZE_MAX PA2)).
  set (w3 := put_prop A PA3 (put_prop B PB3 w2)).
  assert (Property_disconnect A w2 = Done w3) as Hrun3.
  { unfold Property_disconnect, disconnect_at. rewrite HA2.
    cbn [PA2 PA1 with_value with_connection_id with_connection m_connection m_connection_id].
    cbn [get_signal put_signal]. rewrite HB2. cbn [option_fmap option_map fmap bind].
    cbn [put_prop with_props props]. rewrite lookup_insert_ne by auto. rewrite HA2.
    reflexivity. }
  assert (props w3 !! A = Some PA3) as HA3 by apply lookup_insert_eq.
  assert (props w3 !! B = Some PB3) as HB3.
  { subst w3. cbn [put_prop with_props props]. rewrite lookup_insert_ne by auto.
    apply lookup_insert_eq. }
  assert (m_slots (m_on_change PB3) = m_slots (m_on_change PB)) as Hslots3.
  { cbn [PB3 with_on_change m_on_change Signal_disconnect m_slots]. rewrite Hslots.
    apply (map_erase_last _ e). destruct Hok as (_ & Hk & _).
    eapply List.Forall_impl; [|exact Hk]. intros h Hh. cbn beta in Hh.
    subst e id. cbn [key]. lia. }
  (* B.set(v3) *)
  assert (exists w4 tr4,
    Property_set (Signal_emit code n) B (ByValue v3) w3 = Done w4 /\
    props w4 !! A = Some PA3 /\ trace w4 = trace w3 ++ tr4 /\
    fired (OnChange A) tr4 = 0 /\ fired (PriorToChange A) tr4 = 0)
    as (w4 & tr4 & Hrun4 & HA4 & Htr4 & Hf4a & Hf4b).
  { destruct (decide (v3 = m_value PB3)) as [Heq|Hne3].
    - exists w3, []. unfold Property_set. rewrite HB3. cbn [deref].
      rewrite bool_decide_eq_true_2 by exact Heq. rewrite app_nil_r. now repeat split.
    - destruct (set_quiet B (ByValue v3) v3 w3 PB3 n HB3 eq_refl Hne3)
        as (w4 & Hset & Hp4 & _ & Htr4).
      + exact HqB2.
      + destruct HqB1 as [Hs1 Hall1]. split; rewrite Hslots3; assumption.
      + cbn [PB3 PB2 PB1 with_on_change with_value m_prior_to_change]. lia.
      + rewrite Hslots3. lia.
      + eexists w4, _. split; [exact Hset|]. split; [|split; [exact Htr4|]].
        * rewrite Hp4. rewrite lookup_insert_ne by auto. exact HA3.
        * assert (PriorToChange B <> PriorToChange A) by (intros [= ->]; now apply HAB).
          assert (OnChange B <> OnChange A) by (intros [= ->]; now apply HAB).
          split; rewrite fired_app, !fired_emit_other, !fired_calls by (assumption || discriminate);
            reflexivity. }
  exists w1, w2, w3, w4, tr2, tr4.
  split; [exact Hrun1|]. unfold Property_get.
  rewrite HA1, HB1, HA2, HA3, HA4.
  repeat (split; [first [assumption | reflexivity]|]).
  assumption.
Qed.

(** [disconnect()] leaves the property unbound, and a second call does
    nothing. *)
Lemma disconnect_unbinds (A : nat) (PA : Property) w w0 :
  Property_disconnect A w = Done w0 -> props w0 !! A = Some PA ->
  m_connection PA = None /\ Property_disconnect A w0 = Done w0.
Proof.
  unfold Property_disconnect at 1. intros Hd HA0.
  destruct (props w !! A) as [P|] eqn:HP; [|discriminate].
  destruct (m_connection P) as [src|] eqn:Hc.
  - destruct (disconnect_at (OnChange src) (m_connection_id P) w) as [w1| |];
      cbn [bind] in Hd; try discriminate.
    destruct (props w1 !! A) as [P1|]; [|discriminate].
    injection Hd as <-. cbn [put_prop with_props props] in HA0.
    rewrite lookup_insert_eq in HA0. injection HA0 as <-.
    split; [reflexivity|]. unfold Property_disconnect.
    cbn [put_prop with_props props]. now rewrite lookup_insert_eq.
  - injection Hd as <-. rewrite HP in HA0. injection HA0 as <-.
    split; [exact Hc|]. unfold Property_disconnect. now rewrite HP, Hc.
Qed.

(** [connect_from] starts with [disconnect()]: it goes on from the store
    that call leaves. *)
Lemma connect_from_rebind (em : @Emitter T U) (A B : nat) (PA : Property) w w0 :
  Property_disconnect A w = Done w0 -> props w0 !! A = Some PA ->
  Property_connect_from em A B w = Property_connect_from em A B w0.
Proof.
  intros Hd HA0. destruct (disconnect_unbinds A PA w w0 Hd HA0) as [_ Hd0].
  unfold Property_connect_from. now rewrite Hd, Hd0.
Qed.

(** C9. [A.connect_from(B)], the slots around observing; [w0] is the store
    once the link [A] may have had is dropped, which is the first thing
    [connect_from] does. On return [A] holds [B]'s value; a [B.set(v2)]
    with a new value then leaves [A] holding [v2], [A]'s [m_on_change]
    having been emitted once; after [A.disconnect()] a [B.set(v3)] leaves
    [A]'s value alone and emits neither of [A]'s signals. *)
Theorem binding_propagation (A B : nat) (PA PB : Property) (v2 v3 : T) w w0 (n : nat) :
  A <> B -> Property_disconnect A w = Done w0 ->
  props w0 !! A = Some PA -> props w0 !! B = Some PB ->
  Signal_ok (m_on_change PB) -> (m_id (m_on_change PB) < SIZE_MAX)%Z ->
  quiet code (m_on_change PB) -> quiet code (m_prior_to_change PB) ->
  quiet code (m_on_change PA) -> quiet code (m_prior_to_change PA) ->
  v2 <> m_value PB ->
  binding_fuel A B w0 < n ->
  exists w1 w2 w3 w4 tr2 tr4,
    Property_connect_from (Signal_emit code n) A B w = Done w1 /\
    Property_get A w1 = Property_get B w1 /\
    Property_get B w1 = Some (m_value PB) /\
    Property_set (Signal_emit code n) B (ByValue v2) w1 = Done w2 /\
    Property_get A w2 = Some v2 /\
    trace w2 = trace w1 ++ tr2 /\ fired (OnChange A) tr2 = 1 /\
    Property_disconnect A w2 = Done w3 /\
    Property_get A w3 = Some v2 /\
    Property_set (Signal_emit code n) B (ByValue v3) w3 = Done w4 /\
    Property_get A w4 = Some v2 /\
    trace w4 = trace w3 ++ tr4 /\
    fired (OnChange A) tr4 = 0 /\ fired (PriorToChange A) tr4 = 0.
Proof.
  intros HAB Hd HA HB Hok Hroom HqB1 HqB2 HqA1 HqA2 Hne Hn.
  destruct (disconnect_unbinds A PA w w0 Hd HA) as [Hconn _].
  rewrite (connect_from_rebind _ A B PA w w0 Hd HA).
  now apply (binding_round_trip A B PA PB).
Qed.

(** C10. A copy-constructed property has the value of the original, no
    link, and two empty tables, and constructing it leaves every other
    object as it was. Copy assignment is [set] of the other's value: with
    equal values the store is left as it is; with different values and
    observers on the target, both signals of the target are emitted once
    and only the target's value moves (its link and tables, and the other
    property, stay). *)
Theorem copy_takes_value_only (this xi_other : nat) (PQ PP : Property) w (n : nat) :
  props w !! xi_other = Some PP ->
  (m_value (Property_copy PP) = m_value PP /\
   m_connection (Property_copy PP) = None /\
   m_slots (m_on_change (Property_copy PP)) = [] /\
   m_slots (m_prior_to_change (Property_copy PP)) = []) /\
  (exists w',
     Property_copy_construct this xi_other w = Done w' /\
     props w' = <[this := Property_copy PP]> (props w) /\
     signals w' = signals w /\ trace w' = trace w /\
     (this <> xi_other -> Property_get this w' = Property_get xi_other w')) /\
  (props w !! this = Some PQ ->
   Property_assign (Signal_emit code n) this xi_other w =
     Property_set (Signal_emit code n) this (ValueOf xi_other) w /\
   (m_value PP = m_value PQ ->
    Property_assign (Signal_emit code n) this xi_other w = Done w) /\
   (m_value PP <> m_value PQ ->
    quiet code (m_prior_to_change PQ) -> quiet code (m_on_change PQ) ->
    length (m_slots (m_prior_to_change PQ)) <= n ->
    length (m_slots (m_on_change PQ)) <= n ->
    exists w' tr,
      Property_assign (Signal_emit code n) this xi_other w = Done w' /\
      props w' = <[this := with_value (m_value PP) PQ]> (props w) /\
      signals w' = signals w /\
      trace w' = trace w ++ tr /\
      fired (PriorToChange this) tr = 1 /\ fired (OnChange this) tr = 1)).
Proof.
  intros HP. split; [now repeat split|]. split.
  - exists (put_prop this (Property_copy PP) w). unfold Property_copy_construct.
    rewrite HP. repeat (split; [reflexivity|]).
    intros Hne. unfold Property_get. cbn [put_prop with_props props].
    rewrite lookup_insert_eq. rewrite lookup_insert_ne by auto. now rewrite HP.
  - intros HQ. split; [reflexivity|]. split.
    + intros Heq. unfold Property_assign, Property_set. rewrite HQ. cbn [deref].
      rewrite HP. cbn [fmap option_fmap option_map].
      now rewrite bool_decide_eq_true_2.
    + intros Hne Hq1 Hq2 Hn1 Hn2. unfold Property_assign.
      destruct (set_quiet this (ValueOf xi_other) (m_value PP) w PQ n HQ)
        as (w' & Hset & Hp & Hs & Htr); try assumption.
      { cbn [deref]. now rewrite HP. }
      eexists w', _. split; [exact Hset|]. split; [exact Hp|]. split; [exact Hs|].
      split; [exact Htr|]. split.
      * rewrite fired_app, fired_emit_same, fired_calls, fired_emit_other, fired_calls;
          [reflexivity|discriminate].
      * rewrite fired_app, fired_emit_other, fired_calls, fired_emit_same, fired_calls;
          [reflexivity|discriminate].
Qed.

(** * Further properties *)

Lemma head_emit_rest (m : nat) s x (l : list Entry) w :
  match head l with
  | Some e' => emit_loop code m s e' x w
  | None => Done w
  end = emit_rest code m s x l w.
Proof. now destruct l. Qed.

(** One turn of the loop on an observer. *)
Lemma emit_loop_observer (k : nat) s sg (l1 l2 : list Entry) (e : Entry) x w :
  get_signal s w = Some sg -> m_slots sg = l1 ++ e :: l2 -> sorted (m_slots sg) ->
  observer_slot code (fn e) ->
  exists w1, emit_loop code (S k) s e x w = emit_rest code k s x l2 w1 /\
             same_objects w w1 /\ trace w1 = trace w ++ [EvCall s (key e) x].
Proof.
  intros Hsg Hl Hsorted Hobs.
  rewrite (emit_loop_keeps k s sg l1 l2 e x w Hsg Hl Hsorted (observer_keeps s _ Hobs)).
  destruct Hobs as (f & Hf & Hobs). rewrite Hf. cbn [invoke].
  destruct (Hobs (Signal_emit code k) x (record (EvCall s (key e) x) w))
    as (w1 & Hc & Hsame & Htr).
  rewrite Hc. cbn [bind]. exists w1. split; [apply head_emit_rest|]. split.
  - eapply same_objects_trans; [apply (same_objects_record (EvCall s (key e) x))|eassumption].
  - exact Htr.
Qed.

(** The loop through a table of observers with one slot [e] of another
    kind: the observers before it, [e] (which does [R] to the store and
    keeps the table), the observers after it. *)
Lemma emit_special (R : World -> World -> Prop) s sg (l1 l2 : list Entry) (e : Entry)
    x w (n m0 : nat) :
  get_signal s w = Some sg -> m_slots sg = l1 ++ e :: l2 -> sorted (m_slots sg) ->
  Forall (fun e => observer_slot code (fn e)) (l1 ++ l2) ->
  (forall m w1, m0 <= m -> same_objects w w1 ->
     exists w2, invoke code (Signal_emit code m) (fn e) x w1 = Done w2 /\
                get_signal s w2 = Some sg /\ R w1 w2) ->
  length l1 + S (m0 + length l2) <= n ->
  exists w1 w2 w',
    Signal_emit code n s x w = Done w' /\
    same_objects w w1 /\
    trace w1 = trace w ++ EvEmit s x :: calls s x l1 ++ [EvCall s (key e) x] /\
    R w1 w2 /\
    same_objects w2 w' /\ trace w' = trace w2 ++ calls s x l2.
Proof.
  intros Hsg Hl Hsorted Hobs Hstep Hn.
  apply List.Forall_app in Hobs as [Hobs1 Hobs2].
  rewrite Signal_emit_rest, Hsg, Hl.
  assert (get_signal s (record (EvEmit s x) w) = Some sg) as Hsg0.
  { now rewrite (get_signal_same s w) by apply same_objects_record. }
  replace n with (length l1 + (n - length l1)) by lia.
  destruct (emit_rest_prefix l1 (n - length l1) s sg [] e l2 x _ Hsg0 Hl Hsorted Hobs1)
    as (w1 & Hrun1 & Hsame1 & Htr1).
  rewrite Hrun1. clear Hrun1.
  destruct (n - length l1) as [|m] eqn:Hm; [lia|].
  rewrite emit_loop_S.
  set (w1c := record (EvCall s (key e) x) w1).
  assert (same_objects w w1c) as Hsame1c.
  { eapply same_objects_trans; [apply (same_objects_record (EvEmit s x))|].
    eapply same_objects_trans; [eassumption|apply same_objects_record]. }
  destruct (Hstep m w1c ltac:(lia) Hsame1c) as (w2 & Hinv & Hsg2 & HR).
  rewrite Hinv. cbn [bind]. rewrite Hsg2.
  rewrite node_alive_In by (rewrite Hl; apply in_or_app; right; now left).
  unfold next_entry. rewrite Hl. rewrite next_entry_split by (rewrite <- Hl; exact Hsorted).
  rewrite head_emit_rest.
  destruct (emit_rest_quiet l2 m s sg (l1 ++ [e]) x w2 Hsg2) as (w' & Hrun & Hsame & Htr);
    [now rewrite Hl, <- app_assoc|assumption..|lia|].
  exists w1c, w2, w'. split; [exact Hrun|]. split; [exact Hsame1c|].
  split; [|split; [exact HR|split; [exact Hsame|exact Htr]]].
  subst w1c. cbn [record trace]. rewrite Htr1. cbn [record trace].
  rewrite <- !app_assoc. reflexivity.
Qed.

(** ** Signal: [disconnect_all], and [emit] that does not return *)

(** X4. After [disconnect_all()] an [emit] calls no slot and returns,
    whatever the fuel; the counter is kept, so the next [connect] returns
    an id that is greater than every id the table held. *)
Theorem disconnect_all_silences s sg w :
  get_signal s w = Some sg -> Signal_ok sg ->
  exists w1,
    disconnect_all_at s w = Done w1 /\
    get_signal s w1 = Some (Signal_disconnect_all sg) /\
    (forall (n : nat) x, Signal_emit code n s x w1 = Done (record (EvEmit s x) w1)) /\
    ((m_id sg < SIZE_MAX)%Z ->
     forall c, Forall (fun e => (key e < snd (Signal_connect c (Signal_disconnect_all sg)))%Z)
                 (m_slots sg)).
Proof.
  intros Hsg Hok. exists (put_signal s (Signal_disconnect_all sg) w).
  assert (get_signal s (put_signal s (Signal_disconnect_all sg) w)
          = Some (Signal_disconnect_all sg)) as Hsg1 by (eapply get_put_signal; eassumption).
  split; [unfold disconnect_all_at; now rewrite Hsg|]. split; [exact Hsg1|]. split.
  - intros n x. unfold Signal_emit. now rewrite Hsg1.
  - intros Hroom c.
    destruct (Signal_connect_ok c _ (Signal_disconnect_all_ok sg Hok) Hroom) as (-> & _).
    cbn [Signal_disconnect_all m_id]. destruct Hok as (_ & Hk & _).
    eapply List.Forall_impl; [|exact Hk]. cbn beta. intros; lia.
Qed.

(** The loop either runs out of fuel among the observers or gets to the
    slot after them. *)
Lemma emit_rest_reach (l1 : list Entry) : forall (n : nat) s sg l0 e l2 x w,
  get_signal s w = Some sg -> m_slots sg = l0 ++ l1 ++ e :: l2 -> sorted (m_slots sg) ->
  Forall (fun e => observer_slot code (fn e)) l1 ->
  emit_rest code n s x (l1 ++ e :: l2) w = OutOfFuel \/
  exists m w1, m <= n /\ same_objects w w1 /\
    emit_rest code n s x (l1 ++ e :: l2) w = emit_loop code m s e x w1.
Proof.
  induction l1 as [|c l1 IH]; intros n s sg l0 e l2 x w Hsg Hl Hsorted Hall.
  - right. exists n, w. split; [lia|]. split; [apply same_objects_refl|reflexivity].
  - inversion Hall as [|? ? Hc Hrest]; subst. cbn [app emit_rest].
    destruct n as [|k]; [now left|].
    destruct (emit_loop_observer k s sg l0 (l1 ++ e :: l2) c x w Hsg Hl Hsorted Hc)
      as (w1 & Hrun & Hsame & _).
    rewrite Hrun.
    assert (get_signal s w1 = Some sg) as Hsg1 by now rewrite (get_signal_same s w).
    destruct (IH k s sg (l0 ++ [c]) e l2 x w1 Hsg1) as [Hout|(m & w2 & Hm & Hsame2 & Hrun2)];
      [now rewrite <- app_assoc|assumption..| |].
    + now left.
    + right. exists m, w2. split; [lia|]. split; [|exact Hrun2].
      eapply same_objects_trans; eassumption.
Qed.

(** X7. A slot that emits the signal it is called from: [emit] re-enters
    itself at that slot every time, and no amount of fuel lets it return;
    nothing in [emit] bounds the recursion. *)
Theorem emit_reentrant_never_returns s sg (l1 l2 : list Entry) (e : Entry) (f : nat) x :
  m_slots sg = l1 ++ e :: l2 -> sorted (m_slots sg) ->
  Forall (fun e => observer_slot code (fn e)) l1 ->
  fn e = UserFn f -> reemitter code f s ->
  forall (n : nat) w, get_signal s w = Some sg -> Signal_emit code n s x w = OutOfFuel.
Proof.
  intros Hl Hsorted Hobs He Hre n.
  induction n as [n IH] using lt_wf_ind. intros w Hsg.
  rewrite Signal_emit_rest, Hsg, Hl.
  assert (get_signal s (record (EvEmit s x) w) = Some sg) as Hsg0.
  { now rewrite (get_signal_same s w) by apply same_objects_record. }
  destruct (emit_rest_reach l1 n s sg [] e l2 x _ Hsg0 Hl Hsorted Hobs)
    as [Hout|(m & w1 & Hm & Hsame & Hrun)]; [exact Hout|].
  rewrite Hrun. destruct m as [|k]; [reflexivity|].
  rewrite emit_loop_S, He. cbn [invoke]. rewrite Hre.
  rewrite (IH k ltac:(lia)); [reflexivity|].
  rewrite (get_signal_same s w1) by apply same_objects_record.
  now rewrite (get_signal_same s _ w1 Hsame).
Qed.

(** One turn of the loop on a slot whose body is [connect(c)] on the
    signal being emitted: the table is one longer, the loop goes on. *)
Lemma emit_loop_connector (k : nat) s sg (l1 l2 : list Entry) (e : Entry) (f : nat)
    (c : Slot) x w :
  get_signal s w = Some sg -> Signal_ok sg -> (m_id sg < SIZE_MAX)%Z ->
  m_slots sg = l1 ++ e :: l2 -> fn e = UserFn f -> connector code f s c ->
  exists w2 sg2,
    get_signal s w2 = Some sg2 /\ Signal_ok sg2 /\ m_id sg2 = (m_id sg + 1)%Z /\
    m_slots sg2 = l1 ++ e :: l2
                    ++ [{| key := m_id sg + 1; node := m_nodes sg; fn := c |}] /\
    emit_loop code (S k) s e x w =
      emit_rest code k s x
        (l2 ++ [{| key := m_id sg + 1; node := m_nodes sg; fn := c |}]) w2.
Proof.
  intros Hsg Hok Hroom Hl He Hconn.
  assert (get_signal s (record (EvCall s (key e) x) w) = Some sg) as Hsg1.
  { now rewrite (get_signal_same s w) by apply same_objects_record. }
  destruct (connect_at_ok s sg c _ Hsg1 Hok Hroom)
    as (sg2 & Hc2 & Hsg2 & Hslots2 & Hm2 & _ & Hok2).
  rewrite Hl, <- app_assoc in Hslots2. cbn [app] in Hslots2.
  exists (put_signal s sg2 (record (EvCall s (key e) x) w)), sg2.
  split; [exact Hsg2|]. split; [exact Hok2|]. split; [exact Hm2|]. split; [exact Hslots2|].
  rewrite emit_loop_S, He. cbn [invoke]. rewrite Hconn, Hc2. cbn [bind fst].
  rewrite Hsg2.
  rewrite node_alive_In by (rewrite Hslots2; apply in_or_app; right; now left).
  unfold next_entry. rewrite Hslots2.
  rewrite next_entry_split by (rewrite <- Hslots2; apply Hok2).
  apply head_emit_rest.
Qed.

Lemma emit_rest_self_feeding (f : nat) s x (n : nat) : forall sg w (l0 r : list Entry) (c : Entry),
  connector code f s (UserFn f) ->
  get_signal s w = Some sg -> Signal_ok sg -> m_slots sg = l0 ++ r ++ [c] ->
  fn c = UserFn f ->
  Forall (fun e => observer_slot code (fn e) \/ fn e = UserFn f) r ->
  (m_id sg + Z.of_nat n <= SIZE_MAX)%Z ->
  emit_rest code n s x (r ++ [c]) w = OutOfFuel.
Proof.
  induction n as [|k IH]; intros sg w l0 r c Hconn Hsg Hok Hl Hc Hgood Hroom.
  - now destruct r.
  - destruct r as [|h r].
    + cbn [app emit_rest].
      destruct (emit_loop_connector k s sg l0 [] c f (UserFn f) x w Hsg Hok ltac:(lia) Hl Hc Hconn)
        as (w2 & sg2 & Hsg2 & Hok2 & Hm2 & Hslots2 & Hrun).
      rewrite Hrun. cbn [app].
      apply (IH sg2 w2 (l0 ++ [c]) [] _ Hconn Hsg2 Hok2);
        [now rewrite Hslots2, <- app_assoc|reflexivity|constructor|lia].
    + inversion Hgood as [|? ? Hh Hrest]; subst. cbn [app emit_rest].
      destruct Hh as [Hobs|Hf].
      * destruct (emit_loop_observer k s sg l0 (r ++ [c]) h x w Hsg Hl (proj1 Hok) Hobs)
          as (w1 & Hrun & Hsame & _).
        rewrite Hrun.
        apply (IH sg w1 (l0 ++ [h]) r c Hconn); try assumption.
        -- now rewrite (get_signal_same s w).
        -- now rewrite <- app_assoc.
        -- lia.
      * destruct (emit_loop_connector k s sg l0 (r ++ [c]) h f (UserFn f) x w
                    Hsg Hok ltac:(lia) Hl Hf Hconn)
          as (w2 & sg2 & Hsg2 & Hok2 & Hm2 & Hslots2 & Hrun).
        rewrite Hrun.
        apply (IH sg2 w2 (l0 ++ [h]) (r ++ [c]) _ Hconn Hsg2 Hok2).
        -- rewrite Hslots2, <- !app_assoc. reflexivity.
        -- reflexivity.
        -- apply List.Forall_app. split; [exact Hrest|]. constructor; [now right|constructor].
        -- lia.
Qed.

(** X6. A slot whose body connects one more slot like itself to the signal
    being emitted, last in a table of observers: each call appends a slot
    the loop has still to reach, so [emit] does not return, for any fuel
    within the room the counter has left. *)
Theorem emit_self_feeding_never_returns s sg (l : list Entry) (e : Entry) (f : nat) x w
    (n : nat) :
  get_signal s w = Some sg -> Signal_ok sg -> m_slots sg = l ++ [e] ->
  fn e = UserFn f -> connector code f s (UserFn f) ->
  Forall (fun e => observer_slot code (fn e)) l ->
  (m_id sg + Z.of_nat n <= SIZE_MAX)%Z ->
  Signal_emit code n s x w = OutOfFuel.
Proof.
  intros Hsg Hok Hl He Hconn Hobs Hroom.
  rewrite Signal_emit_rest, Hsg, Hl.
  assert (get_signal s (record (EvEmit s x) w) = Some sg) as Hsg0.
  { now rewrite (get_signal_same s w) by apply same_objects_record. }
  assert (Forall (fun e => observer_slot code (fn e) \/ fn e = UserFn f) l) as Hgood.
  { eapply List.Forall_impl; [|exact Hobs]. cbn beta. intros; now left. }
  exact (emit_rest_self_feeding f s x n sg _ [] l e Hconn Hsg0 Hok Hl He Hgood Hroom).
Qed.

(** ** Property: [touch], silent writes, [disconnect], [disconnect_auditors] *)

(** X8. [touch()] with observers on both tables: [m_prior_to_change] is
    emitted once, then [m_on_change] once, both with the value held, every
    slot is called once, and the objects are left as they were. *)
Theorem touch_fires_both (this : nat) (P : Property) w (n : nat) :
  props w !! this = Some P ->
  quiet code (m_prior_to_change P) -> quiet code (m_on_change P) ->
  length (m_slots (m_prior_to_change P)) <= n ->
  length (m_slots (m_on_change P)) <= n ->
  exists w',
    Property_touch (Signal_emit code n) this w = Done w' /\
    same_objects w w' /\ Property_get this w' = Some (m_value P) /\
    trace w' = trace w
      ++ (EvEmit (PriorToChange this) (m_value P)
            :: calls (PriorToChange this) (m_value P) (m_slots (m_prior_to_change P)))
      ++ (EvEmit (OnChange this) (m_value P)
            :: calls (OnChange this) (m_value P) (m_slots (m_on_change P))).
Proof.
  intros HP Hq1 Hq2 Hn1 Hn2. unfold Property_touch. rewrite HP.
  destruct (emit_quiet n (PriorToChange this) (m_prior_to_change P) (m_value P) w)
    as (w1 & Hrun1 & Hsame1 & Htr1); [cbn [get_signal]; now rewrite HP|assumption..|].
  rewrite Hrun1. cbn [bind]. rewrite (same_objects_prop this w w1 Hsame1), HP.
  destruct (emit_quiet n (OnChange this) (m_on_change P) (m_value P) w1)
    as (w' & Hrun2 & Hsame2 & Htr2);
    [cbn [get_signal]; now rewrite (same_objects_prop this w w1 Hsame1), HP|assumption..|].
  assert (same_objects w w') as Hsame by (eapply same_objects_trans; eassumption).
  exists w'. split; [exact Hrun2|]. split; [exact Hsame|]. split.
  - unfold Property_get. now rewrite (same_objects_prop this w w' Hsame), HP.
  - rewrite Htr2, Htr1. now rewrite <- app_assoc.
Qed.

(** X9. [set_with_no_emit(v)] stores [v] whether or not it is the value
    held and emits nothing; a [set(v)] with the same value after it finds
    nothing to do, so the slots are never told about [v]. *)
Theorem silent_write_masks_set (em : @Emitter T U) (this : nat) (v : T) (P : Property) w :
  props w !! this = Some P ->
  exists w1,
    Property_set_with_no_emit this (ByValue v) w = Done w1 /\
    props w1 = <[this := with_value v P]> (props w) /\
    signals w1 = signals w /\ trace w1 = trace w /\
    Property_get this w1 = Some v /\
    Property_set em this (ByValue v) w1 = Done w1.
Proof.
  intros HP. exists (put_prop this (with_value v P) w).
  unfold Property_set_with_no_emit. rewrite HP. cbn [deref].
  repeat (split; [reflexivity|]). split.
  - unfold Property_get. cbn [put_prop with_props props]. now rewrite lookup_insert_eq.
  - unfold Property_set. cbn [put_prop with_props props deref].
    rewrite lookup_insert_eq. cbn [with_value m_value].
    now rewrite bool_decide_eq_true_2.
Qed.

Lemma sorted_around (l1 l2 : list Entry) (e : Entry) :
  sorted (l1 ++ e :: l2) ->
  Forall (fun h => (key h < key e)%Z) l1 /\ Forall (fun h => (key e < key h)%Z) l2.
Proof.
  unfold sorted. induction l1 as [|h t IH]; cbn [app]; intros Hs.
  - inversion Hs; subst. split; [constructor|assumption].
  - inversion Hs as [|? ? Ht Hall]; subst. destruct (IH Ht) as [H1 H2].
    split; [|exact H2]. constructor; [|exact H1].
    rewrite List.Forall_forall in Hall. apply Hall. apply in_or_app. right. now left.
Qed.

Lemma map_erase_others (k : Z) (l : list Entry) :
  Forall (fun h => key h <> k) l -> map_erase k l = l.
Proof.
  unfold map_erase. induction 1 as [|h t Hh _ IH]; cbn [List.filter]; [reflexivity|].
  destruct (Z.eqb_spec (key h) k); [contradiction|]. cbn [negb]. now rewrite IH.
Qed.

(** Erasing the key of one node of a table takes out that node. *)
Lemma map_erase_mid (l1 l2 : list Entry) (e : Entry) :
  sorted (l1 ++ e :: l2) -> map_erase (key e) (l1 ++ e :: l2) = l1 ++ l2.
Proof.
  intros Hs. destruct (sorted_around l1 l2 e Hs) as [H1 H2].
  rewrite map_erase_app. f_equal.
  - apply map_erase_others. eapply List.Forall_impl; [|exact H1]. cbn beta. intros; lia.
  - unfold map_erase at 1. cbn [List.filter]. rewrite Z.eqb_refl. cbn [negb].
    apply map_erase_others. eapply List.Forall_impl; [|exact H2]. cbn beta. intros; lia.
Qed.

(** X10. [A.disconnect()] with [A] linked to a live source [B]: the node
    with the id [A] holds is erased from [B]'s [m_on_change] and no other,
    [A] is left with a null link and the id [-1], both values stay,
    nothing is emitted, and a second [disconnect()] changes nothing. *)
Theorem disconnect_removes_forwarding (A B : nat) (PA PB : Property)
    (l1 l2 : list Entry) (e : Entry) w :
  A <> B -> props w !! A = Some PA -> props w !! B = Some PB ->
  m_connection PA = Some B ->
  m_slots (m_on_change PB) = l1 ++ e :: l2 -> sorted (m_slots (m_on_change PB)) ->
  key e = m_connection_id PA ->
  exists w',
    Property_disconnect A w = Done w' /\
    props w' =
      <[A := with_connection None (with_connection_id SIZE_MAX PA)]>
        (<[B := with_on_change (Signal_disconnect (m_connection_id PA) (m_on_change PB)) PB]>
           (props w)) /\
    m_slots <$> get_signal (OnChange B) w' = Some (l1 ++ l2) /\
    Property_get A w' = Property_get A w /\ Property_get B w' = Property_get B w /\
    signals w' = signals w /\ trace w' = trace w /\
    Property_disconnect A w' = Done w'.
Proof.
  intros HAB HA HB Hconn Hl Hsorted Hkey.
  set (PB1 := with_on_change (Signal_disconnect (m_connection_id PA) (m_on_change PB)) PB).
  set (PA1 := with_connection None (with_connection_id SIZE_MAX PA)).
  exists (put_prop A PA1 (put_prop B PB1 w)).
  assert (Property_disconnect A w = Done (put_prop A PA1 (put_prop B PB1 w))) as Hrun.
  { unfold Property_disconnect, disconnect_at. rewrite HA, Hconn.
    cbn [get_signal put_signal]. rewrite HB. cbn [option_fmap option_map fmap bind].
    cbn [put_prop with_props props]. rewrite lookup_insert_ne by auto. now rewrite HA. }
  split; [exact Hrun|]. split; [reflexivity|]. split; [|split; [|split; [|split; [|split]]]].
  - cbn [get_signal put_prop with_props props]. rewrite lookup_insert_ne by auto.
    rewrite lookup_insert_eq. cbn [option_fmap option_map fmap PB1 with_on_change m_on_change
                                   Signal_disconnect m_slots].
    rewrite Hl, <- Hkey. now rewrite map_erase_mid by (rewrite <- Hl; exact Hsorted).
  - unfold Property_get. cbn [put_prop with_props props]. rewrite lookup_insert_eq.
    now rewrite HA.
  - unfold Property_get. cbn [put_prop with_props props]. rewrite lookup_insert_ne by auto.
    rewrite lookup_insert_eq. now rewrite HB.
  - reflexivity.
  - reflexivity.
  - unfold Property_disconnect. cbn [put_prop with_props props].
    now rewrite lookup_insert_eq.
Qed.

(** [disconnect_auditors()] in the store. *)
Lemma disconnect_auditors_store (this : nat) (P : Property) w :
  props w !! this = Some P ->
  Property_disconnect_auditors this w =
    Done (put_prop this
            (with_prior_to_change (Signal_disconnect_all (m_prior_to_change P))
               (with_on_change (Signal_disconnect_all (m_on_change P)) P))
            (put_prop this (with_on_change (Signal_disconnect_all (m_on_change P)) P) w)).
Proof.
  intros HP. unfold Property_disconnect_auditors, disconnect_all_at.
  cbn [get_signal put_signal]. rewrite HP. cbn [option_fmap option_map fmap bind].
  cbn [put_prop with_props props]. rewrite lookup_insert_eq.
  cbn [option_fmap option_map fmap]. reflexivity.
Qed.

(** [set] with a new value on a property whose tables are empty. *)
Lemma set_on_empty_tables (this : nat) (P : Property) (v : T) w (n : nat) :
  props w !! this = Some P -> v <> m_value P ->
  m_slots (m_prior_to_change P) = [] -> m_slots (m_on_change P) = [] ->
  Property_set (Signal_emit code n) this (ByValue v) w =
    Done (record (EvEmit (OnChange this) v)
            (put_prop this (with_value v P)
               (record (EvEmit (PriorToChange this) (m_value P)) w))).
Proof.
  intros HP Hne He1 He2.
  assert (Signal_emit code n (PriorToChange this) (m_value P) w
          = Done (record (EvEmit (PriorToChange this) (m_value P)) w)) as Hrun1.
  { unfold Signal_emit. cbn [get_signal]. rewrite HP. cbn [option_fmap option_map fmap].
    now rewrite He1. }
  set (w2 := put_prop this (with_value v P)
               (record (EvEmit (PriorToChange this) (m_value P)) w)).
  assert (props w2 !! this = Some (with_value v P)) as HP2 by apply lookup_insert_eq.
  assert (Signal_emit code n (OnChange this) v w2 = Done (record (EvEmit (OnChange this) v) w2))
    as Hrun2.
  { unfold Signal_emit. cbn [get_signal]. rewrite HP2. cbn [option_fmap option_map fmap].
    change (m_on_change (with_value v P)) with (m_on_change P). now rewrite He2. }
  unfold Property_set. rewrite HP. cbn [deref].
  rewrite bool_decide_eq_false_2 by exact Hne. rewrite Hrun1. cbn [bind].
  change (props (record (EvEmit (PriorToChange this) (m_value P)) w)) with (props w).
  rewrite HP. exact Hrun2.
Qed.

(** X11. [disconnect_auditors()] empties both tables and leaves the value
    and the link to a source as they are; a [set] with a new value after
    it stores the value and returns with both signals emitted and no slot
    called, whatever the fuel. *)
Theorem disconnect_auditors_clears (this : nat) (P : Property) (v : T) w :
  props w !! this = Some P -> v <> m_value P ->
  exists w1,
    Property_disconnect_auditors this w = Done w1 /\
    props w1 =
      <[this := with_prior_to_change (Signal_disconnect_all (m_prior_to_change P))
                  (with_on_change (Signal_disconnect_all (m_on_change P)) P)]> (props w) /\
    signals w1 = signals w /\ trace w1 = trace w /\
    forall n : nat, exists w2,
      Property_set (Signal_emit code n) this (ByValue v) w1 = Done w2 /\
      Property_get this w2 = Some v /\
      trace w2 = trace w1 ++ [EvEmit (PriorToChange this) (m_value P); EvEmit (OnChange this) v].
Proof.
  intros HP Hne.
  set (P1 := with_on_change (Signal_disconnect_all (m_on_change P)) P).
  set (P2 := with_prior_to_change (Signal_disconnect_all (m_prior_to_change P)) P1).
  exists (put_prop this P2 (put_prop this P1 w)).
  split; [now apply disconnect_auditors_store|].
  split; [cbn [put_prop with_props props]; now rewrite insert_insert_eq|].
  split; [reflexivity|]. split; [reflexivity|].
  intros n. eexists. split.
  - apply (set_on_empty_tables this P2 v); [apply lookup_insert_eq|exact Hne|reflexivity..].
  - split.
    + unfold Property_get. cbn [record put_prop with_props props]. now rewrite lookup_insert_eq.
    + cbn [record trace put_prop with_props]. now rewrite <- app_assoc.
Qed.

(** X12. [B.disconnect_auditors()] with [A] bound to [B] erases [A]'s
    forwarding slot with the rest. [A] is not told: it still records [B]
    as its source, but a later [B.set(v)] no longer reaches it. A later
    [A.disconnect()] still returns: it erases an id that is not there. *)
Theorem disconnect_auditors_cuts_dependents (A B : nat) (v : T) w (n : nat) :
  Bound code A B w ->
  exists w1,
    Property_disconnect_auditors B w = Done w1 /\
    m_connection <$> props w1 !! A = Some (Some B) /\
    Property_get A w1 = Property_get A w /\
    (Property_get B w <> Some v ->
     exists w2,
       Property_set (Signal_emit code n) B (ByValue v) w1 = Done w2 /\
       Property_get B w2 = Some v /\ Property_get A w2 = Property_get A w) /\
    exists w3,
      Property_disconnect A w1 = Done w3 /\
      m_connection <$> props w3 !! A = Some None /\
      m_slots <$> get_signal (OnChange B) w3 = Some [].
Proof.
  intros (HAB & PA & PB & HA & HB & (Hconn & _)).
  set (P1 := with_on_change (Signal_disconnect_all (m_on_change PB)) PB).
  set (P2 := with_prior_to_change (Signal_disconnect_all (m_prior_to_change PB)) P1).
  set (w1 := put_prop B P2 (put_prop B P1 w)).
  assert (props w1 !! B = Some P2) as HB1 by apply lookup_insert_eq.
  assert (props w1 !! A = Some PA) as HA1.
  { subst w1. cbn [put_prop with_props props]. now rewrite !lookup_insert_ne by auto. }
  exists w1. split; [now apply disconnect_auditors_store|].
  split; [now rewrite HA1, <- Hconn|].
  split; [unfold Property_get; now rewrite HA1, HA|]. split.
  - intros Hne. eexists. split.
    + apply (set_on_empty_tables B P2 v); [exact HB1| |reflexivity..].
      intros ->. apply Hne. unfold Property_get. now rewrite HB.
    + unfold Property_get. cbn [record put_prop with_props props].
      rewrite lookup_insert_eq. split; [reflexivity|].
      rewrite lookup_insert_ne by auto. fold (put_prop B P1 w). fold (put_prop B P2 (put_prop B P1 w)).
      fold w1. now rewrite HA1, HA.
  - eexists. split.
    + unfold Property_disconnect, disconnect_at. rewrite HA1, Hconn.
      cbn [get_signal put_signal]. rewrite HB1. cbn [option_fmap option_map fmap bind].
      cbn [put_prop with_props props]. rewrite lookup_insert_ne by auto.
      fold (put_prop B P1 w). fold (put_prop B P2 (put_prop B P1 w)). fold w1.
      rewrite HA1. reflexivity.
    + cbn [get_signal put_prop with_props props]. rewrite lookup_insert_eq.
      split; [reflexivity|]. rewrite lookup_insert_ne by auto. now rewrite lookup_insert_eq.
Qed.

(** X13. With [A] bound to [B]: [B.set_with_no_emit(v)] leaves [A] with the
    value it had; a [B.touch()] after it forwards [v], so that [A] holds
    [v] as well and the binding is as before. *)
Theorem touch_publishes_silent_write (A B : nat) (v : T) w (n : nat) :
  Bound code A B w -> binding_fuel A B w <= n ->
  exists w1 w2,
    Property_set_with_no_emit B (ByValue v) w = Done w1 /\
    Property_get A w1 = Property_get A w /\
    Property_touch (Signal_emit code n) B w1 = Done w2 /\
    Bound code A B w2 /\
    Property_get A w2 = Some v /\ Property_get B w2 = Some v.
Proof.
  intros (HAB & PA & PB & HA & HB & HL) Hn.
  rewrite (binding_fuel_eq A B PA PB w HA HB) in Hn.
  pose proof HL as (_ & (l1 & e & l2 & Hl & _ & He & Hobs) & Hsorted & HqB & HqA1 & HqA2).
  set (w1 := put_prop B (with_value v PB) w).
  assert (props w1 !! B = Some (with_value v PB)) as HB1 by apply lookup_insert_eq.
  assert (props w1 !! A = Some PA) as HA1.
  { subst w1. cbn [put_prop with_props props]. now rewrite lookup_insert_ne by auto. }
  assert (exists w2,
    Property_touch (Signal_emit code n) B w1 = Done w2 /\
    props w2 = <[A := with_value v PA]> (props w1)) as (w2 & Hrun & Hp).
  { unfold Property_touch. rewrite HB1.
    destruct (emit_quiet n (PriorToChange B) (m_prior_to_change PB) v w1)
      as (wa & Hrun1 & Hsame1 & _); [cbn [get_signal]; now rewrite HB1|assumption|lia|].
    change (m_value (with_value v PB)) with v. rewrite Hrun1. cbn [bind].
    rewrite (same_objects_prop B w1 wa Hsame1), HB1.
    change (m_value (with_value v PB)) with v.
    destruct (emit_forward A B PA (m_on_change PB) l1 l2 e v wa n HAB)
      as (w2 & tr & Hrun & Hp & _); try assumption.
    { now rewrite (same_objects_prop A w1 wa Hsame1). }
    { cbn [get_signal]. now rewrite (same_objects_prop B w1 wa Hsame1), HB1. }
    { lia. }
    exists w2. split; [exact Hrun|]. destruct Hsame1 as [Hp1 _]. now rewrite Hp, Hp1. }
  assert (props w2 !! A = Some (with_value v PA)) as HA2
    by (rewrite Hp; apply lookup_insert_eq).
  assert (props w2 !! B = Some (with_value v PB)) as HB2.
  { rewrite Hp. now rewrite lookup_insert_ne by auto. }
  exists w1, w2.
  split; [unfold Property_set_with_no_emit; now rewrite HB|].
  split; [unfold Property_get; now rewrite HA1, HA|].
  split; [exact Hrun|]. split.
  - split; [assumption|]. exists (with_value v PA), (with_value v PB).
    split; [assumption|]. split; [assumption|exact HL].
  - unfold Property_get. now rewrite HA2, HB2.
Qed.

(** X14. A binding with one end gone (nothing in the class unregisters a
    property that ceases to exist). With the source gone, [disconnect()]
    and every [connect_from] of the dependent go through the dangling
    [m_connection]. With the dependent gone and its forwarding slot still
    in the source's table, a [set] of the source with a new value calls
    [set] on the dangling [this]. Neither call completes. *)
Theorem dangling_binding_faults (A B : nat) w :
  (forall (PA : Property), props w !! A = Some PA -> m_connection PA = Some B ->
     props w !! B = None ->
     Property_disconnect A w = Fault /\
     forall (em : @Emitter T U) S, Property_connect_from em A S w = Fault) /\
  (forall (PB : Property) (l1 l2 : list Entry) (e : Entry) (v : T) (n : nat),
     props w !! B = Some PB -> props w !! A = None ->
     m_slots (m_on_change PB) = l1 ++ e :: l2 -> fn e = SetFrom A ->
     sorted (m_slots (m_on_change PB)) ->
     Forall (fun e => observer_slot code (fn e)) l1 ->
     quiet code (m_prior_to_change PB) -> v <> m_value PB ->
     length (m_slots (m_prior_to_change PB)) <= n -> length l1 < n ->
     Property_set (Signal_emit code n) B (ByValue v) w = Fault).
Proof.
  split.
  - intros PA HA Hconn HB.
    assert (Property_disconnect A w = Fault) as Hd.
    { unfold Property_disconnect, disconnect_at. rewrite HA, Hconn.
      cbn [get_signal]. now rewrite HB. }
    split; [exact Hd|]. intros em S. unfold Property_connect_from. now rewrite Hd.
  - intros PB l1 l2 e v n HB HA Hl He Hsorted Hobs HqB Hne Hn1 Hn2.
    assert (A <> B) as HAB by (intros ->; congruence).
    unfold Property_set. rewrite HB. cbn [deref].
    rewrite bool_decide_eq_false_2 by exact Hne.
    destruct (emit_quiet n (PriorToChange B) (m_prior_to_change PB) (m_value PB) w)
      as (w1 & Hrun1 & Hsame1 & _); [cbn [get_signal]; now rewrite HB|assumption..|].
    rewrite Hrun1. cbn [bind]. rewrite (same_objects_prop B w w1 Hsame1), HB.
    set (w2 := put_prop B (with_value v PB) w1).
    assert (get_signal (OnChange B) w2 = Some (m_on_change PB)) as Hsg2.
    { cbn [get_signal w2 put_prop with_props props]. now rewrite lookup_insert_eq. }
    assert (props w2 !! A = None) as HA2.
    { cbn [w2 put_prop with_props props]. rewrite lookup_insert_ne by auto.
      now rewrite (same_objects_prop A w w1 Hsame1). }
    rewrite Signal_emit_rest, Hsg2, Hl.
    assert (get_signal (OnChange B) (record (EvEmit (OnChange B) v) w2)
            = Some (m_on_change PB)) as Hsg3.
    { now rewrite (get_signal_same _ w2) by apply same_objects_record. }
    replace n with (length l1 + (n - length l1)) by lia.
    destruct (emit_rest_prefix l1 (n - length l1) _ _ [] e l2 v _ Hsg3 Hl Hsorted Hobs)
      as (w3 & Hrun3 & Hsame3 & _).
    rewrite Hrun3. destruct (n - length l1) as [|m] eqn:Hm; [lia|].
    rewrite emit_loop_S, He. cbn [invoke]. unfold Property_set.
    change (props (record (EvCall (OnChange B) (key e) v) w3)) with (props w3).
    rewrite (same_objects_prop A _ w3 Hsame3).
    change (props (record (EvEmit (OnChange B) v) w2)) with (props w2).
    now rewrite HA2.
Qed.

(** X15. Move assignment. The target goes through [set] with the other's
    value, read through the reference, so the other's value is copied and
    the target's slots are told as for any [set]; the other is then reset
    to [T{}] by a plain store: none of its signals is emitted. Assigned to
    itself, a property ends up holding [T{}] without any emission. *)
Theorem move_assign_resets_source (dflt : T) (this xi_other : nat) (PQ PP : Property)
    w (n : nat) :
  props w !! this = Some PQ -> props w !! xi_other = Some PP ->
  (this = xi_other ->
   forall em : @Emitter T U,
     Property_move_assign em dflt this xi_other w =
       Done (put_prop this (with_value dflt PQ) w)) /\
  (this <> xi_other ->
   quiet code (m_prior_to_change PQ) -> quiet code (m_on_change PQ) ->
   length (m_slots (m_prior_to_change PQ)) <= n ->
   length (m_slots (m_on_change PQ)) <= n ->
   exists w' tr,
     Property_move_assign (Signal_emit code n) dflt this xi_other w = Done w' /\
     props w' =
       <[xi_other := with_value dflt PP]> (<[this := with_value (m_value PP) PQ]> (props w)) /\
     trace w' = trace w ++ tr /\
     fired (OnChange xi_other) tr = 0 /\ fired (PriorToChange xi_other) tr = 0 /\
     fired (OnChange this) tr = (if bool_decide (m_value PP = m_value PQ) then 0 else 1)).
Proof.
  intros HQ HP. split.
  - intros <- em. rewrite HQ in HP. injection HP as <-.
    unfold Property_move_assign, Property_set. rewrite HQ. cbn [deref]. rewrite HQ.
    cbn [option_fmap option_map fmap]. rewrite bool_decide_eq_true_2 by reflexivity.
    cbn [bind]. now rewrite HQ.
  - intros Hne Hq1 Hq2 Hn1 Hn2. unfold Property_move_assign.
    assert (deref (ValueOf xi_other) w = Some (m_value PP)) as Hv
      by (cbn [deref]; now rewrite HP).
    destruct (decide (m_value PP = m_value PQ)) as [Heq|Hdiff].
    + exists (put_prop xi_other (with_value dflt PP) w), [].
      unfold Property_set. rewrite HQ, Hv. rewrite !bool_decide_eq_true_2 by exact Heq.
      cbn [bind]. rewrite HP. rewrite app_nil_r.
      split; [reflexivity|]. split; [|now repeat split].
      cbn [put_prop with_props props]. f_equal. symmetry. apply insert_id.
      now rewrite HQ, Heq, with_value_id.
    + destruct (set_quiet this (ValueOf xi_other) (m_value PP) w PQ n HQ Hv Hdiff Hq1 Hq2 Hn1 Hn2)
        as (w1 & Hset & Hp1 & _ & Htr1).
      rewrite Hset. cbn [bind].
      assert (props w1 !! xi_other = Some PP) as HP1.
      { rewrite Hp1. now rewrite lookup_insert_ne by auto. }
      rewrite HP1. eexists. eexists.
      split; [reflexivity|]. split; [cbn [put_prop with_props props]; now rewrite Hp1|].
      split; [cbn [put_prop with_props trace]; exact Htr1|].
      rewrite bool_decide_eq_false_2 by exact Hdiff.
      assert (PriorToChange this <> OnChange xi_other) by discriminate.
      assert (OnChange this <> OnChange xi_other) by (intros [= ?]; contradiction).
      assert (PriorToChange this <> PriorToChange xi_other) by (intros [= ?]; contradiction).
      assert (OnChange this <> PriorToChange xi_other) by discriminate.
      split; [|split].
      * rewrite fired_app, !fired_emit_other, !fired_calls by assumption. reflexivity.
      * rewrite fired_app, !fired_emit_other, !fired_calls by assumption. reflexivity.
      * rewrite fired_app, fired_emit_other, fired_calls, fired_emit_same, fired_calls;
          [reflexivity|discriminate].
Qed.

(** ** Bindings that meet: cycles and chains *)

Lemma emissions_app (tr1 tr2 : list (@Event T)) :
  emissions (tr1 ++ tr2) = emissions tr1 ++ emissions tr2.
Proof.
  induction tr1 as [|[s x|s k x] tr1 IH]; cbn [app emissions]; [reflexivity| |exact IH].
  now rewrite IH.
Qed.

Lemma emissions_calls s x (es : list Entry) : emissions (calls s x es) = [].
Proof. induction es as [|e es IH]; [reflexivity|exact IH]. Qed.

(** [A.set(v)] with a new value, a forwarding slot to [B] sitting in [A]'s
    [m_on_change] among observers, [B] holding [v] by the time the slot
    runs: the slot finds nothing to do, and [set] goes as with observers
    only. *)
Lemma set_with_settled_forward (A B : nat) (PA : Property) (la1 la2 : list Entry)
    (ea : Entry) (v : T) w (n : nat) :
  props w !! A = Some PA -> v <> m_value PA ->
  m_slots (m_on_change PA) = la1 ++ ea :: la2 -> fn ea = SetFrom B ->
  sorted (m_slots (m_on_change PA)) ->
  Forall (fun e => observer_slot code (fn e)) (la1 ++ la2) ->
  quiet code (m_prior_to_change PA) ->
  (exists PBv, <[A := with_value v PA]> (props w) !! B = Some PBv /\ m_value PBv = v) ->
  length (m_slots (m_prior_to_change PA)) <= n ->
  length (m_slots (m_on_change PA)) <= n ->
  exists w',
    Property_set (Signal_emit code n) A (ByValue v) w = Done w' /\
    props w' = <[A := with_value v PA]> (props w) /\
    signals w' = signals w /\
    trace w' = trace w
      ++ (EvEmit (PriorToChange A) (m_value PA)
            :: calls (PriorToChange A) (m_value PA) (m_slots (m_prior_to_change PA)))
      ++ (EvEmit (OnChange A) v :: calls (OnChange A) v (m_slots (m_on_change PA))).
Proof.
  intros HA Hne Hl He Hsorted Hobs Hq (PBv & HBv & Hval) Hn1 Hn2.
  unfold Property_set. rewrite HA. cbn [deref].
  rewrite bool_decide_eq_false_2 by exact Hne.
  destruct (emit_quiet n (PriorToChange A) (m_prior_to_change PA) (m_value PA) w)
    as (w1 & Hrun1 & Hsame1 & Htr1); [cbn [get_signal]; now rewrite HA|assumption..|].
  rewrite Hrun1. cbn [bind]. rewrite (same_objects_prop A w w1 Hsame1), HA.
  destruct Hsame1 as [Hp1 Hs1].
  set (w2 := put_prop A (with_value v PA) w1).
  assert (props w2 = <[A := with_value v PA]> (props w)) as Hp2
    by (cbn [w2 put_prop with_props props]; now rewrite Hp1).
  assert (get_signal (OnChange A) w2 = Some (m_on_change PA)) as Hsg2.
  { cbn [get_signal]. rewrite Hp2. now rewrite lookup_insert_eq. }
  rewrite Hl, length_app in Hn2. cbn [length] in Hn2.
  destruct (emit_special (fun wa wb => wb = wa) (OnChange A) (m_on_change PA) la1 la2 ea
              v w2 n 0 Hsg2 Hl Hsorted Hobs) as (wa & wb & w' & Hrun & Hsa & Htra & -> & Hsb & Htrb).
  { intros m wa _ Hsa. exists wa. rewrite He. cbn [invoke]. split; [|split; [|reflexivity]].
    - unfold Property_set. rewrite (same_objects_prop B w2 wa Hsa), Hp2, HBv. cbn [deref].
      now rewrite bool_decide_eq_true_2.
    - now rewrite (get_signal_same _ w2 wa Hsa). }
  { lia. }
  exists w'. split; [exact Hrun|].
  destruct Hsa as [Hpa Hsa], Hsb as [Hpb Hsb].
  split; [now rewrite Hpb, Hpa|]. split; [rewrite Hsb, Hsa; exact Hs1|].
  rewrite Htrb, Htra. cbn [w2 put_prop with_props trace]. rewrite Htr1, Hl.
  unfold calls. rewrite List.map_app. cbn [List.map].
  rewrite <- !app_assoc. cbn [app]. rewrite <- !app_assoc. reflexivity.
Qed.

(** [B.set(v)] with a new value when one slot of [B]'s [m_on_change] is a
    forwarding slot and the others observe: the slots of
    [m_prior_to_change], the store, the observers before the forwarding
    slot, the forwarding slot (which does [R]), the observers after it. *)
Lemma set_forwarding (R : World -> World -> Prop) (B : nat) (PB : Property)
    (lb1 lb2 : list Entry) (eb : Entry) (v : T) w (n m0 : nat) :
  props w !! B = Some PB -> v <> m_value PB ->
  m_slots (m_on_change PB) = lb1 ++ eb :: lb2 -> sorted (m_slots (m_on_change PB)) ->
  Forall (fun e => observer_slot code (fn e)) (lb1 ++ lb2) ->
  quiet code (m_prior_to_change PB) ->
  (forall m wa, m0 <= m ->
     props wa = <[B := with_value v PB]> (props w) -> signals wa = signals w ->
     exists wb, invoke code (Signal_emit code m) (fn eb) v wa = Done wb /\
                props wb !! B = Some (with_value v PB) /\ R wa wb) ->
  length (m_slots (m_prior_to_change PB)) <= n ->
  length lb1 + S (m0 + length lb2) <= n ->
  exists wa wb w',
    Property_set (Signal_emit code n) B (ByValue v) w = Done w' /\
    props wa = <[B := with_value v PB]> (props w) /\ signals wa = signals w /\
    trace wa = trace w
      ++ (EvEmit (PriorToChange B) (m_value PB)
            :: calls (PriorToChange B) (m_value PB) (m_slots (m_prior_to_change PB)))
      ++ (EvEmit (OnChange B) v :: calls (OnChange B) v lb1 ++ [EvCall (OnChange B) (key eb) v]) /\
    R wa wb /\
    same_objects wb w' /\ trace w' = trace wb ++ calls (OnChange B) v lb2.
Proof.
  intros HB Hne Hl Hsorted Hobs Hq Hstep Hn1 Hn2.
  unfold Property_set. rewrite HB. cbn [deref].
  rewrite bool_decide_eq_false_2 by exact Hne.
  destruct (emit_quiet n (PriorToChange B) (m_prior_to_change PB) (m_value PB) w)
    as (w1 & Hrun1 & Hsame1 & Htr1); [cbn [get_signal]; now rewrite HB|assumption..|].
  rewrite Hrun1. cbn [bind]. rewrite (same_objects_prop B w w1 Hsame1), HB.
  destruct Hsame1 as [Hp1 Hs1].
  set (w2 := put_prop B (with_value v PB) w1).
  assert (props w2 = <[B := with_value v PB]> (props w)) as Hp2
    by (cbn [w2 put_prop with_props props]; now rewrite Hp1).
  assert (get_signal (OnChange B) w2 = Some (m_on_change PB)) as Hsg2.
  { cbn [get_signal]. rewrite Hp2. now rewrite lookup_insert_eq. }
  destruct (emit_special
              (fun wa wb => props wb !! B = Some (with_value v PB) /\ R wa wb)
              (OnChange B) (m_on_change PB) lb1 lb2 eb v w2 n m0 Hsg2 Hl Hsorted Hobs)
    as (wa & wb & w' & Hrun & Hsa & Htra & [HBb HR] & Hsb & Htrb).
  { intros m wa Hm [Hpa Hsa].
    destruct (Hstep m wa Hm) as (wb & Hinv & HBb & HR).
    - now rewrite Hpa.
    - rewrite Hsa. exact Hs1.
    - exists wb. split; [exact Hinv|]. split; [|now split].
      cbn [get_signal]. now rewrite HBb. }
  { exact Hn2. }
  exists wa, wb, w'. split; [exact Hrun|]. destruct Hsa as [Hpa Hsa].
  split; [now rewrite Hpa|]. split; [rewrite Hsa; exact Hs1|].
  split; [|split; [exact HR|split; [exact Hsb|exact Htrb]]].
  rewrite Htra. cbn [w2 put_prop with_props trace]. rewrite Htr1.
  rewrite <- !app_assoc. reflexivity.
Qed.

(** X16. Two properties bound to each other, each holding the forwarding
    slot of the other among observers. [B.set(v)] with a value new to
    both returns: [B] stores [v] and forwards it, [A] stores [v] and
    forwards it back, and [B], holding [v] already, stops there. Each of
    the four signals is emitted once, [B]'s before [A]'s. *)
Theorem binding_cycle_settles (A B : nat) (PA PB : Property)
    (la1 la2 lb1 lb2 : list Entry) (ea eb : Entry) (v : T) w (n : nat) :
  A <> B -> props w !! A = Some PA -> props w !! B = Some PB ->
  m_slots (m_on_change PB) = lb1 ++ eb :: lb2 -> fn eb = SetFrom A ->
  sorted (m_slots (m_on_change PB)) ->
  Forall (fun e => observer_slot code (fn e)) (lb1 ++ lb2) ->
  m_slots (m_on_change PA) = la1 ++ ea :: la2 -> fn ea = SetFrom B ->
  sorted (m_slots (m_on_change PA)) ->
  Forall (fun e => observer_slot code (fn e)) (la1 ++ la2) ->
  quiet code (m_prior_to_change PA) -> quiet code (m_prior_to_change PB) ->
  v <> m_value PA -> v <> m_value PB ->
  binding_fuel A B w <= n ->
  exists w' tr,
    Property_set (Signal_emit code n) B (ByValue v) w = Done w' /\
    props w' = <[A := with_value v PA]> (<[B := with_value v PB]> (props w)) /\
    signals w' = signals w /\
    trace w' = trace w ++ tr /\
    emissions tr = [(PriorToChange B, m_value PB); (OnChange B, v);
                    (PriorToChange A, m_value PA); (OnChange A, v)].
Proof.
  intros HAB HA HB Hlb Heb Hsb Hobsb Hla Hea Hsa Hobsa HqA HqB HneA HneB Hn.
  rewrite (binding_fuel_eq A B PA PB w HA HB) in Hn.
  pose proof Hn as Hn'. rewrite Hlb, length_app in Hn'. cbn [length] in Hn'.
  destruct (set_forwarding
              (fun wa wb =>
                 props wb = <[A := with_value v PA]> (props wa) /\ signals wb = signals wa /\
                 trace wb = trace wa
                   ++ (EvEmit (PriorToChange A) (m_value PA)
                         :: calls (PriorToChange A) (m_value PA) (m_slots (m_prior_to_change PA)))
                   ++ (EvEmit (OnChange A) v :: calls (OnChange A) v (m_slots (m_on_change PA))))
              B PB lb1 lb2 eb v w n
              (length (m_slots (m_prior_to_change PA)) + length (m_slots (m_on_change PA)))
              HB HneB Hlb Hsb Hobsb HqB)
    as (wa & wb & w' & Hrun & Hpa & Hsga & Htra & (Hpb & Hsgb & Htrb) & [Hpw Hsw] & Htrw).
  { intros m wx Hm Hpx Hsx. rewrite Heb. cbn [invoke].
    destruct (set_with_settled_forward A B PA la1 la2 ea v wx m) as (wy & Hset & Hpy & Hsy & Htry);
      try assumption; try lia.
    - rewrite Hpx. now rewrite lookup_insert_ne by auto.
    - exists (with_value v PB). rewrite Hpx. rewrite lookup_insert_ne by auto.
      rewrite lookup_insert_eq. now split.
    - exists wy. split; [exact Hset|]. split; [|now repeat split].
      rewrite Hpy, Hpx. rewrite lookup_insert_ne by auto. apply lookup_insert_eq. }
  { lia. }
  { lia. }
  eexists w', _. split; [exact Hrun|].
  split; [now rewrite Hpw, Hpb, Hpa|]. split; [now rewrite Hsw, Hsgb, Hsga|].
  split.
  { rewrite Htrw, Htrb, Htra. rewrite <- !app_assoc. reflexivity. }
  rewrite !emissions_app. cbn [emissions]. rewrite !emissions_app. cbn [emissions].
  now rewrite !emissions_calls.
Qed.

(** X17. A chain of bindings, [A] from [B] from [C], the other slots
    observing. [C.set(v)] with a value new to all three returns with the
    three properties holding [v], and the six signals are emitted depth
    first: [C] before and after, inside that [B] before and after, inside
    that [A] before and after. *)
Theorem binding_chain_cascades (A B C : nat) (PA PB PC : Property)
    (lb1 lb2 lc1 lc2 : list Entry) (eb ec : Entry) (v : T) w (n : nat) :
  A <> B -> A <> C -> B <> C ->
  props w !! A = Some PA -> props w !! B = Some PB -> props w !! C = Some PC ->
  m_slots (m_on_change PC) = lc1 ++ ec :: lc2 -> fn ec = SetFrom B ->
  sorted (m_slots (m_on_change PC)) ->
  Forall (fun e => observer_slot code (fn e)) (lc1 ++ lc2) ->
  m_slots (m_on_change PB) = lb1 ++ eb :: lb2 -> fn eb = SetFrom A ->
  sorted (m_slots (m_on_change PB)) ->
  Forall (fun e => observer_slot code (fn e)) (lb1 ++ lb2) ->
  quiet code (m_on_change PA) ->
  quiet code (m_prior_to_change PA) -> quiet code (m_prior_to_change PB) ->
  quiet code (m_prior_to_change PC) ->
  v <> m_value PA -> v <> m_value PB -> v <> m_value PC ->
  binding_fuel A B w + binding_fuel B C w <= n ->
  exists w' tr,
    Property_set (Signal_emit code n) C (ByValue v) w = Done w' /\
    props w' =
      <[A := with_value v PA]> (<[B := with_value v PB]> (<[C := with_value v PC]> (props w))) /\
    signals w' = signals w /\
    trace w' = trace w ++ tr /\
    emissions tr = [(PriorToChange C, m_value PC); (OnChange C, v);
                    (PriorToChange B, m_value PB); (OnChange B, v);
                    (PriorToChange A, m_value PA); (OnChange A, v)].
Proof.
  intros HAB HAC HBC HA HB HC Hlc Hec Hsc Hobsc Hlb Heb Hsb Hobsb HqA1 HqA2 HqB HqC
    HneA HneB HneC Hn.
  rewrite (binding_fuel_eq A B PA PB w HA HB), (binding_fuel_eq B C PB PC w HB HC) in Hn.
  pose proof Hn as Hn'. rewrite Hlc, Hlb, !length_app in Hn'. cbn [length] in Hn'.
  set (fA := length (m_slots (m_prior_to_change PA)) + length (m_slots (m_on_change PA))).
  set (fB := length (m_slots (m_prior_to_change PB)) + length lb1 + S (fA + length lb2)).
  set (RA := fun wa wb : @World T U =>
               props wb = <[A := with_value v PA]> (props wa) /\ signals wb = signals wa /\
               exists tr, trace wb = trace wa ++ tr /\
                 emissions tr = [(PriorToChange A, m_value PA); (OnChange A, v)]).
  set (RB := fun wa wb : @World T U =>
               props wb = <[A := with_value v PA]> (<[B := with_value v PB]> (props wa)) /\
               signals wb = signals wa /\
               exists tr, trace wb = trace wa ++ tr /\
                 emissions tr = [(PriorToChange B, m_value PB); (OnChange B, v);
                                 (PriorToChange A, m_value PA); (OnChange A, v)]).
  destruct (set_forwarding RB C PC lc1 lc2 ec v w n fB HC HneC Hlc Hsc Hobsc HqC)
    as (wa & wb & w' & Hrun & Hpa & Hsga & Htra & (Hpb & Hsgb & trb & Htrb & Hemb)
        & [Hpw Hsw] & Htrw).
  { intros m wx Hm Hpx Hsx. rewrite Hec. cbn [invoke].
    assert (props wx !! B = Some PB) as HBx.
    { rewrite Hpx. now rewrite lookup_insert_ne by auto. }
    destruct (set_forwarding RA B PB lb1 lb2 eb v wx m fA HBx HneB Hlb Hsb Hobsb HqB)
      as (wy & wz & wx' & Hset & Hpy & Hsy & Htry & (Hpz & Hsz & trz & Htrz & Hemz)
          & [Hpx' Hsx'] & Htrx');
      [|subst fB; lia|subst fB; lia|].
    - intros m' wy Hm' Hpy Hsy. rewrite Heb. cbn [invoke].
      destruct (set_quiet A (ByValue v) v wy PA m') as (wz & Hsetz & Hpz & Hsz & Htrz);
        try assumption; try reflexivity; try (subst fA; lia).
      + rewrite Hpy, lookup_insert_ne by auto. rewrite Hpx. now rewrite lookup_insert_ne by auto.
      + exists wz. split; [exact Hsetz|]. split; [|split; [exact Hpz|split; [exact Hsz|]]].
        * rewrite Hpz, lookup_insert_ne by auto. rewrite Hpy. apply lookup_insert_eq.
        * eexists. split; [exact Htrz|].
          rewrite !emissions_app. cbn [emissions]. now rewrite !emissions_calls.
    - exists wx'. split; [exact Hset|]. split; [|split; [|split]].
      + rewrite Hpx', Hpz, lookup_insert_ne by auto. rewrite Hpy, lookup_insert_ne by auto.
        rewrite Hpx. apply lookup_insert_eq.
      + now rewrite Hpx', Hpz, Hpy.
      + now rewrite Hsx', Hsz, Hsy.
      + eexists. split.
        { rewrite Htrx', Htrz, Htry. rewrite <- !app_assoc. reflexivity. }
        rewrite !emissions_app. cbn [emissions]. rewrite !emissions_app. cbn [emissions].
        rewrite !emissions_calls, Hemz. reflexivity. }
  { lia. }
  { subst fB fA. lia. }
  eexists w', _. split; [exact Hrun|].
  split; [now rewrite Hpw, Hpb, Hpa|]. split; [now rewrite Hsw, Hsgb, Hsga|].
  split.
  { rewrite Htrw, Htrb, Htra. rewrite <- !app_assoc. reflexivity. }
  rewrite !emissions_app. cbn [emissions]. rewrite !emissions_app. cbn [emissions].
  rewrite !emissions_calls, Hemb. reflexivity.
Qed.

(** ** Binding again *)

(** [A.disconnect()] with [A] linked to a live [B], in the store. *)
Lemma disconnect_store (A B : nat) (PA PB : Property) w :
  A <> B -> props w !! A = Some PA -> props w !! B = Some PB ->
  m_connection PA = Some B ->
  Property_disconnect A w =
    Done (put_prop A (with_connection None (with_connection_id SIZE_MAX PA))
            (put_prop B
               (with_on_change (Signal_disconnect (m_connection_id PA) (m_on_change PB)) PB)
               w)).
Proof.
  intros HAB HA HB Hconn.
  unfold Property_disconnect, disconnect_at. rewrite HA, Hconn.
  cbn [get_signal put_signal]. rewrite HB. cbn [option_fmap option_map fmap bind].
  cbn [put_prop with_props props]. rewrite lookup_insert_ne by auto. now rewrite HA.
Qed.

(** X18. [A.connect_from(B)] with [A] linked to another live source [C]:
    the forwarding node is erased from [C]'s [m_on_change], the other
    nodes of that table stay, [A] becomes bound to [B] and takes [B]'s
    value; [B] and [C] keep theirs. *)
Theorem rebind_moves_forwarding_slot (A B C : nat) (PA PB PC : Property)
    (l1 l2 : list Entry) (e : Entry) w (n : nat) :
  A <> B -> A <> C -> B <> C ->
  props w !! A = Some PA -> props w !! B = Some PB -> props w !! C = Some PC ->
  m_connection PA = Some C ->
  m_slots (m_on_change PC) = l1 ++ e :: l2 -> sorted (m_slots (m_on_change PC)) ->
  key e = m_connection_id PA ->
  Signal_ok (m_on_change PB) -> (m_id (m_on_change PB) < SIZE_MAX)%Z ->
  quiet code (m_on_change PB) -> quiet code (m_prior_to_change PB) ->
  quiet code (m_on_change PA) -> quiet code (m_prior_to_change PA) ->
  length (m_slots (m_on_change PA)) <= n ->
  length (m_slots (m_prior_to_change PA)) <= n ->
  exists w',
    Property_connect_from (Signal_emit code n) A B w = Done w' /\
    Bound code A B w' /\
    Property_get A w' = Property_get B w /\
    Property_get B w' = Property_get B w /\
    Property_get C w' = Property_get C w /\
    m_slots <$> get_signal (OnChange C) w' = Some (l1 ++ l2).
Proof.
  intros HAB HAC HBC HA HB HC Hconn Hl Hsorted Hkey Hok Hroom HqB1 HqB2 HqA1 HqA2 Hn1 Hn2.
  set (PA1 := with_connection None (with_connection_id SIZE_MAX PA)).
  set (PC1 := with_on_change (Signal_disconnect (m_connection_id PA) (m_on_change PC)) PC).
  set (w0 := put_prop A PA1 (put_prop C PC1 w)).
  assert (Property_disconnect A w = Done w0) as Hd by now apply disconnect_store.
  assert (props w0 !! A = Some PA1) as HA0 by apply lookup_insert_eq.
  assert (props w0 !! B = Some PB) as HB0.
  { cbn [w0 put_prop with_props props]. rewrite !lookup_insert_ne by auto. exact HB. }
  assert (props w0 !! C = Some PC1) as HC0.
  { cbn [w0 put_prop with_props props]. rewrite lookup_insert_ne by auto.
    apply lookup_insert_eq. }
  rewrite (connect_from_rebind _ A B PA1 w w0 Hd HA0).
  destruct (connect_from_unbound A B PA1 PB w0 n HAB HA0 HB0 eq_refl Hok Hroom HqA1 HqA2 Hn1 Hn2)
    as (w' & sgB & Hrun & Hp & _ & _ & _).
  destruct (connect_from_binds A B PA1 PB w0 n HAB HA0 HB0 eq_refl Hok Hroom
              HqB1 HqB2 HqA1 HqA2 Hn1 Hn2) as (w'' & Hrun' & Hbound & Hsync).
  rewrite Hrun in Hrun'. injection Hrun' as <-.
  exists w'. split; [exact Hrun|]. split; [exact Hbound|].
  assert (props w' !! B = Some (with_on_change sgB PB)) as HB'.
  { rewrite Hp. rewrite lookup_insert_ne by auto. apply lookup_insert_eq. }
  assert (props w' !! C = Some PC1) as HC'.
  { rewrite Hp. rewrite !lookup_insert_ne by auto. exact HC0. }
  assert (Property_get B w' = Property_get B w) as HgB.
  { unfold Property_get. now rewrite HB', HB. }
  split; [now rewrite Hsync|]. split; [exact HgB|]. split.
  - unfold Property_get. now rewrite HC', HC.
  - cbn [get_signal]. rewrite HC'.
    cbn [option_fmap option_map fmap PC1 with_on_change m_on_change Signal_disconnect m_slots].
    rewrite Hl, <- Hkey. now rewrite map_erase_mid by (rewrite <- Hl; exact Hsorted).
Qed.

(** X19. [A.connect_from(B)] with [A] linked to [B] already: the
    forwarding node is erased and a new one is appended with the next id,
    so [B]'s [m_on_change] holds one forwarding node for [A] again, now
    after every node that was behind the old one; [A] holds the new id
    and [B]'s value. *)
Theorem reconnect_same_source (A B : nat) (PA PB : Property)
    (l1 l2 : list Entry) (e : Entry) w (n : nat) :
  A <> B -> props w !! A = Some PA -> props w !! B = Some PB ->
  m_connection PA = Some B ->
  m_slots (m_on_change PB) = l1 ++ e :: l2 -> key e = m_connection_id PA ->
  Signal_ok (m_on_change PB) -> (m_id (m_on_change PB) < SIZE_MAX)%Z ->
  quiet code (m_on_change PA) -> quiet code (m_prior_to_change PA) ->
  length (m_slots (m_on_change PA)) <= n ->
  length (m_slots (m_prior_to_change PA)) <= n ->
  exists w' sg',
    Property_connect_from (Signal_emit code n) A B w = Done w' /\
    get_signal (OnChange B) w' = Some sg' /\
    m_slots sg' = l1 ++ l2 ++ [{| key := m_id (m_on_change PB) + 1;
                                  node := m_nodes (m_on_change PB); fn := SetFrom A |}] /\
    m_connection <$> props w' !! A = Some (Some B) /\
    m_connection_id <$> props w' !! A = Some (m_id (m_on_change PB) + 1)%Z /\
    Property_get A w' = Property_get B w /\ Property_get B w' = Property_get B w.
Proof.
  intros HAB HA HB Hconn Hl Hkey Hok Hroom HqA1 HqA2 Hn1 Hn2.
  set (PA1 := with_connection None (with_connection_id SIZE_MAX PA)).
  set (PB1 := with_on_change (Signal_disconnect (m_connection_id PA) (m_on_change PB)) PB).
  set (w0 := put_prop A PA1 (put_prop B PB1 w)).
  assert (Property_disconnect A w = Done w0) as Hd by now apply disconnect_store.
  assert (props w0 !! A = Some PA1) as HA0 by apply lookup_insert_eq.
  assert (props w0 !! B = Some PB1) as HB0.
  { cbn [w0 put_prop with_props props]. rewrite lookup_insert_ne by auto.
    apply lookup_insert_eq. }
  assert (Signal_ok (m_on_change PB1)) as Hok1 by now apply Signal_disconnect_ok.
  rewrite (connect_from_rebind _ A B PA1 w w0 Hd HA0).
  destruct (connect_from_unbound A B PA1 PB1 w0 n HAB HA0 HB0 eq_refl Hok1 Hroom
              HqA1 HqA2 Hn1 Hn2) as (w' & sgB & Hrun & Hp & _ & Hslots & _).
  assert (props w' !! B = Some (with_on_change sgB PB1)) as HB'.
  { rewrite Hp. rewrite lookup_insert_ne by auto. apply lookup_insert_eq. }
  assert (props w' !! A =
          Some (with_value (m_value PB1)
                  (with_connection_id (m_id (m_on_change PB1) + 1)
                     (with_connection (Some B) PA1)))) as HA'
    by (rewrite Hp; apply lookup_insert_eq).
  exists w', sgB. split; [exact Hrun|]. split; [cbn [get_signal]; now rewrite HB'|].
  split.
  { rewrite Hslots.
    cbn [PB1 with_on_change m_on_change Signal_disconnect m_slots m_id m_nodes].
    destruct Hok as (Hsorted & _). rewrite Hl in Hsorted |- *. rewrite <- Hkey.
    rewrite map_erase_mid by exact Hsorted. now rewrite <- app_assoc. }
  rewrite HA'. unfold Property_get. rewrite HA', HB', HB.
  now repeat split.
Qed.

(** X20. A property bound to itself. [A.connect_from(A)] puts a slot that
    forwards to [A] into [A]'s own [m_on_change]; a later [A.set(v)]
    with a new value still returns: when that slot runs, [A] holds [v]
    already and the inner [set] stops at once. Both signals are emitted
    once. *)
Theorem self_binding_is_harmless (A : nat) (PA : Property) (v : T) w (n : nat) :
  props w !! A = Some PA -> m_connection PA = None ->
  Signal_ok (m_on_change PA) -> (m_id (m_on_change PA) < SIZE_MAX)%Z ->
  quiet code (m_on_change PA) -> quiet code (m_prior_to_change PA) ->
  v <> m_value PA ->
  S (length (m_slots (m_on_change PA))) <= n ->
  length (m_slots (m_prior_to_change PA)) <= n ->
  exists w1 w2 sg1 tr,
    Property_connect_from (Signal_emit code n) A A w = Done w1 /\
    get_signal (OnChange A) w1 = Some sg1 /\
    m_slots sg1 = m_slots (m_on_change PA)
                    ++ [{| key := m_id (m_on_change PA) + 1;
                           node := m_nodes (m_on_change PA); fn := SetFrom A |}] /\
    m_connection <$> props w1 !! A = Some (Some A) /\
    Property_get A w1 = Property_get A w /\ trace w1 = trace w /\
    Property_set (Signal_emit code n) A (ByValue v) w1 = Done w2 /\
    Property_get A w2 = Some v /\
    trace w2 = trace w1 ++ tr /\
    emissions tr = [(PriorToChange A, m_value PA); (OnChange A, v)].
Proof.
  intros HA Hconn Hok Hroom HqA1 HqA2 Hne Hn1 Hn2.
  destruct (Signal_connect_ok (SetFrom A) (m_on_change PA) Hok Hroom)
    as (Hid & Hslots & _ & Hok').
  set (sg1 := fst (Signal_connect (SetFrom A) (m_on_change PA))) in *.
  set (P1 := with_connection (Some A) PA).
  set (P2 := with_on_change sg1 P1).
  set (P3 := with_connection_id (m_id (m_on_change PA) + 1) P2).
  set (wa := put_prop A P1 w).
  set (wb := put_prop A P2 wa).
  set (w1 := put_prop A P3 wb).
  assert (props w1 !! A = Some P3) as HA1 by apply lookup_insert_eq.
  assert (Property_connect_from (Signal_emit code n) A A w = Done w1) as Hrun.
  { unfold Property_connect_from, Property_disconnect. rewrite HA, Hconn. cbn [bind].
    rewrite HA. fold P1. fold wa.
    assert (props wa !! A = Some P1) as HAa by apply lookup_insert_eq.
    rewrite (connect_at_eq _ (m_on_change PA)) by (cbn [get_signal]; now rewrite HAa).
    cbn [bind]. fold sg1. rewrite Hid. cbn [put_signal]. rewrite HAa. fold P2. fold wb.
    assert (props wb !! A = Some P2) as HAb by apply lookup_insert_eq.
    rewrite HAb. fold P3. fold w1.
    unfold Property_set. rewrite HA1. cbn [deref]. rewrite HA1.
    cbn [option_fmap option_map fmap]. now rewrite bool_decide_eq_true_2. }
  assert (m_slots (m_on_change P3) =
          m_slots (m_on_change PA)
            ++ {| key := m_id (m_on_change PA) + 1; node := m_nodes (m_on_change PA);
                  fn := SetFrom A |} :: []) as Hl3 by exact Hslots.
  destruct (set_with_settled_forward A A P3 (m_slots (m_on_change PA)) []
              {| key := m_id (m_on_change PA) + 1; node := m_nodes (m_on_change PA);
                 fn := SetFrom A |} v w1 n HA1 Hne Hl3 eq_refl)
    as (w2 & Hset & Hp2 & _ & Htr2).
  { apply Hok'. }
  { rewrite app_nil_r. apply HqA1. }
  { exact HqA2. }
  { exists (with_value v P3). now rewrite lookup_insert_eq. }
  { exact Hn2. }
  { rewrite Hl3, length_app. cbn [length]. lia. }
  eexists w1, w2, sg1, _. split; [exact Hrun|].
  split; [cbn [get_signal]; now rewrite HA1|]. split; [exact Hslots|].
  split; [now rewrite HA1|]. split; [unfold Property_get; now rewrite HA1, HA|].
  split; [reflexivity|]. split; [exact Hset|].
  split; [unfold Property_get; rewrite Hp2; now rewrite lookup_insert_eq|].
  split; [exact Htr2|].
  rewrite !emissions_app. cbn [emissions]. now rewrite !emissions_calls.
Qed.

End Proofs.

(** ** Ids *)

Lemma cycles_m_id (n : nat) : forall sg,
  (0 <= m_id sg <= SIZE_MAX)%Z ->
  m_id (fst (run_ops (cycles n) sg)) = wrap (m_id sg + Z.of_nat n).
Proof.
  induction n as [|n IH]; intros sg Hsg.
  - cbn [cycles run_ops fst]. rewrite Z.add_0_r. symmetry. now apply wrap_small.
  - cbn [cycles run_ops]. destruct (Signal_connect (UserFn 0) sg) as [sg1 id1] eqn:Hc.
    unfold Signal_connect in Hc. injection Hc as <- _.
    match goal with |- context [run_ops (cycles n) ?sg'] => specialize (IH sg') end.
    destruct (run_ops (cycles n) _) as [sg2 ids]. cbn [fst] in *.
    rewrite IH.
    + cbn [Signal_disconnect_all m_id]. unfold wrap. rewrite Zplus_mod_idemp_l.
      f_equal. lia.
    + cbn [Signal_disconnect_all m_id]. unfold wrap.
      pose proof (Z.mod_pos_bound (m_id sg + 1) (2 ^ SIZE_BITS) eq_refl). unfold SIZE_MAX. lia.
Qed.

(** C7 (amended). From a new signal, through any run of [connect],
    [disconnect] and [disconnect_all] with at most [SIZE_MAX] calls of
    [connect], the k-th [connect] returns k: every id is greater than all
    ids returned before it, and no id is returned twice. *)
Theorem connect_ids_ascending (ops : list SignalOp) :
  (Z.of_nat (count_connects ops) <= SIZE_MAX)%Z ->
  snd (run_ops ops Signal_new) = List.map Z.of_nat (seq 1 (count_connects ops)) /\
  StronglySorted Z.lt (snd (run_ops ops Signal_new)) /\
  List.NoDup (snd (run_ops ops Signal_new)).
Proof.
  intros Hroom.
  pose proof (run_ops_ids ops Signal_new Signal_new_ok Hroom) as Hids.
  cbn [Signal_new m_id] in Hids.
  split; [|split].
  - rewrite Hids. apply List.map_ext. intros i. lia.
  - rewrite Hids. apply ascending_from.
  - rewrite Hids. apply Finite.Injective_map_NoDup; [|apply List.seq_NoDup].
    intros i j Hij. lia.
Qed.

(** The counter wraps: after [SIZE_MAX] rounds of connect / disconnect_all
    on a new signal the id [SIZE_MAX] has been returned, and the next
    [connect] returns 0. *)
Lemma connect_ids_wrap :
  In SIZE_MAX (snd (run_ops (cycles (Z.to_nat SIZE_MAX)) Signal_new)) /\
  snd (Signal_connect (UserFn 0) (fst (run_ops (cycles (Z.to_nat SIZE_MAX)) Signal_new)))
    = 0%Z /\
  ~ (SIZE_MAX < 0)%Z.
Proof.
  assert (Z.of_nat (Z.to_nat SIZE_MAX) = SIZE_MAX) as HN by (apply Z2Nat.id; discriminate).
  generalize dependent (Z.to_nat SIZE_MAX). intros N HN.
  split; [|split].
  - rewrite cycles_ids. apply in_map_iff. exists N. split.
    + cbn [Signal_new m_id]. rewrite Z.add_0_l, HN. reflexivity.
    + apply in_seq. assert (0 < Z.of_nat N)%Z by (rewrite HN; reflexivity). lia.
  - cbn [Signal_connect snd]. rewrite cycles_m_id.
    + cbn [Signal_new m_id]. rewrite Z.add_0_l, HN. reflexivity.
    + cbn [Signal_new m_id]. split; [reflexivity|discriminate].
  - discriminate.
Qed.

Lemma connect_ids_ascending_witness :
  (Z.of_nat (count_connects
               [OpConnect (UserFn 0); OpConnect (UserFn 4); OpDisconnect 1;
                OpConnect (UserFn 5); OpDisconnectAll; OpConnect (UserFn 0)]) <= SIZE_MAX)%Z /\
  snd (run_ops [OpConnect (UserFn 0); OpConnect (UserFn 4); OpDisconnect 1;
                OpConnect (UserFn 5); OpDisconnectAll; OpConnect (UserFn 0)] Signal_new)
    = [1; 2; 3; 4]%Z.
Proof.
  split; [vm_compute; discriminate|].
  refine (proj1 (connect_ids_ascending _ _)). vm_compute. discriminate.
Defined.

(** ** The program run *)

Lemma demo_observer (f : nat) : f = 0 \/ 3 < f < 30 -> observer demo_code f.
Proof.
  intros Hf em x w. exists (with_user ((f, x) :: user w) w).
  split; [|split; [split|]; reflexivity].
  unfold demo_code. destruct (Nat.eqb_spec f 30) as [->|_]; [lia|].
  destruct f as [|[|[|[|f]]]]; try reflexivity; lia.
Qed.

Lemma demo_observer_slot (f : nat) :
  f = 0 \/ 3 < f < 30 -> observer_slot demo_code (UserFn f).
Proof. intros Hf. exists f. split; [reflexivity|now apply demo_observer]. Qed.

Lemma demo_connector : connector demo_code 1 (FreeSignal 0) (UserFn 0).
Proof. intros em x w. reflexivity. Qed.

(** The run of [test_property_2]: [OutputValue] follows [InputValue]
    through 2, 4, 6, [CriticalSituation] ends up set, and its slot is
    called once, on the third assignment. *)
Example test_property_2 :
  exists w,
    test2_run [2; 4; 6]%Z = Done w /\
    Property_get 1 w = Some 6%Z /\ Property_get 2 w = Some 1%Z /\
    user w = [(31, 1%Z); (30, 6%Z); (30, 4%Z); (30, 2%Z)] /\
    fired (OnChange 1) (trace w) = 3 /\ fired (OnChange 2) (trace w) = 1.
Proof.
  eexists. split; [vm_compute; reflexivity|]. repeat split; reflexivity.
Qed.

(** Scenario of an integer property with a counter on [m_on_change]:
    [set(5)], [set(5)], [set_with_no_emit(9)], [touch()]. *)
Example test_counter :
  let em := Signal_emit demo_code 2 in
  let w0 := {| props := {[ 0 := @Property_of_value Z 0%Z ]};
               signals := ∅; user := []; trace := [] |} in
  exists w,
    (do r <- connect_at (OnChange 0) (UserFn 0) w0 ;
     do w1 <- Property_set em 0 (ByValue 5%Z) (fst r) ;
     do w2 <- Property_set em 0 (ByValue 5%Z) w1 ;
     do w3 <- Property_set_with_no_emit 0 (ByValue 9%Z) w2 ;
     Property_touch em 0 w3) = Done w /\
    Property_get 0 w = Some 9%Z /\
    user w = [(0, 9%Z); (0, 5%Z)].
Proof.
  eexists. split; [vm_compute; reflexivity|]. split; reflexivity.
Qed.

(** [emit] is not a snapshot: the only slot at entry has id 1, it connects
    a logger, and the logger (id 2) is called by the same [emit]. *)
Lemma emit_not_snapshot :
  keys (m_slots (demo_signal [UserFn 1])) = [1%Z] /\
  exists w',
    Signal_emit demo_code 2 (FreeSignal 0) 7%Z (demo_world [UserFn 1]) = Done w' /\
    trace w' = [EvEmit (FreeSignal 0) 7%Z; EvCall (FreeSignal 0) 1 7%Z;
                EvCall (FreeSignal 0) 2 7%Z] /\
    user w' = [(0, 7%Z)].
Proof.
  split; [reflexivity|]. eexists. repeat split; reflexivity.
Qed.

Lemma demo_quiet (f : nat) :
  f = 0 \/ 3 < f < 30 -> quiet demo_code (demo_signal [UserFn f]).
Proof.
  intros Hf. split; cbn.
  - repeat constructor.
  - repeat constructor. now apply demo_observer_slot.
Qed.

Lemma demo_signal_ok (cs : list Slot) :
  (Z.of_nat (length cs) <= SIZE_MAX)%Z -> Signal_ok (demo_signal cs).
Proof.
  unfold demo_signal. intros Hroom.
  assert (forall sg, Signal_ok sg -> (m_id sg + Z.of_nat (length cs) <= SIZE_MAX)%Z ->
          Signal_ok (List.fold_left (fun sg c => fst (Signal_connect c sg)) cs sg)) as Hgen.
  { clear Hroom. induction cs as [|c cs IH]; intros sg Hok Hroom; [exact Hok|].
    cbn [List.fold_left length] in *.
    destruct (Signal_connect_ok c sg Hok ltac:(lia)) as (_ & _ & Hm & Hok').
    apply IH; [exact Hok'|]. rewrite Hm. lia. }
  apply Hgen; [apply Signal_new_ok|exact Hroom].
Qed.

(** The link of [A] (address 0) to [B] (address 1) in a store computed
    from [demo_props]. *)
Ltac demo_linked :=
  split; [discriminate|]; eexists; eexists;
  split; [vm_compute; reflexivity|]; split; [vm_compute; reflexivity|];
  split; [reflexivity|]; split;
  [ exists [{| key := 1; node := 0; fn := UserFn 20 |}],
           {| key := 2; node := 1; fn := SetFrom 0 |}, [];
    split; [reflexivity|]; split; [reflexivity|]; split; [reflexivity|];
    repeat constructor; apply demo_observer_slot; lia
  | split; [cbn; repeat constructor|];
    split; [apply (demo_quiet 21); lia|];
    split; [apply (demo_quiet 10); lia|apply (demo_quiet 11); lia] ].

Lemma demo_bound_Bound : Bound demo_code 0 1 demo_bound.
Proof. demo_linked. Qed.

(** A silent write to the source leaves a bound dependent behind: [A] is
    still linked to [B], and they hold 5 and 7. *)
Lemma binding_broken_by_silent_set :
  Property_connect_from (Signal_emit demo_code 3) 0 1 demo_props = Done demo_bound /\
  Property_get 0 demo_bound = Property_get 1 demo_bound /\
  exists w2,
    Property_set_with_no_emit 1 (ByValue 7%Z) demo_bound = Done w2 /\
    Bound demo_code 0 1 w2 /\
    Property_get 0 w2 = Some 5%Z /\ Property_get 1 w2 = Some 7%Z /\
    Property_get 0 w2 <> Property_get 1 w2.
Proof.
  split; [vm_compute; reflexivity|]. split; [vm_compute; reflexivity|].
  eexists. split; [vm_compute; reflexivity|].
  split; [demo_linked|].
  split; [vm_compute; reflexivity|]. split; [vm_compute; reflexivity|].
  vm_compute. discriminate.
Qed.

Lemma emit_reaches_new_slot_witness :
  Signal_ok (demo_signal [UserFn 0; UserFn 1; UserFn 4]) /\
  connector demo_code 1 (FreeSignal 0) (UserFn 0) /\
  exists w',
    Signal_emit demo_code 4 (FreeSignal 0) 7%Z (demo_world [UserFn 0; UserFn 1; UserFn 4])
      = Done w' /\
    trace w' = [EvEmit (FreeSignal 0) 7%Z; EvCall (FreeSignal 0) 1 7%Z;
                EvCall (FreeSignal 0) 2 7%Z; EvCall (FreeSignal 0) 3 7%Z;
                EvCall (FreeSignal 0) 4 7%Z].
Proof.
  assert (Signal_ok (demo_signal [UserFn 0; UserFn 1; UserFn 4])) as Hok
    by (apply demo_signal_ok; vm_compute; discriminate).
  split; [exact Hok|]. split; [exact demo_connector|].
  destruct (emit_reaches_new_slot demo_code (FreeSignal 0)
              (demo_signal [UserFn 0; UserFn 1; UserFn 4])
              [{| key := 1; node := 0; fn := UserFn 0 |}]
              [{| key := 3; node := 2; fn := UserFn 4 |}]
              {| key := 2; node := 1; fn := UserFn 1 |} 1 (UserFn 0) 7%Z
              (demo_world [UserFn 0; UserFn 1; UserFn 4]) 4)
    as (w' & Hrun & Htr & _).
  - reflexivity.
  - exact Hok.
  - vm_compute. reflexivity.
  - reflexivity.
  - reflexivity.
  - exact demo_connector.
  - repeat constructor; apply demo_observer_slot; lia.
  - apply demo_observer_slot. lia.
  - vm_compute. lia.
  - exists w'. split; [exact Hrun|exact Htr].
Defined.

Lemma emit_self_disconnect_faults_witness :
  disconnector demo_code 2 (FreeSignal 0) 1 /\
  Signal_emit demo_code 2 (FreeSignal 0) 7%Z (demo_world [UserFn 2; UserFn 0]) = Fault /\
  disconnector demo_code 3 (FreeSignal 0) 2 /\
  exists w',
    Signal_emit demo_code 3 (FreeSignal 0) 7%Z (demo_world [UserFn 3; UserFn 0; UserFn 4])
      = Done w' /\
    trace w' = [EvEmit (FreeSignal 0) 7%Z; EvCall (FreeSignal 0) 1 7%Z;
                EvCall (FreeSignal 0) 3 7%Z].
Proof.
  assert (disconnector demo_code 2 (FreeSignal 0) 1) as Hd2 by (intros em x w; reflexivity).
  assert (disconnector demo_code 3 (FreeSignal 0) 2) as Hd3 by (intros em x w; reflexivity).
  split; [exact Hd2|]. split; [|split; [exact Hd3|]].
  - apply (proj1 (emit_self_disconnect_faults demo_code (FreeSignal 0)
                    (demo_signal [UserFn 2; UserFn 0]) []
                    [{| key := 2; node := 1; fn := UserFn 0 |}]
                    {| key := 1; node := 0; fn := UserFn 2 |} 2 1 7%Z
                    (demo_world [UserFn 2; UserFn 0]) 2
                    eq_refl
                    ltac:(cbn; repeat constructor)
                    eq_refl eq_refl Hd2
                    ltac:(repeat constructor; apply demo_observer_slot; lia)
                    (le_n 2))).
    reflexivity.
  - destruct (proj2 (emit_self_disconnect_faults demo_code (FreeSignal 0)
                    (demo_signal [UserFn 3; UserFn 0; UserFn 4]) []
                    [{| key := 2; node := 1; fn := UserFn 0 |};
                     {| key := 3; node := 2; fn := UserFn 4 |}]
                    {| key := 1; node := 0; fn := UserFn 3 |} 3 2 7%Z
                    (demo_world [UserFn 3; UserFn 0; UserFn 4]) 3
                    eq_refl
                    ltac:(cbn; repeat constructor)
                    eq_refl eq_refl Hd3
                    ltac:(repeat constructor; apply demo_observer_slot; lia)
                    (le_n 3)) ltac:(discriminate))
      as (w' & Hrun & Htr & _).
    exists w'. split; [exact Hrun|exact Htr].
Defined.

Lemma binding_preserved_by_source_set_witness :
  Bound demo_code 0 1 demo_bound /\
  Property_get 0 demo_bound = Property_get 1 demo_bound /\
  binding_fuel 0 1 demo_bound <= 5 /\
  Property_get 1 demo_bound <> Some 9%Z /\
  (exists w',
     Property_set (Signal_emit demo_code 5) 1 (ByValue 9%Z) demo_bound = Done w' /\
     Bound demo_code 0 1 w' /\
     Property_get 0 w' = Some 9%Z /\ Property_get 1 w' = Some 9%Z) /\
  (exists w',
     Property_touch (Signal_emit demo_code 5) 1 demo_bound = Done w' /\
     same_objects demo_bound w' /\
     Property_get 0 w' = Some 5%Z /\ Property_get 1 w' = Some 5%Z) /\
  (exists w',
     Property_touch (Signal_emit demo_code 5) 0 demo_bound = Done w' /\
     same_objects demo_bound w' /\
     Property_get 0 w' = Some 5%Z /\ Property_get 1 w' = Some 5%Z) /\
  (exists w',
     Property_set_with_no_emit 1 (ByValue 9%Z) demo_bound = Done w' /\
     Bound demo_code 0 1 w' /\
     Property_get 0 w' = Some 5%Z /\ Property_get 1 w' = Some 9%Z) /\
  (exists w',
     Property_set_with_no_emit 0 (ByValue 9%Z) demo_bound = Done w' /\
     Bound demo_code 0 1 w' /\
     Property_get 0 w' = Some 9%Z /\ Property_get 1 w' = Some 5%Z) /\
  (exists w',
     Property_set (Signal_emit demo_code 5) 0 (ByValue 9%Z) demo_bound = Done w' /\
     Bound demo_code 0 1 w' /\
     Property_get 0 w' = Some 9%Z /\ Property_get 1 w' = Some 5%Z).
Proof.
  assert (Property_get 0 demo_bound = Property_get 1 demo_bound) as Hsync
    by (vm_compute; reflexivity).
  assert (binding_fuel 0 1 demo_bound <= 5) as Hfuel by (vm_compute; lia).
  assert (Property_get 1 demo_bound <> Some 9%Z) as Hnew by (vm_compute; discriminate).
  assert (Property_get 0 demo_bound = Some 5%Z) as HgA by (vm_compute; reflexivity).
  assert (Property_get 1 demo_bound = Some 5%Z) as HgB by (vm_compute; reflexivity).
  split; [exact demo_bound_Bound|]. split; [exact Hsync|]. split; [exact Hfuel|].
  split; [exact Hnew|].
  destruct (binding_preserved_by_source_set demo_code 0 1 9%Z demo_bound 5
              demo_bound_Bound Hsync Hfuel)
    as (Hset & (w2 & Ht2 & _ & _ & Hs2 & Ha2 & Hb2) & (w3 & Ht3 & _ & _ & Hs3 & Ha3 & Hb3)
        & Hbreak).
  destruct (Hbreak Hnew)
    as ((w4 & Hr4 & Hl4 & _ & Ha4 & Hb4 & _) & (w5 & Hr5 & Hl5 & _ & Ha5 & Hb5 & _)
        & (w6 & Hr6 & Hl6 & Ha6 & Hb6 & _)).
  split; [exact Hset|].
  split; [exists w2; rewrite Ha2, Hb2; now repeat (split; [assumption|])|].
  split; [exists w3; rewrite Ha3, Hb3; now repeat (split; [assumption|])|].
  split; [exists w4; rewrite Ha4; now repeat (split; [assumption|])|].
  split; [exists w5; rewrite Hb5; now repeat (split; [assumption|])|].
  exists w6. rewrite Hb6. now repeat (split; [assumption|]).
Defined.

Lemma set_equal_is_silent_witness :
  props demo_props !! 0 = Some (demo_prop 0 10) /\
  deref (ByValue 0%Z) demo_props = Some (m_value (demo_prop 0 10)) /\
  Property_set (Signal_emit demo_code 0) 0 (ByValue 0%Z) demo_props = Done demo_props.
Proof.
  assert (props demo_props !! 0 = Some (demo_prop 0 10)) as H1 by reflexivity.
  assert (deref (ByValue 0%Z) demo_props = Some (m_value (demo_prop 0 10))) as H2
    by reflexivity.
  split; [exact H1|]. split; [exact H2|].
  exact (proj1 (set_equal_is_silent (Signal_emit demo_code 0) 0 (ByValue 0%Z)
                  demo_props (demo_prop 0 10) H1 H2)).
Defined.

Lemma set_changed_fires_in_order_witness :
  props demo_props !! 0 = Some (demo_prop 0 10) /\
  9%Z <> m_value (demo_prop 0 10) /\
  quiet demo_code (m_prior_to_change (demo_prop 0 10)) /\
  quiet demo_code (m_on_change (demo_prop 0 10)) /\
  exists w',
    Property_set (Signal_emit demo_code 1) 0 (ByValue 9%Z) demo_props = Done w' /\
    Property_get 0 w' = Some 9%Z /\
    trace w' = [EvEmit (PriorToChange 0) 0%Z; EvCall (PriorToChange 0) 1 0%Z;
                EvEmit (OnChange 0) 9%Z; EvCall (OnChange 0) 1 9%Z].
Proof.
  assert (props demo_props !! 0 = Some (demo_prop 0 10)) as H1 by reflexivity.
  assert (9%Z <> m_value (demo_prop 0 10)) as H2 by discriminate.
  assert (quiet demo_code (m_prior_to_change (demo_prop 0 10))) as H3
    by (apply (demo_quiet 11); lia).
  assert (quiet demo_code (m_on_change (demo_prop 0 10))) as H4
    by (apply (demo_quiet 10); lia).
  split; [exact H1|]. split; [exact H2|]. split; [exact H3|]. split; [exact H4|].
  destruct (set_changed_fires_in_order demo_code 0 (ByValue 9%Z) 9%Z demo_props
              (demo_prop 0 10) 1 H1 eq_refl H2 H3 H4 (le_n 1) (le_n 1))
    as (_ & w1 & w' & tr1 & tr2 & _ & Htr1 & -> & _ & _ & _ & Htr2 & -> & Hset & Hget & _).
  exists w'. split; [exact Hset|]. split; [exact Hget|].
  rewrite Htr2, Htr1. reflexivity.
Defined.

Lemma emit_calls_in_connection_order_witness :
  let cs := [UserFn 0; UserFn 30; SetFrom 2; UserFn 4] in
  get_signal (FreeSignal 0) demo_fresh = Some Signal_new /\
  (exists w1 w',
     connect_all (FreeSignal 0) cs demo_fresh = Done w1 /\
     table_kept demo_code 4 (FreeSignal 0) 7%Z (number_from 0 0 cs)
       (record (EvEmit (FreeSignal 0) 7%Z) w1) /\
     Signal_emit demo_code 4 (FreeSignal 0) 7%Z w1 = Done w' /\
     trace w' = [EvEmit (FreeSignal 0) 7%Z; EvCall (FreeSignal 0) 1 7%Z;
                 EvCall (FreeSignal 0) 2 7%Z; EvEmit (PriorToChange 2) 0%Z;
                 EvCall (PriorToChange 2) 1 0%Z; EvEmit (OnChange 2) 1%Z;
                 EvCall (OnChange 2) 1 1%Z; EvCall (FreeSignal 0) 3 7%Z;
                 EvEmit (PriorToChange 2) 1%Z; EvCall (PriorToChange 2) 1 1%Z;
                 EvEmit (OnChange 2) 7%Z; EvCall (OnChange 2) 1 7%Z;
                 EvCall (FreeSignal 0) 4 7%Z] /\
     Property_get 2 w' = Some 7%Z) /\
  get_signal (FreeSignal 0) (demo_world []) = Some Signal_new /\
  Forall (observer_slot demo_code) [UserFn 0; UserFn 4] /\
  exists w1 w',
    connect_all (FreeSignal 0) [UserFn 0; UserFn 4] (demo_world []) = Done w1 /\
    Signal_emit demo_code 2 (FreeSignal 0) 7%Z w1 = Done w' /\
    trace w' = [EvEmit (FreeSignal 0) 7%Z; EvCall (FreeSignal 0) 1 7%Z;
                EvCall (FreeSignal 0) 2 7%Z] /\
    user w' = [(4, 7%Z); (0, 7%Z)].
Proof.
  intros cs.
  assert (get_signal (FreeSignal 0) demo_fresh = Some Signal_new) as H0 by reflexivity.
  assert (get_signal (FreeSignal 0) (demo_world []) = Some Signal_new) as H1 by reflexivity.
  assert (Forall (observer_slot demo_code) [UserFn 0; UserFn 4]) as Hobs
    by (repeat constructor; apply demo_observer_slot; lia).
  split; [exact H0|]. split; [|split; [exact H1|split; [exact Hobs|]]].
  - destruct (emit_calls_in_connection_order demo_code cs (FreeSignal 0) 7%Z demo_fresh 4
                H0 ltac:(vm_compute; discriminate))
      as (w1 & Hconn & _ & _ & Hseq & _).
    assert (table_kept demo_code 4 (FreeSignal 0) 7%Z (number_from 0 0 cs)
              (record (EvEmit (FreeSignal 0) 7%Z) w1)) as Hkept.
    { injection Hconn as <-. vm_compute. repeat split. }
    exists w1. eexists. split; [exact Hconn|]. split; [exact Hkept|].
    rewrite (Hseq Hkept). injection Hconn as <-.
    split; [vm_compute; reflexivity|]. split; reflexivity.
  - destruct (emit_calls_in_connection_order demo_code [UserFn 0; UserFn 4] (FreeSignal 0)
                7%Z (demo_world []) 2 H1 ltac:(vm_compute; discriminate))
      as (w1 & Hconn & _ & _ & _ & _ & Hret).
    destruct (Hret Hobs (le_n 2)) as (w' & Hrun & _ & Htr).
    exists w1, w'. split; [exact Hconn|]. split; [exact Hrun|].
    injection Hconn as <-. split; [exact Htr|].
    vm_compute in Hrun. injection Hrun as <-. reflexivity.
Defined.

Lemma disconnect_removes_exactly_witness :
  get_signal (FreeSignal 0) (demo_world [UserFn 0; UserFn 4])
    = Some (demo_signal [UserFn 0; UserFn 4]) /\
  quiet demo_code (demo_signal [UserFn 0; UserFn 4]) /\
  map_find 7 (m_slots (demo_signal [UserFn 0; UserFn 4])) = None /\
  Signal_disconnect 7 (demo_signal [UserFn 0; UserFn 4]) = demo_signal [UserFn 0; UserFn 4] /\
  exists w1 w',
    disconnect_at (FreeSignal 0) 1 (demo_world [UserFn 0; UserFn 4]) = Done w1 /\
    Signal_emit demo_code 2 (FreeSignal 0) 7%Z w1 = Done w' /\
    trace w' = [EvEmit (FreeSignal 0) 7%Z; EvCall (FreeSignal 0) 2 7%Z].
Proof.
  assert (get_signal (FreeSignal 0) (demo_world [UserFn 0; UserFn 4])
          = Some (demo_signal [UserFn 0; UserFn 4])) as H1 by reflexivity.
  assert (quiet demo_code (demo_signal [UserFn 0; UserFn 4])) as H2.
  { split; cbn; repeat constructor; apply demo_observer_slot; lia. }
  assert (map_find 7 (m_slots (demo_signal [UserFn 0; UserFn 4])) = None) as H3
    by reflexivity.
  split; [exact H1|]. split; [exact H2|]. split; [exact H3|].
  split.
  - exact (proj1 (proj2 (disconnect_removes_exactly demo_code 7
                           (demo_signal [UserFn 0; UserFn 4]))) H3).
  - destruct (proj2 (proj2 (proj2 (disconnect_removes_exactly demo_code 1
                                     (demo_signal [UserFn 0; UserFn 4]))))
                (FreeSignal 0) 7%Z (demo_world [UserFn 0; UserFn 4]) 2 H1 H2 (le_n 2))
      as (w1 & w' & Hd & _ & Hrun & Htr).
    exists w1, w'. split; [exact Hd|]. split; [exact Hrun|exact Htr].
Defined.

Lemma binding_propagation_witness :
  Property_disconnect 0 demo_props = Done demo_props /\
  props demo_props !! 0 = Some (demo_prop 0 10) /\
  props demo_props !! 1 = Some (demo_prop 5 20) /\
  Signal_ok (m_on_change (demo_prop 5 20)) /\
  quiet demo_code (m_on_change (demo_prop 5 20)) /\
  quiet demo_code (m_prior_to_change (demo_prop 5 20)) /\
  quiet demo_code (m_on_change (demo_prop 0 10)) /\
  quiet demo_code (m_prior_to_change (demo_prop 0 10)) /\
  binding_fuel 0 1 demo_props < 5 /\
  exists w1 w2 w3 w4,
    Property_connect_from (Signal_emit demo_code 5) 0 1 demo_props = Done w1 /\
    Property_get 0 w1 = Some 5%Z /\
    Property_set (Signal_emit demo_code 5) 1 (ByValue 9%Z) w1 = Done w2 /\
    Property_get 0 w2 = Some 9%Z /\
    Property_disconnect 0 w2 = Done w3 /\
    Property_set (Signal_emit demo_code 5) 1 (ByValue 11%Z) w3 = Done w4 /\
    Property_get 0 w4 = Some 9%Z.
Proof.
  assert (props demo_props !! 0 = Some (demo_prop 0 10)) as HA by reflexivity.
  assert (props demo_props !! 1 = Some (demo_prop 5 20)) as HB by reflexivity.
  assert (Signal_ok (m_on_change (demo_prop 5 20))) as Hok
    by (apply (demo_signal_ok [UserFn 20]); vm_compute; discriminate).
  assert (quiet demo_code (m_on_change (demo_prop 5 20))) as Hq1 by (apply (demo_quiet 20); lia).
  assert (quiet demo_code (m_prior_to_change (demo_prop 5 20))) as Hq2
    by (apply (demo_quiet 21); lia).
  assert (quiet demo_code (m_on_change (demo_prop 0 10))) as Hq3 by (apply (demo_quiet 10); lia).
  assert (quiet demo_code (m_prior_to_change (demo_prop 0 10))) as Hq4
    by (apply (demo_quiet 11); lia).
  assert (binding_fuel 0 1 demo_props < 5) as Hfuel by (vm_compute; lia).
  split; [reflexivity|].
  repeat (split; [assumption|]).
  destruct (binding_propagation demo_code 0 1 (demo_prop 0 10) (demo_prop 5 20) 9%Z 11%Z
              demo_props demo_props 5 ltac:(discriminate) eq_refl HA HB Hok
              ltac:(vm_compute; reflexivity) Hq1 Hq2 Hq3 Hq4 ltac:(discriminate) Hfuel)
    as (w1 & w2 & w3 & w4 & tr2 & tr4 & H1 & H2 & H3 & H4 & H5 & _ & _ & H8 & _ & H10 & H11 & _).
  exists w1, w2, w3, w4. rewrite H2, H3.
  repeat (split; [first [assumption|reflexivity]|]). assumption.
Defined.

Lemma copy_takes_value_only_witness :
  props demo_props !! 1 = Some (demo_prop 5 20) /\
  props demo_props !! 0 = Some (demo_prop 0 10) /\
  m_value (demo_prop 5 20) <> m_value (demo_prop 0 10) /\
  quiet demo_code (m_prior_to_change (demo_prop 0 10)) /\
  quiet demo_code (m_on_change (demo_prop 0 10)) /\
  Property_get 2 (put_prop 2 (Property_copy (demo_prop 5 20)) demo_props) = Some 5%Z /\
  exists w' tr,
    Property_assign (Signal_emit demo_code 1) 0 1 demo_props = Done w' /\
    props w' = <[0 := with_value 5%Z (demo_prop 0 10)]> (props demo_props) /\
    trace w' = trace demo_props ++ tr /\
    fired (PriorToChange 0) tr = 1 /\ fired (OnChange 0) tr = 1.
Proof.
  assert (props demo_props !! 1 = Some (demo_prop 5 20)) as HP by reflexivity.
  assert (props demo_props !! 0 = Some (demo_prop 0 10)) as HQ by reflexivity.
  assert (m_value (demo_prop 5 20) <> m_value (demo_prop 0 10)) as Hne by discriminate.
  assert (quiet demo_code (m_prior_to_change (demo_prop 0 10))) as Hq1
    by (apply (demo_quiet 11); lia).
  assert (quiet demo_code (m_on_change (demo_prop 0 10))) as Hq2
    by (apply (demo_quiet 10); lia).
  repeat (split; [assumption|]).
  split; [reflexivity|].
  destruct (proj2 (proj2 (proj2 (proj2 (copy_takes_value_only demo_code 0 1
              (demo_prop 0 10) (demo_prop 5 20) demo_props 1 HP)) HQ))
              Hne Hq1 Hq2 (le_n 1) (le_n 1))
    as (w' & tr & Hrun & Hp & _ & Htr & Hf1 & Hf2).
  exists w', tr. repeat (split; [assumption|]). assumption.
Defined.

(** * Further properties of the slot table *)

Lemma run_ops_fst_connect (c : Slot) (rest : list SignalOp) (sg : Signal) :
  fst (run_ops (OpConnect c :: rest) sg) = fst (run_ops rest (fst (Signal_connect c sg))).
Proof.
  cbn [run_ops]. destruct (Signal_connect c sg) as [sg1 id1].
  cbn [fst]. now destruct (run_ops rest sg1).
Qed.

Lemma run_ops_state (ops : list SignalOp) : forall sg,
  Signal_ok sg ->
  (m_id sg + Z.of_nat (count_connects ops) <= SIZE_MAX)%Z ->
  Signal_ok (fst (run_ops ops sg)) /\
  m_id (fst (run_ops ops sg)) = (m_id sg + Z.of_nat (count_connects ops))%Z.
Proof.
  induction ops as [|op rest IH]; intros sg Hok Hroom.
  - cbn [run_ops fst count_connects List.filter length]. split; [exact Hok|lia].
  - destruct op as [c|id|].
    + rewrite run_ops_fst_connect.
      change (count_connects (OpConnect c :: rest)) with (S (count_connects rest)) in *.
      destruct (Signal_connect_ok c sg Hok ltac:(lia)) as (_ & _ & Hm & Hok').
      destruct (IH _ Hok' ltac:(lia)) as [Hok2 Hm2].
      split; [exact Hok2|]. rewrite Hm2, Hm. lia.
    + apply (IH (Signal_disconnect id sg)); [now apply Signal_disconnect_ok|exact Hroom].
    + apply (IH (Signal_disconnect_all sg)); [now apply Signal_disconnect_all_ok|exact Hroom].
Qed.

Lemma sorted_keys_NoDup (l : list Entry) : sorted l -> List.NoDup (keys l).
Proof.
  unfold sorted, keys. induction 1 as [|h t Ht IH Hh]; cbn [List.map]; constructor.
  - intros Hin. apply in_map_iff in Hin as (y & Hy & Hin).
    rewrite List.Forall_forall in Hh. specialize (Hh y Hin). lia.
  - exact IH.
Qed.

(** X1. From a new signal, through any run of [connect], [disconnect] and
    [disconnect_all] with at most [SIZE_MAX] calls of [connect]: the table
    is in ascending key order without a repeated key, every key in it is
    an id that [connect] returned, and the counter is the number of
    [connect]s so far. *)
Theorem table_invariant (ops : list SignalOp) :
  (Z.of_nat (count_connects ops) <= SIZE_MAX)%Z ->
  Signal_ok (fst (run_ops ops Signal_new)) /\
  m_id (fst (run_ops ops Signal_new)) = Z.of_nat (count_connects ops) /\
  List.NoDup (keys (m_slots (fst (run_ops ops Signal_new)))) /\
  Forall (fun k => In k (snd (run_ops ops Signal_new)))
    (keys (m_slots (fst (run_ops ops Signal_new)))).
Proof.
  intros Hroom.
  destruct (run_ops_state ops Signal_new Signal_new_ok Hroom) as [Hok Hm].
  cbn [Signal_new m_id] in Hm. rewrite Z.add_0_l in Hm.
  split; [exact Hok|]. split; [exact Hm|]. split; [apply sorted_keys_NoDup, Hok|].
  rewrite (run_ops_ids ops Signal_new Signal_new_ok Hroom). cbn [Signal_new m_id].
  destruct Hok as (_ & Hk & _). unfold keys. rewrite List.Forall_forall in *.
  intros k Hin. apply in_map_iff in Hin as (e & <- & Hin). specialize (Hk e Hin).
  apply in_map_iff. exists (Z.to_nat (key e)). split; [lia|]. apply in_seq. lia.
Qed.

Lemma map_find_app (k : Z) (l1 l2 : list Entry) :
  map_find k (l1 ++ l2) =
    match map_find k l1 with Some e => Some e | None => map_find k l2 end.
Proof.
  unfold map_find. induction l1 as [|h t IH]; cbn [app List.find]; [reflexivity|].
  now destruct (key h =? k)%Z.
Qed.

Lemma map_find_above (k : Z) (l : list Entry) :
  Forall (fun e => (key e < k)%Z) l -> map_find k l = None.
Proof.
  unfold map_find. induction 1 as [|h t Hh _ IH]; cbn [List.find]; [reflexivity|].
  destruct (Z.eqb_spec (key h) k); [lia|exact IH].
Qed.

Lemma Signal_ok_below (sg : Signal) :
  Signal_ok sg -> Forall (fun e => (key e < m_id sg + 1)%Z) (m_slots sg).
Proof.
  intros (_ & Hk & _). eapply List.Forall_impl; [|exact Hk]. cbn beta. intros; lia.
Qed.

(** X2. [connect] on a signal whose counter has room: the id it returns was
    not in the table, now maps to the slot given, and every other id maps
    to what it mapped to; the table is one longer; [disconnect] of that id
    gives the table back. *)
Theorem connect_then_lookup (c : Slot) (sg : Signal) :
  Signal_ok sg -> (m_id sg < SIZE_MAX)%Z ->
  map_find (snd (Signal_connect c sg)) (m_slots sg) = None /\
  fn <$> map_find (snd (Signal_connect c sg)) (m_slots (fst (Signal_connect c sg))) = Some c /\
  (forall k, k <> snd (Signal_connect c sg) ->
     map_find k (m_slots (fst (Signal_connect c sg))) = map_find k (m_slots sg)) /\
  length (m_slots (fst (Signal_connect c sg))) = S (length (m_slots sg)) /\
  m_slots (Signal_disconnect (snd (Signal_connect c sg)) (fst (Signal_connect c sg)))
    = m_slots sg.
Proof.
  intros Hok Hroom.
  destruct (Signal_connect_ok c sg Hok Hroom) as (Hid & Hslots & _ & _).
  pose proof (Signal_ok_below sg Hok) as Hbelow.
  rewrite Hid, Hslots.
  assert (map_find (m_id sg + 1) (m_slots sg) = None) as Hnone by now apply map_find_above.
  split; [exact Hnone|]. split; [|split; [|split]].
  - rewrite map_find_app, Hnone. unfold map_find. cbn [List.find key].
    now rewrite Z.eqb_refl.
  - intros k Hk. rewrite map_find_app. destruct (map_find k (m_slots sg)); [reflexivity|].
    unfold map_find. cbn [List.find key].
    destruct (Z.eqb_spec (m_id sg + 1) k); [congruence|reflexivity].
  - rewrite length_app. cbn [length]. lia.
  - cbn [Signal_disconnect m_slots]. rewrite Hslots.
    apply (map_erase_last (m_slots sg)
             {| key := m_id sg + 1; node := m_nodes sg; fn := c |}). exact Hbelow.
Qed.

Lemma map_find_Some (k : Z) (l : list Entry) (e : Entry) :
  map_find k l = Some e -> In e l /\ key e = k.
Proof.
  unfold map_find. intros Hf. apply List.find_some in Hf as [Hin Hk].
  split; [exact Hin|]. now apply Z.eqb_eq.
Qed.

(** [std::map::insert] with a key that is in the table changes nothing. *)
Lemma map_insert_present (e e' : Entry) (l : list Entry) :
  sorted l -> map_find (key e) l = Some e' -> map_insert e l = l.
Proof.
  unfold sorted. induction 1 as [|h t Ht IH Hh]; intros Hf; [discriminate|].
  cbn [map_insert]. unfold map_find in Hf. cbn [List.find] in Hf.
  destruct (Z.eqb_spec (key h) (key e)) as [Heq|Hne].
  - destruct (Z.ltb_spec (key e) (key h)); [lia|].
    destruct (Z.eqb_spec (key e) (key h)); [reflexivity|lia].
  - pose proof (map_find_Some (key e) t e' Hf) as [Hin Hk].
    rewrite List.Forall_forall in Hh. specialize (Hh e' Hin).
    destruct (Z.ltb_spec (key e) (key h)); [lia|].
    destruct (Z.eqb_spec (key e) (key h)); [lia|].
    f_equal. apply IH. exact Hf.
Qed.

(** X3. [connect] does not look at what [insert] answers. When the next
    value of the counter is a key of the table (which takes a wrapped
    counter), the table stays as it is, the slot given is dropped, and the
    id returned is that of the slot already there: [disconnect] of the
    returned id erases that other slot. *)
Theorem connect_on_taken_id (c : Slot) (sg : Signal) (e : Entry) :
  sorted (m_slots sg) ->
  map_find (wrap (m_id sg + 1)) (m_slots sg) = Some e ->
  m_slots (fst (Signal_connect c sg)) = m_slots sg /\
  snd (Signal_connect c sg) = key e /\
  map_find (snd (Signal_connect c sg)) (m_slots (fst (Signal_connect c sg))) = Some e /\
  m_slots (Signal_disconnect (snd (Signal_connect c sg)) (fst (Signal_connect c sg)))
    = map_erase (key e) (m_slots sg).
Proof.
  intros Hsorted Hfind.
  pose proof (map_find_Some _ _ _ Hfind) as [_ Hk].
  assert (m_slots (fst (Signal_connect c sg)) = m_slots sg) as Hsame.
  { cbn [Signal_connect fst m_slots].
    apply (map_insert_present
             {| key := wrap (m_id sg + 1); node := m_nodes sg; fn := c |} e);
      assumption. }
  cbn [Signal_connect snd] in *.
  split; [exact Hsame|]. split; [now rewrite Hk|].
  split; [now rewrite Hsame|].
  cbn [Signal_disconnect m_slots]. now rewrite Hsame, Hk.
Qed.

Lemma run_ops_keeps_free (id : Z) (ops : list SignalOp) : forall sg,
  Signal_ok sg -> (id <= m_id sg)%Z -> map_find id (m_slots sg) = None ->
  (m_id sg + Z.of_nat (count_connects ops) <= SIZE_MAX)%Z ->
  map_find id (m_slots (fst (run_ops ops sg))) = None.
Proof.
  induction ops as [|op rest IH]; intros sg Hok Hid Hfree Hroom; [exact Hfree|].
  destruct op as [c|j|].
  - rewrite run_ops_fst_connect.
    change (count_connects (OpConnect c :: rest)) with (S (count_connects rest)) in *.
    destruct (Signal_connect_ok c sg Hok ltac:(lia)) as (_ & Hslots & Hm & Hok').
    apply IH; [exact Hok'|lia| |lia].
    rewrite Hslots, map_find_app, Hfree. unfold map_find. cbn [List.find key].
    destruct (Z.eqb_spec (m_id sg + 1) id); [lia|reflexivity].
  - apply (IH (Signal_disconnect j sg)); [now apply Signal_disconnect_ok|exact Hid| |exact Hroom].
    cbn [Signal_disconnect m_slots]. rewrite map_find_erase, Hfree.
    now destruct (id =? j)%Z.
  - apply (IH (Signal_disconnect_all sg));
      [now apply Signal_disconnect_all_ok|exact Hid|reflexivity|exact Hroom].
Qed.

(** X5. An id that was disconnected stays free: whatever [connect],
    [disconnect] and [disconnect_all] follow (the counter having room for
    the [connect]s), no slot gets that id again, so a later [disconnect]
    with the stale id, as a property that kept it would do, erases
    nothing. *)
Theorem stale_id_stays_free (id : Z) (ops : list SignalOp) (sg : Signal) :
  Signal_ok sg -> (id <= m_id sg)%Z ->
  (m_id sg + Z.of_nat (count_connects ops) <= SIZE_MAX)%Z ->
  map_find id (m_slots (fst (run_ops ops (Signal_disconnect id sg)))) = None /\
  Signal_disconnect id (fst (run_ops ops (Signal_disconnect id sg)))
    = fst (run_ops ops (Signal_disconnect id sg)).
Proof.
  intros Hok Hid Hroom.
  assert (map_find id (m_slots (fst (run_ops ops (Signal_disconnect id sg)))) = None) as Hfree.
  { apply run_ops_keeps_free; [now apply Signal_disconnect_ok|exact Hid| |exact Hroom].
    cbn [Signal_disconnect m_slots]. now rewrite map_find_erase, Z.eqb_refl. }
  split; [exact Hfree|].
  destruct (fst (run_ops ops (Signal_disconnect id sg))) as [l i nd].
  unfold Signal_disconnect. cbn [m_slots m_id m_nodes] in *.
  now rewrite map_erase_absent.
Qed.

(** * The further properties on the program run *)

Lemma loop_observer_slot (f : nat) :
  f = 0 \/ 3 < f < 30 -> observer_slot loop_code (UserFn f).
Proof.
  intros Hf. exists f. split; [reflexivity|]. intros em x w.
  destruct (demo_observer f Hf em x w) as (w' & Hrun & H).
  exists w'. split; [|exact H]. unfold loop_code.
  destruct (Nat.eqb_spec f 40) as [->|_]; [lia|].
  destruct (Nat.eqb_spec f 41) as [->|_]; [lia|]. exact Hrun.
Qed.

Lemma demo_prop_quiet (v : Z) (f : nat) :
  3 < f < 29 ->
  quiet demo_code (m_on_change (demo_prop v f)) /\
  quiet demo_code (m_prior_to_change (demo_prop v f)).
Proof.
  intros Hf. split; [apply (demo_quiet f); lia|].
  split; cbn; repeat constructor. apply demo_observer_slot. lia.
Qed.

Lemma table_invariant_witness :
  let ops := [OpConnect (UserFn 0); OpConnect (UserFn 4); OpDisconnect 1;
              OpConnect (UserFn 0)] in
  (Z.of_nat (count_connects ops) <= SIZE_MAX)%Z /\
  Signal_ok (fst (run_ops ops Signal_new)) /\
  m_id (fst (run_ops ops Signal_new)) = 3%Z /\
  keys (m_slots (fst (run_ops ops Signal_new))) = [2; 3]%Z.
Proof.
  intros ops.
  assert (Z.of_nat (count_connects ops) <= SIZE_MAX)%Z as H by (vm_compute; discriminate).
  split; [exact H|].
  destruct (table_invariant ops H) as (Hok & Hid & _).
  split; [exact Hok|]. split; [exact Hid|reflexivity].
Defined.

Lemma connect_then_lookup_witness :
  Signal_ok (demo_signal [UserFn 0]) /\
  (m_id (demo_signal [UserFn 0]) < SIZE_MAX)%Z /\
  snd (Signal_connect (UserFn 4) (demo_signal [UserFn 0])) = 2%Z /\
  map_find 2 (m_slots (demo_signal [UserFn 0])) = None /\
  fn <$> map_find 2 (m_slots (fst (Signal_connect (UserFn 4) (demo_signal [UserFn 0]))))
    = Some (UserFn 4).
Proof.
  assert (Signal_ok (demo_signal [UserFn 0])) as Hok
    by (apply demo_signal_ok; vm_compute; discriminate).
  assert (m_id (demo_signal [UserFn 0]) < SIZE_MAX)%Z as Hroom by (vm_compute; reflexivity).
  split; [exact Hok|]. split; [exact Hroom|]. split; [reflexivity|].
  destruct (connect_then_lookup (UserFn 4) (demo_signal [UserFn 0]) Hok Hroom)
    as (Hfree & Hnew & _).
  split; [exact Hfree|exact Hnew].
Defined.

Lemma connect_on_taken_id_witness :
  sorted (m_slots wrapped_signal) /\
  map_find (wrap (m_id wrapped_signal + 1)) (m_slots wrapped_signal)
    = Some {| key := 0; node := 0; fn := UserFn 0 |} /\
  m_slots (fst (Signal_connect (UserFn 7) wrapped_signal)) = m_slots wrapped_signal /\
  snd (Signal_connect (UserFn 7) wrapped_signal) = 0%Z /\
  keys (m_slots (Signal_disconnect (snd (Signal_connect (UserFn 7) wrapped_signal))
                   (fst (Signal_connect (UserFn 7) wrapped_signal)))) = [5%Z].
Proof.
  assert (sorted (m_slots wrapped_signal)) as Hs by (cbn; repeat constructor).
  assert (map_find (wrap (m_id wrapped_signal + 1)) (m_slots wrapped_signal)
          = Some {| key := 0; node := 0; fn := UserFn 0 |}) as Hf by (vm_compute; reflexivity).
  split; [exact Hs|]. split; [exact Hf|].
  destruct (connect_on_taken_id (UserFn 7) wrapped_signal _ Hs Hf) as (H1 & H2 & _ & H4).
  split; [exact H1|]. split; [exact H2|]. rewrite H4. reflexivity.
Defined.

Lemma disconnect_all_silences_witness :
  get_signal (FreeSignal 0) (demo_world [UserFn 0; UserFn 4])
    = Some (demo_signal [UserFn 0; UserFn 4]) /\
  Signal_ok (demo_signal [UserFn 0; UserFn 4]) /\
  exists w1,
    disconnect_all_at (FreeSignal 0) (demo_world [UserFn 0; UserFn 4]) = Done w1 /\
    Signal_emit demo_code 0 (FreeSignal 0) 7%Z w1 = Done (record (EvEmit (FreeSignal 0) 7%Z) w1) /\
    snd (Signal_connect (UserFn 0) (Signal_disconnect_all (demo_signal [UserFn 0; UserFn 4])))
      = 3%Z.
Proof.
  assert (get_signal (FreeSignal 0) (demo_world [UserFn 0; UserFn 4])
          = Some (demo_signal [UserFn 0; UserFn 4])) as H1 by reflexivity.
  assert (Signal_ok (demo_signal [UserFn 0; UserFn 4])) as Hok
    by (apply demo_signal_ok; vm_compute; discriminate).
  split; [exact H1|]. split; [exact Hok|].
  destruct (disconnect_all_silences demo_code (FreeSignal 0) _ _ H1 Hok)
    as (w1 & Hd & _ & Hemit & _).
  exists w1. split; [exact Hd|]. split; [apply Hemit|reflexivity].
Defined.

Lemma stale_id_stays_free_witness :
  let ops := [OpConnect (UserFn 0); OpDisconnectAll; OpConnect (UserFn 4)] in
  Signal_ok (demo_signal [UserFn 0; UserFn 4]) /\
  (1 <= m_id (demo_signal [UserFn 0; UserFn 4]))%Z /\
  map_find 1 (m_slots (fst (run_ops ops (Signal_disconnect 1 (demo_signal [UserFn 0; UserFn 4])))))
    = None /\
  keys (m_slots (fst (run_ops ops (Signal_disconnect 1 (demo_signal [UserFn 0; UserFn 4])))))
    = [4%Z].
Proof.
  intros ops.
  assert (Signal_ok (demo_signal [UserFn 0; UserFn 4])) as Hok
    by (apply demo_signal_ok; vm_compute; discriminate).
  assert (1 <= m_id (demo_signal [UserFn 0; UserFn 4]))%Z as Hid by (vm_compute; discriminate).
  split; [exact Hok|]. split; [exact Hid|].
  split; [|reflexivity].
  exact (proj1 (stale_id_stays_free 1 ops (demo_signal [UserFn 0; UserFn 4]) Hok Hid
                  ltac:(vm_compute; discriminate))).
Defined.

Lemma emit_self_feeding_never_returns_witness :
  connector loop_code 41 (FreeSignal 0) (UserFn 41) /\
  Signal_ok (demo_signal [UserFn 0; UserFn 41]) /\
  Signal_emit loop_code 1000 (FreeSignal 0) 7%Z (demo_world [UserFn 0; UserFn 41]) = OutOfFuel.
Proof.
  assert (connector loop_code 41 (FreeSignal 0) (UserFn 41)) as Hc
    by (intros em x w; reflexivity).
  assert (Signal_ok (demo_signal [UserFn 0; UserFn 41])) as Hok
    by (apply demo_signal_ok; vm_compute; discriminate).
  split; [exact Hc|]. split; [exact Hok|].
  apply (emit_self_feeding_never_returns loop_code (FreeSignal 0)
           (demo_signal [UserFn 0; UserFn 41])
           [{| key := 1; node := 0; fn := UserFn 0 |}]
           {| key := 2; node := 1; fn := UserFn 41 |} 41 7%Z
           (demo_world [UserFn 0; UserFn 41]) 1000
           eq_refl Hok eq_refl eq_refl Hc
           ltac:(repeat constructor; apply loop_observer_slot; lia)
           ltac:(vm_compute; discriminate)).
Defined.

Lemma emit_reentrant_never_returns_witness :
  reemitter loop_code 40 (FreeSignal 0) /\
  Signal_emit loop_code 1000 (FreeSignal 0) 7%Z (demo_world [UserFn 0; UserFn 40; UserFn 4])
    = OutOfFuel.
Proof.
  assert (reemitter loop_code 40 (FreeSignal 0)) as Hr by (intros em x w; reflexivity).
  split; [exact Hr|].
  apply (emit_reentrant_never_returns loop_code (FreeSignal 0)
           (demo_signal [UserFn 0; UserFn 40; UserFn 4])
           [{| key := 1; node := 0; fn := UserFn 0 |}]
           [{| key := 3; node := 2; fn := UserFn 4 |}]
           {| key := 2; node := 1; fn := UserFn 40 |} 40 7%Z
           eq_refl
           ltac:(cbn; repeat constructor)
           ltac:(repeat constructor; apply loop_observer_slot; lia)
           eq_refl Hr 1000 (demo_world [UserFn 0; UserFn 40; UserFn 4]) eq_refl).
Defined.

Lemma touch_fires_both_witness :
  props demo_props !! 1 = Some (demo_prop 5 20) /\
  quiet demo_code (m_prior_to_change (demo_prop 5 20)) /\
  quiet demo_code (m_on_change (demo_prop 5 20)) /\
  exists w',
    Property_touch (Signal_emit demo_code 1) 1 demo_props = Done w' /\
    Property_get 1 w' = Some 5%Z /\
    trace w' = [EvEmit (PriorToChange 1) 5%Z; EvCall (PriorToChange 1) 1 5%Z;
                EvEmit (OnChange 1) 5%Z; EvCall (OnChange 1) 1 5%Z].
Proof.
  assert (props demo_props !! 1 = Some (demo_prop 5 20)) as HP by reflexivity.
  destruct (demo_prop_quiet 5 20 ltac:(lia)) as [Hq1 Hq2].
  split; [exact HP|]. split; [exact Hq2|]. split; [exact Hq1|].
  destruct (touch_fires_both demo_code 1 (demo_prop 5 20) demo_props 1 HP Hq2 Hq1
              (le_n 1) (le_n 1)) as (w' & Hrun & _ & Hget & Htr).
  exists w'. split; [exact Hrun|]. split; [exact Hget|exact Htr].
Defined.

Lemma silent_write_masks_set_witness :
  props demo_props !! 0 = Some (demo_prop 0 10) /\
  exists w1,
    Property_set_with_no_emit 0 (ByValue 9%Z) demo_props = Done w1 /\
    Property_get 0 w1 = Some 9%Z /\ trace w1 = [] /\
    Property_set (Signal_emit demo_code 5) 0 (ByValue 9%Z) w1 = Done w1.
Proof.
  assert (props demo_props !! 0 = Some (demo_prop 0 10)) as HP by reflexivity.
  split; [exact HP|].
  destruct (silent_write_masks_set (Signal_emit demo_code 5) 0 9%Z (demo_prop 0 10)
              demo_props HP) as (w1 & Hrun & _ & _ & Htr & Hget & Hset).
  exists w1. split; [exact Hrun|]. split; [exact Hget|]. split; [exact Htr|exact Hset].
Defined.

Lemma disconnect_removes_forwarding_witness :
  exists w',
    Property_disconnect 0 demo_bound = Done w' /\
    m_slots <$> get_signal (OnChange 1) w'
      = Some [{| key := 1; node := 0; fn := UserFn 20 |}] /\
    Property_get 0 w' = Some 5%Z /\
    Property_disconnect 0 w' = Done w'.
Proof.
  eassert (props demo_bound !! 0 = Some _) as HA by (vm_compute; reflexivity).
  eassert (props demo_bound !! 1 = Some _) as HB by (vm_compute; reflexivity).
  destruct (disconnect_removes_forwarding 0 1 _ _
              [{| key := 1; node := 0; fn := UserFn 20 |}] []
              {| key := 2; node := 1; fn := SetFrom 0 |} demo_bound
              ltac:(discriminate) HA HB eq_refl eq_refl ltac:(cbn; repeat constructor) eq_refl)
    as (w' & Hrun & _ & Hsl & HgA & _ & _ & _ & Hagain).
  exists w'. split; [exact Hrun|]. split; [exact Hsl|]. split; [exact HgA|exact Hagain].
Defined.

Lemma disconnect_auditors_clears_witness :
  props demo_props !! 0 = Some (demo_prop 0 10) /\
  exists w1 w2,
    Property_disconnect_auditors 0 demo_props = Done w1 /\
    Property_get 0 w1 = Some 0%Z /\
    Property_set (Signal_emit demo_code 0) 0 (ByValue 9%Z) w1 = Done w2 /\
    Property_get 0 w2 = Some 9%Z /\
    trace w2 = [EvEmit (PriorToChange 0) 0%Z; EvEmit (OnChange 0) 9%Z].
Proof.
  assert (props demo_props !! 0 = Some (demo_prop 0 10)) as HP by reflexivity.
  split; [exact HP|].
  destruct (disconnect_auditors_clears demo_code 0 (demo_prop 0 10) 9%Z demo_props HP
              ltac:(discriminate)) as (w1 & Hrun & Hp & _ & Htr & Hset).
  destruct (Hset 0) as (w2 & Hset2 & Hget2 & Htr2).
  exists w1, w2. split; [exact Hrun|].
  split; [unfold Property_get; rewrite Hp; now rewrite lookup_insert_eq|].
  split; [exact Hset2|]. split; [exact Hget2|]. rewrite Htr2, Htr. reflexivity.
Defined.

Lemma disconnect_auditors_cuts_dependents_witness :
  Bound demo_code 0 1 demo_bound /\
  exists w1 w2 w3,
    Property_disconnect_auditors 1 demo_bound = Done w1 /\
    m_connection <$> props w1 !! 0 = Some (Some 1) /\
    Property_set (Signal_emit demo_code 5) 1 (ByValue 9%Z) w1 = Done w2 /\
    Property_get 1 w2 = Some 9%Z /\ Property_get 0 w2 = Some 5%Z /\
    Property_disconnect 0 w1 = Done w3 /\
    m_connection <$> props w3 !! 0 = Some None.
Proof.
  split; [exact demo_bound_Bound|].
  destruct (disconnect_auditors_cuts_dependents demo_code 0 1 9%Z demo_bound 5
              demo_bound_Bound) as (w1 & Hrun & Hc & _ & Hset & w3 & Hd & Hc3 & _).
  destruct (Hset ltac:(vm_compute; discriminate)) as (w2 & Hset2 & HgB & HgA).
  exists w1, w2, w3. split; [exact Hrun|]. split; [exact Hc|]. split; [exact Hset2|].
  split; [exact HgB|]. split; [exact HgA|]. split; [exact Hd|exact Hc3].
Defined.

Lemma touch_publishes_silent_write_witness :
  Bound demo_code 0 1 demo_bound /\ binding_fuel 0 1 demo_bound <= 5 /\
  exists w1 w2,
    Property_set_with_no_emit 1 (ByValue 7%Z) demo_bound = Done w1 /\
    Property_get 0 w1 = Some 5%Z /\
    Property_touch (Signal_emit demo_code 5) 1 w1 = Done w2 /\
    Property_get 0 w2 = Some 7%Z /\ Property_get 1 w2 = Some 7%Z.
Proof.
  assert (binding_fuel 0 1 demo_bound <= 5) as Hfuel by (vm_compute; lia).
  split; [exact demo_bound_Bound|]. split; [exact Hfuel|].
  destruct (touch_publishes_silent_write demo_code 0 1 7%Z demo_bound 5
              demo_bound_Bound Hfuel) as (w1 & w2 & Hrun & HgA & Htouch & _ & HgA2 & HgB2).
  exists w1, w2. split; [exact Hrun|]. split; [exact HgA|]. split; [exact Htouch|].
  split; [exact HgA2|exact HgB2].
Defined.

Lemma dangling_binding_faults_witness :
  Property_disconnect 0 (with_props (delete 1 (props demo_bound)) demo_bound) = Fault /\
  Property_connect_from (Signal_emit demo_code 5) 0 1
    (with_props (delete 1 (props demo_bound)) demo_bound) = Fault /\
  Property_set (Signal_emit demo_code 5) 1 (ByValue 9%Z)
    (with_props (delete 0 (props demo_bound)) demo_bound) = Fault.
Proof.
  eassert (props (with_props (delete 1 (props demo_bound)) demo_bound) !! 0 = Some _) as HA
    by (vm_compute; reflexivity).
  eassert (props (with_props (delete 0 (props demo_bound)) demo_bound) !! 1 = Some _) as HB
    by (vm_compute; reflexivity).
  destruct (proj1 (dangling_binding_faults demo_code 0 1
                     (with_props (delete 1 (props demo_bound)) demo_bound))
              _ HA eq_refl ltac:(vm_compute; reflexivity)) as [Hd Hc].
  split; [exact Hd|]. split; [apply Hc|].
  apply (proj2 (dangling_binding_faults demo_code 0 1
                  (with_props (delete 0 (props demo_bound)) demo_bound))
           _ [{| key := 1; node := 0; fn := UserFn 20 |}] []
           {| key := 2; node := 1; fn := SetFrom 0 |} 9%Z 5
           HB ltac:(vm_compute; reflexivity) eq_refl eq_refl
           ltac:(cbn; repeat constructor)
           ltac:(repeat constructor; apply demo_observer_slot; lia)
           ltac:(split; cbn; repeat constructor; apply demo_observer_slot; lia)
           ltac:(discriminate) ltac:(cbn; lia) ltac:(cbn; lia)).
Defined.

Lemma move_assign_resets_source_witness :
  props demo_props !! 0 = Some (demo_prop 0 10) /\
  props demo_props !! 1 = Some (demo_prop 5 20) /\
  (exists w',
     Property_move_assign (Signal_emit demo_code 1) 0%Z 0 1 demo_props = Done w' /\
     Property_get 0 w' = Some 5%Z /\ Property_get 1 w' = Some 0%Z /\
     fired (OnChange 1) (trace w') = 0 /\ fired (OnChange 0) (trace w') = 1) /\
  exists w',
    Property_move_assign (Signal_emit demo_code 1) 0%Z 1 1 demo_props = Done w' /\
    Property_get 1 w' = Some 0%Z /\ trace w' = [].
Proof.
  assert (props demo_props !! 0 = Some (demo_prop 0 10)) as HA by reflexivity.
  assert (props demo_props !! 1 = Some (demo_prop 5 20)) as HB by reflexivity.
  destruct (demo_prop_quiet 0 10 ltac:(lia)) as [Hq1 Hq2].
  split; [exact HA|]. split; [exact HB|]. split.
  - destruct (proj2 (move_assign_resets_source demo_code 0%Z 0 1 (demo_prop 0 10)
                       (demo_prop 5 20) demo_props 1 HA HB)
                ltac:(discriminate) Hq2 Hq1 (le_n 1) (le_n 1))
      as (w' & tr & Hrun & Hp & Htr & Hf1 & _ & Hf2).
    exists w'. split; [exact Hrun|]. unfold Property_get. rewrite Hp.
    split; [reflexivity|]. split; [reflexivity|].
    rewrite Htr. split; [exact Hf1|exact Hf2].
  - eexists. split.
    + exact (proj1 (move_assign_resets_source demo_code 0%Z 1 1 (demo_prop 5 20)
                      (demo_prop 5 20) demo_props 1 HB HB) eq_refl (Signal_emit demo_code 1)).
    + split; reflexivity.
Defined.

Lemma binding_cycle_settles_witness :
  Property_get 0 demo_cycle = Some 5%Z /\ Property_get 1 demo_cycle = Some 5%Z /\
  m_connection <$> props demo_cycle !! 0 = Some (Some 1) /\
  m_connection <$> props demo_cycle !! 1 = Some (Some 0) /\
  exists w' tr,
    Property_set (Signal_emit demo_code 6) 1 (ByValue 9%Z) demo_cycle = Done w' /\
    Property_get 0 w' = Some 9%Z /\ Property_get 1 w' = Some 9%Z /\
    trace w' = trace demo_cycle ++ tr /\
    emissions tr = [(PriorToChange 1, 5%Z); (OnChange 1, 9%Z);
                    (PriorToChange 0, 5%Z); (OnChange 0, 9%Z)].
Proof.
  split; [vm_compute; reflexivity|]. split; [vm_compute; reflexivity|].
  split; [vm_compute; reflexivity|]. split; [vm_compute; reflexivity|].
  eassert (props demo_cycle !! 0 = Some _) as HA by (vm_compute; reflexivity).
  eassert (props demo_cycle !! 1 = Some _) as HB by (vm_compute; reflexivity).
  destruct (binding_cycle_settles demo_code 0 1 _ _
              [{| key := 1; node := 0; fn := UserFn 10 |}] []
              [{| key := 1; node := 0; fn := UserFn 20 |}] []
              {| key := 2; node := 1; fn := SetFrom 1 |}
              {| key := 2; node := 1; fn := SetFrom 0 |} 9%Z demo_cycle 6
              ltac:(discriminate) HA HB
              eq_refl eq_refl ltac:(cbn; repeat constructor)
              ltac:(repeat constructor; apply demo_observer_slot; lia)
              eq_refl eq_refl ltac:(cbn; repeat constructor)
              ltac:(repeat constructor; apply demo_observer_slot; lia)
              ltac:(split; cbn; repeat constructor; apply demo_observer_slot; lia)
              ltac:(split; cbn; repeat constructor; apply demo_observer_slot; lia)
              ltac:(discriminate) ltac:(discriminate) ltac:(vm_compute; lia))
    as (w' & tr & Hrun & Hp & _ & Htr & Hem).
  exists w', tr. split; [exact Hrun|]. unfold Property_get. rewrite Hp.
  split; [reflexivity|]. split; [reflexivity|]. split; [exact Htr|exact Hem].
Defined.

Lemma binding_chain_cascades_witness :
  m_connection <$> props demo_chain !! 0 = Some (Some 1) /\
  m_connection <$> props demo_chain !! 1 = Some (Some 2) /\
  exists w' tr,
    Property_set (Signal_emit demo_code 11) 2 (ByValue 9%Z) demo_chain = Done w' /\
    Property_get 0 w' = Some 9%Z /\ Property_get 1 w' = Some 9%Z /\
    Property_get 2 w' = Some 9%Z /\
    trace w' = trace demo_chain ++ tr /\
    emissions tr = [(PriorToChange 2, 8%Z); (OnChange 2, 9%Z);
                    (PriorToChange 1, 8%Z); (OnChange 1, 9%Z);
                    (PriorToChange 0, 8%Z); (OnChange 0, 9%Z)].
Proof.
  split; [vm_compute; reflexivity|]. split; [vm_compute; reflexivity|].
  eassert (props demo_chain !! 0 = Some _) as HA by (vm_compute; reflexivity).
  eassert (props demo_chain !! 1 = Some _) as HB by (vm_compute; reflexivity).
  eassert (props demo_chain !! 2 = Some _) as HC by (vm_compute; reflexivity).
  destruct (binding_chain_cascades demo_code 0 1 2 _ _ _
              [{| key := 1; node := 0; fn := UserFn 20 |}] []
              [{| key := 1; node := 0; fn := UserFn 22 |}] []
              {| key := 2; node := 1; fn := SetFrom 0 |}
              {| key := 2; node := 1; fn := SetFrom 1 |} 9%Z demo_chain 11
              ltac:(discriminate) ltac:(discriminate) ltac:(discriminate) HA HB HC
              eq_refl eq_refl ltac:(cbn; repeat constructor)
              ltac:(repeat constructor; apply demo_observer_slot; lia)
              eq_refl eq_refl ltac:(cbn; repeat constructor)
              ltac:(repeat constructor; apply demo_observer_slot; lia)
              ltac:(split; cbn; repeat constructor; apply demo_observer_slot; lia)
              ltac:(split; cbn; repeat constructor; apply demo_observer_slot; lia)
              ltac:(split; cbn; repeat constructor; apply demo_observer_slot; lia)
              ltac:(split; cbn; repeat constructor; apply demo_observer_slot; lia)
              ltac:(discriminate) ltac:(discriminate) ltac:(discriminate)
              ltac:(vm_compute; lia))
    as (w' & tr & Hrun & Hp & _ & Htr & Hem).
  exists w', tr. split; [exact Hrun|]. unfold Property_get. rewrite Hp.
  split; [reflexivity|]. split; [reflexivity|]. split; [reflexivity|].
  split; [exact Htr|exact Hem].
Defined.

Lemma rebind_moves_forwarding_slot_witness :
  m_connection <$> props demo_bound_far !! 0 = Some (Some 2) /\
  exists w',
    Property_connect_from (Signal_emit demo_code 3) 0 1 demo_bound_far = Done w' /\
    Bound demo_code 0 1 w' /\
    Property_get 0 w' = Some 5%Z /\ Property_get 2 w' = Some 8%Z /\
    m_slots <$> get_signal (OnChange 2) w'
      = Some [{| key := 1; node := 0; fn := UserFn 22 |}].
Proof.
  split; [vm_compute; reflexivity|].
  eassert (props demo_bound_far !! 0 = Some _) as HA by (vm_compute; reflexivity).
  eassert (props demo_bound_far !! 1 = Some _) as HB by (vm_compute; reflexivity).
  eassert (props demo_bound_far !! 2 = Some _) as HC by (vm_compute; reflexivity).
  destruct (rebind_moves_forwarding_slot demo_code 0 1 2 _ _ _
              [{| key := 1; node := 0; fn := UserFn 22 |}] []
              {| key := 2; node := 1; fn := SetFrom 0 |} demo_bound_far 3
              ltac:(discriminate) ltac:(discriminate) ltac:(discriminate) HA HB HC
              eq_refl eq_refl ltac:(cbn; repeat constructor) eq_refl
              (demo_signal_ok [UserFn 20] ltac:(vm_compute; discriminate))
              ltac:(vm_compute; reflexivity)
              ltac:(split; cbn; repeat constructor; apply demo_observer_slot; lia)
              ltac:(split; cbn; repeat constructor; apply demo_observer_slot; lia)
              ltac:(split; cbn; repeat constructor; apply demo_observer_slot; lia)
              ltac:(split; cbn; repeat constructor; apply demo_observer_slot; lia)
              ltac:(cbn; lia) ltac:(cbn; lia))
    as (w' & Hrun & Hb & HgA & _ & HgC & Hsl).
  exists w'. split; [exact Hrun|]. split; [exact Hb|].
  split; [exact HgA|]. split; [exact HgC|exact Hsl].
Defined.

Lemma reconnect_same_source_witness :
  m_slots <$> get_signal (OnChange 1) demo_bound
    = Some [{| key := 1; node := 0; fn := UserFn 20 |};
            {| key := 2; node := 1; fn := SetFrom 0 |}] /\
  exists w' sg',
    Property_connect_from (Signal_emit demo_code 3) 0 1 demo_bound = Done w' /\
    get_signal (OnChange 1) w' = Some sg' /\
    m_slots sg' = [{| key := 1; node := 0; fn := UserFn 20 |};
                   {| key := 3; node := 2; fn := SetFrom 0 |}] /\
    m_connection_id <$> props w' !! 0 = Some 3%Z.
Proof.
  split; [vm_compute; reflexivity|].
  eassert (props demo_bound !! 0 = Some _) as HA by (vm_compute; reflexivity).
  eassert (props demo_bound !! 1 = Some _) as HB by (vm_compute; reflexivity).
  destruct (reconnect_same_source demo_code 0 1 _ _
              [{| key := 1; node := 0; fn := UserFn 20 |}] []
              {| key := 2; node := 1; fn := SetFrom 0 |} demo_bound 3
              ltac:(discriminate) HA HB eq_refl eq_refl eq_refl
              (demo_signal_ok [UserFn 20; SetFrom 0] ltac:(vm_compute; discriminate))
              ltac:(vm_compute; reflexivity)
              ltac:(split; cbn; repeat constructor; apply demo_observer_slot; lia)
              ltac:(split; cbn; repeat constructor; apply demo_observer_slot; lia)
              ltac:(cbn; lia) ltac:(cbn; lia))
    as (w' & sg' & Hrun & Hsg & Hsl & _ & Hid & _).
  exists w', sg'. split; [exact Hrun|]. split; [exact Hsg|].
  split; [exact Hsl|exact Hid].
Defined.

Lemma self_binding_is_harmless_witness :
  props demo_props !! 0 = Some (demo_prop 0 10) /\
  exists w1 w2 tr,
    Property_connect_from (Signal_emit demo_code 3) 0 0 demo_props = Done w1 /\
    m_connection <$> props w1 !! 0 = Some (Some 0) /\
    Property_set (Signal_emit demo_code 3) 0 (ByValue 9%Z) w1 = Done w2 /\
    Property_get 0 w2 = Some 9%Z /\
    trace w2 = trace w1 ++ tr /\
    emissions tr = [(PriorToChange 0, 0%Z); (OnChange 0, 9%Z)].
Proof.
  assert (props demo_props !! 0 = Some (demo_prop 0 10)) as HA by reflexivity.
  destruct (demo_prop_quiet 0 10 ltac:(lia)) as [Hq1 Hq2].
  split; [exact HA|].
  destruct (self_binding_is_harmless demo_code 0 (demo_prop 0 10) 9%Z demo_props 3 HA eq_refl
              ltac:(apply (demo_signal_ok [UserFn 10]); vm_compute; discriminate)
              ltac:(vm_compute; reflexivity) Hq1 Hq2 ltac:(discriminate)
              ltac:(cbn; lia) ltac:(cbn; lia))
    as (w1 & w2 & sg1 & tr & Hrun & _ & _ & Hc & _ & _ & Hset & Hget & Htr & Hem).
  exists w1, w2, tr. split; [exact Hrun|]. split; [exact Hc|]. split; [exact Hset|].
  split; [exact Hget|]. split; [exact Htr|exact Hem].
Defined.
